(** * Imagine/imagine.py: a shallow embedding

    The command-line tool talks to three HTTP providers.  This development
    embeds the parts of [imagine.py] that carry state or failure semantics:
    the submit-then-poll adapter for the BFL provider ([bfl_generate_image],
    [bfl_edit_image]), the path helpers ([resolve_input_path],
    [resolve_output_path]), the temporary-file discipline of the OpenAI
    upload calls ([edit_image], [create_variations]) and the [variations]
    subcommand.

    Python values that come back from [response.json()] are modelled by the
    type [json]; dictionaries are finite maps.  Everything the program does
    to the outside (network, clock, file system, standard output) is threaded
    through an explicit [state], and whatever the outside answers is read off
    a [World] record, so that each function below is an ordinary, executable
    Rocq function. *)

From Stdlib Require Import ZArith Ascii String Floats.PrimFloat.
From stdpp Require Import gmap strings list pretty.

#[local] Set Warnings "-register-all,-clear-no-such-hyp".
#[local] Open Scope string_scope.
#[local] Open Scope list_scope.

(** ** Python values *)

Module Py.

(** What [json.loads] can produce. *)
Inductive json :=
| JNull
| JBool (b : bool)
| JInt (z : Z)
| JFloat (f : float)
| JStr (s : string)
| JArr (l : list json)
| JObj (m : gmap string json).

(** [bool(v)]: the test behind [if not v]. *)
Definition truthy (v : json) : bool :=
  match v with
  | JNull => false
  | JBool b => b
  | JInt z => negb (z =? 0)%Z
  | JFloat f => negb (PrimFloat.eqb f 0%float)
  | JStr s => negb (String.eqb s EmptyString)
  | JArr l => match l with [] => false | _ :: _ => true end
  | JObj m => negb (bool_decide (dom m = ∅))
  end.

(** [v == s] for a string literal [s]. *)
Definition eq_str (v : json) (s : string) : bool :=
  match v with
  | JStr t => String.eqb t s
  | _ => false
  end.

(** [v in [s1, ..., sn]] for a list of string literals. *)
Definition in_strs (v : json) (l : list string) : bool :=
  existsb (eq_str v) l.
Arguments in_strs : simpl never.

(** [type(v).__name__] *)
Definition type_name (v : json) : string :=
  match v with
  | JNull => "NoneType"
  | JBool _ => "bool"
  | JInt _ => "int"
  | JFloat _ => "float"
  | JStr _ => "str"
  | JArr _ => "list"
  | JObj _ => "dict"
  end.

(** Truthiness of an optional string ([None] or a [str]). *)
Definition truthy_opt (o : option string) : bool :=
  match o with
  | Some s => negb (String.eqb s EmptyString)
  | None => false
  end.

(** [a or b] on optional strings. *)
Definition or_opt (a b : option string) : option string :=
  if truthy_opt a then a else b.

(** [s.startswith(p)] *)
Definition startswith (s p : string) : bool := String.prefix p s.

(** [s.rsplit(sep, 1)]: split at the last occurrence of [sep], if any. *)
Fixpoint rsplit1 (sep : ascii) (s : string) : list string :=
  match s with
  | EmptyString => [EmptyString]
  | String c s' =>
      match rsplit1 sep s' with
      | [t] => if Ascii.eqb c sep then [EmptyString; t] else [String c t]
      | a :: rest => String c a :: rest
      | [] => []
      end
  end.

(** [c in s] for a one-character string [c]. *)
Fixpoint contains_char (c : ascii) (s : string) : bool :=
  match s with
  | EmptyString => false
  | String d s' => Ascii.eqb d c || contains_char c s'
  end.

(** [s.upper()] on ASCII text. *)
Definition upper_char (c : ascii) : ascii :=
  let n := nat_of_ascii c in
  if (97 <=? n)%nat && (n <=? 122)%nat then ascii_of_nat (n - 32) else c.

Fixpoint upper (s : string) : string :=
  match s with
  | EmptyString => EmptyString
  | String c s' => String (upper_char c) (upper s')
  end.

(** [repr(s)] for a [str] of ASCII characters: single quotes unless the
    text has a single quote and no double quote; the quote and the backslash
    are escaped, tab, newline and carriage return are written with their
    letters, the other control characters as [\xhh]. *)
Definition hex_digit (n : nat) : ascii :=
  if (n <? 10)%nat then ascii_of_nat (48 + n) else ascii_of_nat (87 + n).

Definition double_quote : ascii := ascii_of_nat 34.
Definition single_quote : ascii := ascii_of_nat 39.
Definition backslash : ascii := ascii_of_nat 92.

Definition repr_char (quote c : ascii) : string :=
  let n := nat_of_ascii c in
  if Ascii.eqb c quote || Ascii.eqb c backslash then
    String backslash (String c EmptyString)
  else if (n =? 9)%nat then String backslash "t"
  else if (n =? 10)%nat then String backslash "n"
  else if (n =? 13)%nat then String backslash "r"
  else if (n <? 32)%nat || (n =? 127)%nat then
    String backslash
      (String "x" (String (hex_digit (n / 16))
                     (String (hex_digit (n mod 16)) EmptyString)))
  else String c EmptyString.

Fixpoint repr_chars (quote : ascii) (s : string) : string :=
  match s with
  | EmptyString => EmptyString
  | String c s' => repr_char quote c +:+ repr_chars quote s'
  end.

Definition repr_ascii (s : string) : string :=
  let quote :=
    if contains_char single_quote s && negb (contains_char double_quote s)
    then double_quote else single_quote in
  String quote (repr_chars quote s +:+ String quote EmptyString).

Fixpoint is_ascii (s : string) : bool :=
  match s with
  | EmptyString => true
  | String c s' => (nat_of_ascii c <? 128)%nat && is_ascii s'
  end.

(** The keys of a dictionary in the order in which they were inserted.  The
    maps of this development do not keep that order: [hint] names it, and
    [keys] are the keys of the map.  Whatever the hint, every key comes up
    once. *)
Definition ordered_keys (hint keys : list string) : list string :=
  let listed := remove_dups (filter (λ k, k ∈ keys) hint) in
  listed ++ filter (λ k, k ∉ listed) keys.

End Py.
Export Py.

(** ** Exceptions, outcomes and the monad of effects *)

(** An exception deriving from [Exception]: its class name and [str(e)]. *)
Inductive error := Err (cls : string) (msg : string).

Definition error_message (e : error) : string :=
  match e with Err _ m => m end.

Definition ValueError := Err "ValueError".
Definition AttributeError := Err "AttributeError".
Definition FileNotFoundError := Err "FileNotFoundError".
Definition NotImplementedError := Err "NotImplementedError".
Definition IndexError := Err "IndexError".
Definition HTTPError := Err "HTTPError".

(** How a call ends.  [Exit] is [SystemExit], which [except Exception] does
    not catch.  [Fuel] is not a Python outcome: it says that the bounded
    unrolling of a [while True] loop has been used up while the loop was still
    running. *)
Inductive outcome (A : Type) :=
| Ret (a : A)
| Raise (e : error)
| Exit (code : nat)
| Fuel.
Arguments Ret {A} a.
Arguments Raise {A} e.
Arguments Exit {A} code.
Arguments Fuel {A}.

(** A value of an OpenAI keyword-argument dictionary; [PFile] is a file
    object opened for reading. *)
Inductive param :=
| PStr (s : string)
| PInt (n : Z)
| PFile (path : string).

(** What the program did to the outside, in order. *)
Inductive event :=
| EvPrint (line : string)
| EvSleep (milliseconds : nat)
| EvPost (url : string) (headers : list (string * string)) (body : json)
| EvGet (url : json) (headers : list (string * string))
| EvOpenAI (operation : string) (arguments : gmap string param)
| EvWrite (path : string)
| EvRemove (path : string).

(** [clock] counts the calls of [time.sleep] so far; [files] is the set of
    paths that exist; [uuids] counts the calls of [uuid.uuid4]. *)
Record state := State {
  clock : nat;
  trace : list event;
  files : gset string;
  uuids : nat
}.

Definition M (A : Type) : Type := state → outcome A * state.

#[global] Instance M_ret : MRet M := λ A a s, (Ret a, s).

#[global] Instance M_bind : MBind M := λ A B k c s,
  match c s with
  | (Ret a, s') => k a s'
  | (Raise e, s') => (Raise e, s')
  | (Exit n, s') => (Exit n, s')
  | (Fuel, s') => (Fuel, s')
  end.

Definition raise {A} (e : error) : M A := λ s, (Raise e, s).
Definition exit {A} (code : nat) : M A := λ s, (Exit code, s).
Definition out_of_fuel {A} : M A := λ s, (Fuel, s).

(** Lift a library call that either raises or returns. *)
Definition lift {A} (r : error + A) : M A :=
  match r with
  | inl e => raise e
  | inr a => mret a
  end.

Definition emit (e : event) : M unit := λ s,
  (Ret (), State (clock s) (trace s ++ [e]) (files s) (uuids s)).

Definition print (line : string) : M unit := emit (EvPrint line).

(** [time.sleep(1.5)]: the clock of the world advances. *)
Definition sleep (milliseconds : nat) : M unit := λ s,
  (Ret (), State (S (clock s)) (trace s ++ [EvSleep milliseconds]) (files s) (uuids s)).

Definition now : M nat := λ s, (Ret (clock s), s).

(** [try: body except Exception as e: handler(e)] *)
Definition try_except {A} (body : M A) (handler : error → M A) : M A := λ s,
  match body s with
  | (Raise e, s') => handler e s'
  | r => r
  end.

(** [try: body finally: fin].  The [finally] block runs on return, on an
    exception and on [SystemExit]; an exception of its own replaces the
    pending one. *)
Definition try_finally {A} (body : M A) (fin : M unit) : M A := λ s,
  match body s with
  | (Fuel, s') => (Fuel, s')
  | (r, s') =>
      match fin s' with
      | (Ret _, s'') => (r, s'')
      | (Raise e, s'') => (Raise e, s'')
      | (Exit n, s'') => (Exit n, s'')
      | (Fuel, s'') => (Fuel, s'')
      end
  end.

(** ** The outside world *)

(** A decoded image as PIL holds it: its mode and size, and the pixel data,
    which this development never looks into. *)
Record image {Raster : Type} := Image {
  mode : string;
  width : nat;
  height : nat;
  raster : Raster
}.
Arguments image Raster : clear implicits.
Arguments Image {Raster} mode width height raster.

(** A [requests.Response]. *)
Record response := Response {
  resp_url : string;
  status_code : nat;
  reason : string;
  text : string;
  body : error + json;          (* [.json()] *)
  content : list Byte.byte      (* [.content] *)
}.

(** One element of [response.data] of the OpenAI images API. *)
Record image_data := ImageData {
  b64_json : option string;
  data_url : option string
}.

(** What the key files and the directory of the script are to the
    program. *)
Record Host := {
  script_dir : string;                   (* directory of [__file__] *)
  read_text : string → error + string;   (* [open(path, 'r').read()] *)
  strip : string → string                (* [str.strip] *)
}.

(** Everything the program reads from outside itself: the network, the
    environment, the file system contents and the libraries it calls
    (requests, PIL, base64, openai, uuid, tempfile, os.path). *)
Record World {Raster : Type} := {
  (* [os.environ] when a command runs (after the module was loaded), and
     the key files *)
  os_environ : gmap string string;
  local_host : Host;
  (* requests *)
  requests_post : string → list (string * string) → json → error + response;
  requests_get : nat → json → list (string * string) → error + response;
  (* what the parsed JSON values of this development leave open of
     their [repr]: how a float is written, how a [str] with characters
     outside ASCII is written, and the order of the keys of a dictionary *)
  repr_float : float → string;
  repr_unicode : string → string;
  key_order : gmap string json → list string;
  (* PIL *)
  image_open_bytes : list Byte.byte → error + image Raster;
  image_open_file : string → error + image Raster;
  image_encode : image Raster → string → option nat → error + list Byte.byte;
  save_handler : string → error + ();  (* [SAVE[format.upper()]] in [Image.save] *)
  save_open : string → error + ();     (* [open(path, "w+b")] in [Image.save] *)
  new_raster : string → nat * nat → nat * nat * nat → Raster;
  alpha_band : image Raster → image Raster;
  paste_raster : Raster → image Raster → option (image Raster) → Raster;
  convert_raster : image Raster → string → error + Raster;
  thumbnail_size : nat * nat → nat * nat → nat * nat;
  resample_raster : image Raster → nat * nat → Raster;
  (* base64 *)
  b64encode : list Byte.byte → string;
  b64decode : string → error + list Byte.byte;
  (* openai *)
  openai_client : option string → option string → error + ();
  openai_images_edit : gmap string param → error + list image_data;
  openai_images_create_variation : gmap string param → error + list image_data;
  (* uuid, tempfile, os.path *)
  uuid4 : nat → string;
  gettempdir : string;
  isabs : string → bool;
  join : string → string → string
}.
Arguments World Raster : clear implicits.

(** [os.getenv("OPENAI_API_KEY")] *)
Definition env_openai_api_key {Raster} (W : World Raster) : option string :=
  os_environ W !! "OPENAI_API_KEY".

(** The parsed command line of the [variations] subcommand. *)
Record variations_args := VariationsArgs {
  arg_input : string;
  arg_output : string;
  arg_provider : string;
  arg_n : Z;
  arg_size : string;
  arg_output_format : string;
  arg_api_key : option string;
  arg_api_base : option string;
  arg_output_dir : option string
}.

Section Program.

Context {Raster : Type} (W : World Raster).

#[local] Abbreviation image := (image Raster).

(** [repr(s)] for a [str]. *)
Definition repr_str (s : string) : string :=
  if is_ascii s then repr_ascii s else repr_unicode W s.

(** The entries [key: value] of a dictionary whose values are rendered
    already. *)
Definition dict_entries (hint : list string) (rendered : gmap string string)
    : list string :=
  omap (λ k, (λ r, repr_str k +:+ ": " +:+ r) <$> rendered !! k)
       (ordered_keys hint (map fst (map_to_list rendered))).

(** [repr(v)] for what [response.json()] returns. *)
Fixpoint repr (v : json) : string :=
  match v with
  | JNull => "None"
  | JBool b => if b then "True" else "False"
  | JInt z => pretty z
  | JFloat f => repr_float W f
  | JStr s => repr_str s
  | JArr l => "[" +:+ String.concat ", " (repr <$> l) +:+ "]"
  | JObj m =>
      "{" +:+ String.concat ", " (dict_entries (key_order W m) (repr <$> m))
          +:+ "}"
  end.

(** [str(v)], as an f-string renders [{v}]: a [str] as it is, everything
    else as [repr] writes it. *)
Definition py_str (v : json) : string :=
  match v with
  | JStr s => s
  | _ => repr v
  end.

(** [d.get(key, default)]; only dictionaries have [get]. *)
Definition dict_get (d : json) (key : string) (dflt : json) : M json :=
  match d with
  | JObj m => mret (default dflt (m !! key))
  | _ => raise (AttributeError
                  ("'" +:+ type_name d +:+ "' object has no attribute 'get'"))
  end.

(** *** requests *)

Definition post (url : string) (headers : list (string * string)) (data : json)
  : M response :=
  emit (EvPost url headers data);;
  lift (requests_post W url headers data).

Definition get (url : json) (headers : list (string * string)) : M response :=
  emit (EvGet url headers);;
  t ← now;
  lift (requests_get W t url headers).

(** [response.raise_for_status()] *)
Definition raise_for_status (r : response) : M unit :=
  let code := status_code r in
  if bool_decide (400 ≤ code < 500) then
    raise (HTTPError (pretty code +:+ " Client Error: " +:+ reason r
                        +:+ " for url: " +:+ resp_url r))
  else if bool_decide (500 ≤ code < 600) then
    raise (HTTPError (pretty code +:+ " Server Error: " +:+ reason r
                        +:+ " for url: " +:+ resp_url r))
  else mret ().

Definition response_json (r : response) : M json := lift (body r).

(** [Image.open(io.BytesIO(b))] *)
Definition image_from_bytes (b : list Byte.byte) : M image :=
  lift (image_open_bytes W b).

(** *** API keys

    The functions are written for any machine [H] and environment
    [environ]; the BFL calls below use those of the world. *)

(** [os.path.exists(path)] *)
Definition path_exists (path : string) : M bool := λ s,
  (Ret (bool_decide (path ∈ files s)), s).

(** [os.getenv(name)] on the environment [environ]. *)
Definition getenv (environ : gmap string string) (name : string) : option string :=
  environ !! name.

Definition load_api_key_from_file (H : Host) (filename : string)
    : M (option string) :=
  let api_key_file := join W (script_dir H) filename in
  found ← path_exists api_key_file;
  if found : bool then
    try_except
      (text ← lift (read_text H api_key_file);
       let api_key := strip H text in
       if negb (String.eqb api_key EmptyString) then mret (Some api_key)
       else mret None)
      (λ e,
         print ("Warning: Failed to read API key from file: " +:+ error_message e);;
         mret None)
  else mret None.

Definition load_elevenlabs_api_key (H : Host) (environ : gmap string string)
    : M (option string) :=
  let api_key := getenv environ "ELEVENLABS_API_KEY" in
  if negb (truthy_opt api_key)
  then load_api_key_from_file H "elevenlabs_api_key.txt"
  else mret api_key.

Definition load_bfl_api_key (H : Host) (environ : gmap string string)
    : M (option string) :=
  let api_key := getenv environ "BFL_API_KEY" in
  if negb (truthy_opt api_key)
  then load_api_key_from_file H "bfl_api_key.txt"
  else mret api_key.

(** *** The BFL provider: submit, then poll *)

Definition model_endpoints : gmap string string :=
  list_to_map [
    ("flux-kontext-pro", "flux-kontext-pro");
    ("flux-kontext-max", "flux-kontext-max");
    ("flux-pro-1.1-ultra", "flux-pro-1.1-ultra");
    ("flux-pro-1.1", "flux-pro-1.1");
    ("flux-pro", "flux-pro");
    ("flux-dev", "flux-dev")
  ].

Definition json_headers (bfl_api_key : string) : list (string * string) :=
  [("accept", "application/json"); ("x-key", bfl_api_key);
   ("Content-Type", "application/json")].

Definition poll_headers (bfl_api_key : string) : list (string * string) :=
  [("accept", "application/json"); ("x-key", bfl_api_key)].

Definition no_key_message : string :=
  "No BFL API key found. Set BFL_API_KEY environment variable or use --bfl-api-key".

(** [bfl_api_key = api_key or load_bfl_api_key()] followed by the check
    [if not bfl_api_key: raise ValueError(...)].  [or] calls
    [load_bfl_api_key] only when [api_key] is [None] or empty. *)
Definition bfl_key (api_key : option string) : M string :=
  bfl_api_key ← (if truthy_opt api_key then mret api_key
                 else load_bfl_api_key (local_host W) (os_environ W));
  if negb (truthy_opt bfl_api_key) then raise (ValueError no_key_message)
  else mret (default EmptyString bfl_api_key).

(** The submission: [requests.post], the diagnostic print on a status other
    than 200, [raise_for_status], and the request id check.  The result is
    the status URL. *)
Definition submit (url : string) (bfl_api_key : string) (data : json) : M string :=
  response ← post url (json_headers bfl_api_key) data;
  (if bool_decide (status_code response ≠ 200)
   then print ("Error response: " +:+ text response)
   else mret ());;
  raise_for_status response;;
  result ← response_json response;
  request_id ← dict_get result "id" JNull;
  if negb (truthy request_id) then
    raise (ValueError "No request ID returned from BFL API")
  else
    mret ("https://api.us1.bfl.ai/v1/get_result?id=" +:+ py_str request_id).

(** One round of the [while True] loop (lines 381-401 and, word for word,
    473-493): sleep, fetch the status, classify it.  [continue] is what the
    loop does when the round neither returns nor raises. *)
Definition poll_round (result_url : string) (bfl_api_key : string)
    (continue : M image) : M image :=
  sleep 1500;;
  result_response ← get (JStr result_url) (poll_headers bfl_api_key);
  raise_for_status result_response;;
  result_data ← response_json result_response;
  status ← dict_get result_data "status" JNull;
  if eq_str status "Ready" then
    result ← dict_get result_data "result" (JObj ∅);
    image_url ← dict_get result "sample" JNull;
    if negb (truthy image_url) then
      raise (ValueError "No image URL in result")
    else
      img_response ← get image_url [];
      raise_for_status img_response;;
      image_from_bytes (content img_response)
  else if negb (in_strs status ["Processing"; "Queued"; "Pending"]) then
    raise (ValueError ("Generation failed with status: " +:+ py_str status
                         +:+ ". Full response: " +:+ py_str result_data))
  else
    continue.

(** The loop itself, unrolled at most [fuel] times. *)
Fixpoint poll_loop (fuel : nat) (result_url : string) (bfl_api_key : string)
    : M image :=
  match fuel with
  | 0 => out_of_fuel
  | S fuel' =>
      poll_round result_url bfl_api_key (poll_loop fuel' result_url bfl_api_key)
  end.

Definition generate_data (prompt aspect_ratio output_format : string)
    (safety_tolerance : Z) (seed : option Z) : json :=
  let data : gmap string json :=
    <["safety_tolerance" := JInt safety_tolerance]>
    (<["output_format" := JStr output_format]>
    (<["aspect_ratio" := JStr aspect_ratio]>
    (<["prompt" := JStr prompt]> ∅))) in
  JObj (match seed with
        | Some n => <["seed" := JInt n]> data
        | None => data
        end).

Definition bfl_generate_image (fuel : nat) (prompt : string)
    (api_key : option string) (model : string) (aspect_ratio : string)
    (seed : option Z) (safety_tolerance : Z) (output_format : string)
    : M image :=
  bfl_api_key ← bfl_key api_key;
  let endpoint := default model (model_endpoints !! model) in
  let url := "https://api.us1.bfl.ai/v1/" +:+ endpoint in
  let data := generate_data prompt aspect_ratio output_format safety_tolerance seed in
  result_url ← submit url bfl_api_key data;
  print "Request submitted. Waiting for generation to complete...";;
  poll_loop fuel result_url bfl_api_key.

(** *** PIL operations used by the program

    The mode and the size of the result are what PIL documents; the pixels
    are left to the world. *)

(** [Image.new(mode, size, color)] *)
Definition image_new (m : string) (size : nat * nat) (color : nat * nat * nat)
    : image :=
  Image m size.1 size.2 (new_raster W m size color).

(** [im.size] *)
Definition size_of (im : image) : nat * nat := (width im, height im).

(** [background.paste(im, mask=mask)] changes the pixels of [background]. *)
Definition paste (background im : image) (mask : option image) : image :=
  Image (mode background) (width background) (height background)
        (paste_raster W (raster background) im mask).

(** [im.convert(m)] *)
Definition convert (im : image) (m : string) : M image :=
  r ← lift (convert_raster W im m);
  mret (Image m (width im) (height im) r).

(** [im.save(buffer, format=fmt, quality=q)] followed by [buffer.getvalue()] *)
Definition save_to_buffer (im : image) (fmt : string) (quality : option nat)
    : M (list Byte.byte) :=
  lift (image_encode W im fmt quality).

(** [im.thumbnail(size, Image.Resampling.LANCZOS)] resizes [im] in place. *)
Definition thumbnail (im : image) (size : nat * nat) : image :=
  let new_size := thumbnail_size W (size_of im) size in
  Image (mode im) new_size.1 new_size.2 (resample_raster W im new_size).

(** [str((w, h))] *)
Definition size_str (size : nat * nat) : string :=
  "(" +:+ pretty size.1 +:+ ", " +:+ pretty size.2 +:+ ")".

Definition max_dimension : nat := 1536.

Definition edit_data (prompt img_base64 output_format : string)
    (safety_tolerance : Z) (seed : option Z) : gmap string json :=
  let data : gmap string json :=
    <["safety_tolerance" := JInt safety_tolerance]>
    (<["output_format" := JStr output_format]>
    (<["input_image" := JStr img_base64]>
    (<["prompt" := JStr prompt]> ∅))) in
  match seed with
  | Some n => <["seed" := JInt n]> data
  | None => data
  end.

(** Lines 413-422: the image is brought to mode RGB. *)
Definition to_rgb (input_image : image) : M image :=
  if bool_decide (mode input_image ∈ ["RGBA"; "LA"]) then
    let background := image_new "RGB" (size_of input_image) (255, 255, 255) in
    let mask :=
      if String.eqb (mode input_image) "RGBA"
      then Some (alpha_band W input_image) else None in
    mret (paste background input_image mask)
  else if negb (String.eqb (mode input_image) "RGB") then
    convert input_image "RGB"
  else
    mret input_image.

(** Lines 424-455: what is put under ["input_image"] in the request, with the
    image it encodes. *)
Definition prepare_upload (prompt output_format : string)
    (safety_tolerance : Z) (seed : option Z) (input_image : image)
    : M (gmap string json * image) :=
  input_image ← to_rgb input_image;
  buffered ← save_to_buffer input_image "JPEG" (Some 95);
  let img_base64 := b64encode W buffered in
  let data := edit_data prompt img_base64 output_format safety_tolerance seed in
  print ("Input image size: " +:+ size_str (size_of input_image));;
  if bool_decide (max_dimension < width input_image
                  ∨ max_dimension < height input_image) then
    let input_image := thumbnail input_image (max_dimension, max_dimension) in
    print ("Resized image to: " +:+ size_str (size_of input_image));;
    buffered ← save_to_buffer input_image "JPEG" (Some 95);
    let img_base64 := b64encode W buffered in
    mret (M := M) (<["input_image" := JStr img_base64]> data, input_image)
  else
    mret (M := M) (data, input_image).

Definition bfl_edit_image (fuel : nat) (input_image : image) (prompt : string)
    (api_key : option string) (model : string) (seed : option Z)
    (safety_tolerance : Z) (output_format : string) : M image :=
  bfl_api_key ← bfl_key api_key;
  let url := "https://api.us1.bfl.ai/v1/" +:+ model in
  '(data, _) ← prepare_upload prompt output_format safety_tolerance seed input_image;
  result_url ← submit url bfl_api_key (JObj data);
  print "Request submitted. Waiting for generation to complete...";;
  poll_loop fuel result_url bfl_api_key.

(** *** Paths and files *)

Definition create_path (path : string) : M unit := λ s,
  (Ret (), State (clock s) (trace s ++ [EvWrite path])
                 ({[path]} ∪ files s) (uuids s)).

Definition delete_path (path : string) : M unit := λ s,
  (Ret (), State (clock s) (trace s ++ [EvRemove path])
                 (files s ∖ {[path]}) (uuids s)).

(** [im.save(path, format=fmt)]: PIL looks up the writer of the format (a
    [KeyError] when there is none), opens the file for writing, which raises
    when the directory is missing or the path may not be written, and then
    encodes the image into it.  The file exists once the image is encoded;
    when the encoder raises, PIL removes the file it had created. *)
Definition save_file (im : image) (path : string) (fmt : string) : M unit :=
  lift (save_handler W fmt);;
  lift (save_open W path);;
  lift (image_encode W im fmt None);;
  create_path path.

(** [open(path, "rb")] *)
Definition open_rb (path : string) : M param :=
  ok ← path_exists path;
  if ok : bool then mret (PFile path)
  else raise (FileNotFoundError
                ("[Errno 2] No such file or directory: '" +:+ path +:+ "'")).

(** [f.close()] *)
Definition close (f : param) : M unit := mret ().

(** [os.remove(path)] *)
Definition os_remove (path : string) : M unit :=
  ok ← path_exists path;
  if ok : bool then delete_path path
  else raise (FileNotFoundError
                ("[Errno 2] No such file or directory: '" +:+ path +:+ "'")).

(** [str(uuid.uuid4())] *)
Definition fresh_uuid : M string := λ s,
  (Ret (uuid4 W (uuids s)), State (clock s) (trace s) (files s) (S (uuids s))).

Definition resolve_output_path (output_path : string) (output_dir : option string)
    : string :=
  match output_dir with
  | Some dir =>
      if truthy_opt output_dir && negb (isabs W output_path)
      then join W dir output_path
      else output_path
  | None => output_path
  end.

Definition resolve_input_path (input_path : option string)
    (base_dir : option string) : M (option string) :=
  match input_path with
  | None => mret None
  | Some path =>
      if startswith path "http://" || startswith path "https://" then
        mret (Some path)
      else if isabs W path then
        mret (Some path)
      else
        match base_dir with
        | Some dir =>
            if truthy_opt base_dir then
              let candidate := join W dir path in
              found ← path_exists candidate;
              if found : bool then mret (Some candidate) else mret (Some path)
            else mret (Some path)
        | None => mret (Some path)
        end
  end.

Definition process_image (image_path : option string) : M image :=
  match image_path with
  | None =>
      raise (AttributeError "'NoneType' object has no attribute 'startswith'")
  | Some path =>
      if startswith path "http://" || startswith path "https://" then
        try_except
          (response ← get (JStr path) [];
           raise_for_status response;;
           image_from_bytes (content response))
          (λ e,
             match e with
             | Err cls msg =>
                 if String.eqb cls "ImportError"
                    || String.eqb cls "ModuleNotFoundError" then
                   raise (Err "ImportError"
                     "The 'requests' library is required for downloading images. Install it with 'pip install requests'")
                 else
                   raise (ValueError ("Failed to download image from URL: " +:+ msg))
             end)
      else
        found ← path_exists path;
        if found : bool then lift (image_open_file W path)
        else raise (FileNotFoundError ("Image file not found: " +:+ path))
  end.

(** *** The OpenAI provider: uploads through temporary files *)

Definition images_edit (params : gmap string param) : M (list image_data) :=
  emit (EvOpenAI "images.edit" params);;
  lift (openai_images_edit W params).

Definition images_create_variation (params : gmap string param)
    : M (list image_data) :=
  emit (EvOpenAI "images.create_variation" params);;
  lift (openai_images_create_variation W params).

(** The client constructor, called with [api_key or os.getenv("OPENAI_API_KEY")]
    and with [base_url] only when [api_base] is given. *)
Definition make_client (api_key api_base : option string) : M () :=
  lift (openai_client W (or_opt api_key (env_openai_api_key W))
                      (if truthy_opt api_base then api_base else None)).

(** [response.data[0]] *)
Definition first_data (data : list image_data) : M image_data :=
  match data with
  | d :: _ => mret d
  | [] => raise (IndexError "list index out of range")
  end.

(** The decoding of one response element (lines 165-171, 212-218 and
    223-229 are the same three branches). *)
Definition decode_image_data (d : image_data) : M image :=
  if truthy_opt (b64_json d) then
    image_bytes ← lift (b64decode W (default EmptyString (b64_json d)));
    image_from_bytes image_bytes
  else if truthy_opt (data_url d) then
    raise (NotImplementedError "URL response handling is not implemented")
  else
    raise (ValueError "No image data found in the response").

(** [d[key].close()] *)
Definition close_entry (d : gmap string param) (key : string) : M unit :=
  match d !! key with
  | Some f => close f
  | None => raise (Err "KeyError" ("'" +:+ key +:+ "'"))
  end.

Definition edit_image (input_image : image) (prompt : string)
    (mask_image : option image) (api_key api_base : option string)
    (quality size : string) : M image :=
  make_client api_key api_base;;
  unique_id ← fresh_uuid;
  let temp_dir := gettempdir W in
  let temp_input_path := join W temp_dir ("input_" +:+ unique_id +:+ ".png") in
  save_file input_image temp_input_path "PNG";;
  image_file ← open_rb temp_input_path;
  let edit_params : gmap string param :=
    <["model" := PStr "gpt-image-1"]>
    (<["prompt" := PStr prompt]>
    (<["image" := image_file]> ∅)) in
  let edit_params :=
    if negb (String.eqb quality "auto")
    then <["quality" := PStr quality]> edit_params else edit_params in
  let edit_params :=
    if negb (String.eqb size "auto")
    then <["size" := PStr size]> edit_params else edit_params in
  '(temp_mask_path, edit_params) ←
    match mask_image with
    | Some mask =>
        let temp_mask_path := join W temp_dir ("mask_" +:+ unique_id +:+ ".png") in
        save_file mask temp_mask_path "PNG";;
        mask_file ← open_rb temp_mask_path;
        mret (M := M) (Some temp_mask_path, <["mask" := mask_file]> edit_params)
    | None => mret (M := M) (None, edit_params)
    end;
  try_finally
    (response ← images_edit edit_params;
     image_data ← first_data response;
     decode_image_data image_data)
    (close_entry edit_params "image";;
     os_remove temp_input_path;;
     match mask_image, temp_mask_path with
     | Some _, Some mask_path =>
         if bool_decide (is_Some (edit_params !! "mask"))
            && truthy_opt temp_mask_path
         then close_entry edit_params "mask";; os_remove mask_path
         else mret ()
     | _, _ => mret ()
     end).

(** What [create_variations] returns: one image when [n == 1], a list
    otherwise. *)
Inductive variations :=
| Single (im : image)
| Several (ims : list image).

(** The [for image_data in response.data] loop of lines 221-230. *)
Fixpoint decode_all (data : list image_data) : M (list image) :=
  match data with
  | [] => mret []
  | d :: rest =>
      im ← decode_image_data d;
      ims ← decode_all rest;
      mret (im :: ims)
  end.

Definition create_variations (input_image : image)
    (api_key api_base : option string) (n : Z) (size : string)
    : M variations :=
  make_client api_key api_base;;
  unique_id ← fresh_uuid;
  let temp_dir := gettempdir W in
  let temp_input_path := join W temp_dir ("input_" +:+ unique_id +:+ ".png") in
  save_file input_image temp_input_path "PNG";;
  image_file ← open_rb temp_input_path;
  let variation_params : gmap string param :=
    <["n" := PInt n]> (<["image" := image_file]> ∅) in
  let variation_params :=
    if negb (String.eqb size "auto")
    then <["size" := PStr size]> variation_params else variation_params in
  try_finally
    (response ← images_create_variation variation_params;
     if (n =? 1)%Z then
       image_data ← first_data response;
       im ← decode_image_data image_data;
       mret (Single im)
     else
       images ← decode_all response;
       mret (Several images))
    (close_entry variation_params "image";;
     os_remove temp_input_path).

(** *** The [variations] subcommand *)

(** The name of the [i]-th file (counting from 0) of a multiple output. *)
Definition variation_path (base_name extension : string) (i : nat) : string :=
  base_name +:+ "_" +:+ pretty (i + 1) +:+ "." +:+ extension.

(** [for i, img in enumerate(result_images)] of lines 667-670, entered at
    index [i]. *)
Fixpoint save_variations (base_name extension fmt : string) (i : nat)
    (result_images : list image) : M unit :=
  match result_images with
  | [] => mret ()
  | img :: rest =>
      let output_path := variation_path base_name extension i in
      save_file img output_path fmt;;
      print ("Image saved to " +:+ output_path);;
      save_variations base_name extension fmt (S i) rest
  end.

(** [l[i]] *)
Definition index (l : list string) (i : nat) : M string :=
  match l !! i with
  | Some x => mret x
  | None => raise (IndexError "list index out of range")
  end.

Definition variations_command (args : variations_args) : M unit :=
  try_except
    (resolved_input ← resolve_input_path (Some (arg_input args)) (arg_output_dir args);
     input_image ← process_image resolved_input;
     if String.eqb (arg_provider args) "bfl" then
       print "Error: Variations not supported with BFL provider";;
       exit 1
     else
       result_images ← create_variations input_image (arg_api_key args)
                         (arg_api_base args) (arg_n args) (arg_size args);
       if (arg_n args =? 1)%Z then
         let output_path := resolve_output_path (arg_output args) (arg_output_dir args) in
         match result_images with
         | Single im =>
             save_file im output_path (upper (arg_output_format args));;
             print ("Image saved to " +:+ output_path)
         | Several _ =>
             raise (AttributeError "'list' object has no attribute 'save'")
         end
       else
         let base_output := resolve_output_path (arg_output args) (arg_output_dir args) in
         base_name ← index (rsplit1 "." base_output) 0;
         extension ← (if contains_char "." base_output
                      then index (rsplit1 "." base_output) 1
                      else mret "png");
         match result_images with
         | Several ims =>
             save_variations base_name extension (upper (arg_output_format args)) 0 ims
         | Single _ =>
             raise (Err "TypeError" "'Image' object is not iterable")
         end)
    (λ e, print ("Error: " +:+ error_message e);; exit 1).

End Program.

(** * The rest of the program

    The commands around the provider calls, the OpenAI generation call, the
    loading of API keys, the sound-effect command and the analysis
    command. *)

(** The parsed command line of the [edit] subcommand. *)
Record edit_args := EditArgs {
  edit_input : string;
  edit_prompt : string;
  edit_output : string;
  edit_mask : option string;
  edit_quality : string;
  edit_size : string;
  edit_output_format : string;
  edit_seed : option Z;
  edit_safety_tolerance : Z;
  edit_provider : string;
  edit_api_key : option string;
  edit_api_base : option string;
  edit_bfl_api_key : option string;
  edit_output_dir : option string
}.

(** The parsed command line of the [generate] subcommand. *)
Record generate_args := GenerateArgs {
  gen_prompt : string;
  gen_output : string;
  gen_background : string;
  gen_quality : string;
  gen_size : string;
  gen_output_format : string;
  gen_output_compression : Z;
  gen_moderation : string;
  gen_bfl_model : option string;
  gen_seed : option Z;
  gen_safety_tolerance : Z;
  gen_provider : string;
  gen_api_key : option string;
  gen_api_base : option string;
  gen_bfl_api_key : option string;
  gen_output_dir : option string
}.

(** The OpenAI generation endpoint. *)
Record Services := {
  openai_images_generate : gmap string param → error + list image_data
}.

Section Commands.

Context {Raster : Type} (W : World Raster) (H : Host) (V : Services).

#[local] Abbreviation image := (image Raster).

(** *** API keys at load time *)

(** One of the three blocks of lines 48-58: the key of the file goes into
    the environment when the variable is not set. *)
Definition export_file_key (filename name : string)
    (environ : gmap string string) : M (gmap string string) :=
  file_api_key ← load_api_key_from_file W H filename;
  match file_api_key with
  | Some key =>
      if truthy_opt file_api_key && negb (truthy_opt (getenv environ name))
      then mret (<[name := key]> environ)
      else mret environ
  | None => mret environ
  end.

(** Lines 48-58, run when the module is loaded. *)
Definition bootstrap (environ : gmap string string) : M (gmap string string) :=
  environ ← export_file_key "openai_api_key.txt" "OPENAI_API_KEY" environ;
  environ ← export_file_key "elevenlabs_api_key.txt" "ELEVENLABS_API_KEY" environ;
  export_file_key "bfl_api_key.txt" "BFL_API_KEY" environ.

(** *** Generation with OpenAI *)

Definition images_generate (params : gmap string param) : M (list image_data) :=
  emit (EvOpenAI "images.generate" params);;
  lift (openai_images_generate V params).

(** [params[key] = value] unless the option was left as ["auto"]. *)
Definition unless_auto (key value : string) (params : gmap string param)
    : gmap string param :=
  if negb (String.eqb value "auto") then <[key := PStr value]> params else params.

Definition generate_params (prompt background quality size output_format : string)
    (output_compression : Z) (moderation : string) : gmap string param :=
  let params : gmap string param :=
    <["n" := PInt 1]>
    (<["model" := PStr "gpt-image-1"]>
    (<["prompt" := PStr prompt]> ∅)) in
  let params := unless_auto "background" background params in
  let params := unless_auto "quality" quality params in
  let params := unless_auto "size" size params in
  let params := unless_auto "output_format" output_format params in
  let params := <["output_compression" := PInt output_compression]> params in
  unless_auto "moderation" moderation params.

Definition generate_image (prompt : string) (api_key api_base : option string)
    (background quality size output_format : string) (output_compression : Z)
    (moderation : string) : M image :=
  make_client W api_key api_base;;
  response ← images_generate
    (generate_params prompt background quality size output_format
       output_compression moderation);
  image_data ← first_data response;
  decode_image_data W image_data.

(** *** The [generate] and [edit] subcommands *)

Definition aspect_ratio_map : gmap string string :=
  list_to_map [
    ("1024x1024", "1:1");
    ("1536x1024", "3:2");
    ("1024x1536", "2:3");
    ("1792x1024", "16:9");
    ("1024x1792", "9:16")
  ].

Definition quality_to_model : gmap string string :=
  list_to_map [
    ("high", "flux-kontext-max");
    ("medium", "flux-kontext-pro");
    ("low", "flux-dev");
    ("auto", "flux-kontext-pro")
  ].

(** The handler of every subcommand: print the error and leave with 1. *)
Definition report (e : error) : M unit :=
  print ("Error: " +:+ error_message e);;
  exit 1.

(** The end of [generate_command] and [edit_command]: save and report. *)
Definition save_result (result_image : image) (output output_format : string)
    (output_dir : option string) : M unit :=
  let output_path := resolve_output_path W output output_dir in
  save_file W result_image output_path (upper output_format);;
  print ("Image saved to " +:+ output_path).

Definition generate_command (fuel : nat) (args : generate_args) : M unit :=
  try_except
    (result_image ←
       (if String.eqb (gen_provider args) "bfl" then
          let aspect_ratio := default "1:1" (aspect_ratio_map !! gen_size args) in
          let model :=
            if truthy_opt (gen_bfl_model args)
            then default EmptyString (gen_bfl_model args)
            else default "flux-kontext-pro" (quality_to_model !! gen_quality args) in
          bfl_generate_image W fuel (gen_prompt args) (gen_bfl_api_key args)
            model aspect_ratio (gen_seed args) (gen_safety_tolerance args)
            (gen_output_format args)
        else
          generate_image (gen_prompt args) (gen_api_key args) (gen_api_base args)
            (gen_background args) (gen_quality args) (gen_size args)
            (gen_output_format args) (gen_output_compression args)
            (gen_moderation args));
     save_result result_image (gen_output args) (gen_output_format args)
       (gen_output_dir args))
    report.

Definition edit_command (fuel : nat) (args : edit_args) : M unit :=
  try_except
    (resolved_input ← resolve_input_path W (Some (edit_input args))
                        (edit_output_dir args);
     input_image ← process_image W resolved_input;
     result_image ←
       (if String.eqb (edit_provider args) "bfl" then
          let model := default "flux-kontext-pro"
                         (quality_to_model !! edit_quality args) in
          bfl_edit_image W fuel input_image (edit_prompt args)
            (edit_bfl_api_key args) model (edit_seed args)
            (edit_safety_tolerance args) (edit_output_format args)
        else
          resolved_mask ←
            (if truthy_opt (edit_mask args)
             then resolve_input_path W (edit_mask args) (edit_output_dir args)
             else mret None);
          mask_image ←
            (if truthy_opt resolved_mask
             then im ← process_image W resolved_mask; mret (Some im)
             else mret None);
          edit_image W input_image (edit_prompt args) mask_image
            (edit_api_key args) (edit_api_base args) (edit_quality args)
            (edit_size args));
     save_result result_image (edit_output args) (edit_output_format args)
       (edit_output_dir args))
    report.

End Commands.

(** ** Sound effects and analysis

    [generate_sound_effect] and the [makenoise] subcommand, [analyze_image],
    [analyze_text] and the [analyze] subcommand.  [makenoise] writes the
    audio to a file chunk by chunk, so the contents of files matter here:
    the state of the image commands is extended by the contents of the files
    written and by the requests made to ElevenLabs and to the chat endpoint
    of OpenAI. *)

(** The keyword arguments of [text_to_sound_effects.convert]: [text] is
    always there, the other two only when they are not [None]. *)
Record sound_params := SoundParams {
  sound_text : string;
  sound_duration_seconds : option float;
  sound_prompt_influence : option float
}.

(** What [convert] returns: an iterator of chunks of bytes.  Iterating over
    it yields [chunks] in order and then either stops or raises [broken]
    (a connection lost, or an error of the API that the client only finds
    when the body is read). *)
Record audio := Audio {
  chunks : list (list Byte.byte);
  broken : option error
}.

(** A request of the two clients that the image commands do not use. *)
Inductive request :=
| Convert (params : sound_params)
    (* [text_to_sound_effects.convert] with [params] as keyword arguments *)
| ChatCompletion (model : string) (messages : json).
    (* [chat.completions.create(model=model, messages=messages)] *)

(** The ElevenLabs client and [open(path, 'wb')]. *)
Record Sounds := {
  elevenlabs_client : string → error + ();
  text_to_sound_effects_convert : sound_params → error + audio;
  open_wb : string → error + ()
}.

(** The parsed command line of the [makenoise] subcommand. *)
Record makenoise_args := MakenoiseArgs {
  noise_prompt : string;
  noise_output : string;
  noise_duration : option float;
  noise_prompt_influence : option float;
  noise_elevenlabs_api_key : option string;
  noise_output_dir : option string
}.

(** The chat endpoint of OpenAI: what [response.choices[i].message.content]
    is for each [i]. *)
Record Chat := {
  chat_completions_create : string → json → error + list (option string)
}.

(** The parsed command line of the [analyze] subcommand. *)
Record analyze_args := AnalyzeArgs {
  analyze_input : string;
  analyze_prompt : string;
  analyze_detail : string;
  analyze_api_key : option string;
  analyze_api_base : option string;
  analyze_output_dir : option string
}.

Record studio := Studio {
  machine : state;
  contents : gmap string (list Byte.byte);   (* of the files written here *)
  requests : list request                    (* the requests made so far *)
}.

Definition N (A : Type) : Type := studio → outcome A * studio.

#[global] Instance N_ret : MRet N := λ A a σ, (Ret a, σ).

#[global] Instance N_bind : MBind N := λ A B k c σ,
  match c σ with
  | (Ret a, σ') => k a σ'
  | (Raise e, σ') => (Raise e, σ')
  | (Exit n, σ') => (Exit n, σ')
  | (Fuel, σ') => (Fuel, σ')
  end.

(** A step of the image commands, run on the machine of the studio. *)
Definition on_machine {A} (c : M A) : N A := λ σ,
  let '(r, s) := c (machine σ) in (r, Studio s (contents σ) (requests σ)).

Definition raise_in_studio {A} (e : error) : N A := λ σ, (Raise e, σ).

Definition lift_in_studio {A} (r : error + A) : N A :=
  match r with
  | inl e => raise_in_studio e
  | inr a => mret a
  end.

(** [try: body except Exception as e: handler(e)] *)
Definition try_except_in_studio {A} (body : N A) (handler : error → N A) : N A :=
  λ σ, match body σ with
       | (Raise e, σ') => handler e σ'
       | r => r
       end.

Section SoundEffects.

Context {Raster : Type} (W : World Raster) (H : Host) (S : Sounds).

(** [os.environ] once the module is loaded. *)
Context (environ : gmap string string).

Definition no_elevenlabs_key_message : string :=
  "No ElevenLabs API key found. Set ELEVENLABS_API_KEY environment variable or use --elevenlabs-api-key".

(** [client.text_to_sound_effects.convert] called with [params] as keyword
    arguments. *)
Definition convert_sound (params : sound_params) : N audio := λ σ,
  let σ' := Studio (machine σ) (contents σ) (requests σ ++ [Convert params]) in
  match text_to_sound_effects_convert S params with
  | inl e => (Raise e, σ')
  | inr response => (Ret response, σ')
  end.

Definition generate_sound_effect (prompt : string) (api_key : option string)
    (duration prompt_influence : option float) : N audio :=
  elevenlabs_api_key ←
    (if truthy_opt api_key then mret (M := N) api_key
     else on_machine (load_elevenlabs_api_key W H environ));
  if negb (truthy_opt elevenlabs_api_key) then
    raise_in_studio (ValueError no_elevenlabs_key_message)
  else
    lift_in_studio (elevenlabs_client S (default EmptyString elevenlabs_api_key));;
    convert_sound (SoundParams prompt duration prompt_influence).

Definition truncate (path : string) : N unit := λ σ,
  (Ret (), Studio (machine σ) (<[path := []]> (contents σ)) (requests σ)).

(** [open(path, 'wb')]: the file exists and is empty. *)
Definition open_for_writing (path : string) : N unit :=
  lift_in_studio (open_wb S path);;
  on_machine (create_path path);;
  truncate path.

(** [f.write(chunk)] *)
Definition write (path : string) (chunk : list Byte.byte) : N unit := λ σ,
  (Ret (),
   Studio (machine σ)
          (<[path := default [] (contents σ !! path) ++ chunk]> (contents σ))
          (requests σ)).

(** [for chunk in audio_data: f.write(chunk)] *)
Fixpoint write_all (path : string) (cs : list (list Byte.byte)) : N unit :=
  match cs with
  | [] => mret ()
  | chunk :: cs => write path chunk;; write_all path cs
  end.

Definition write_audio (path : string) (audio_data : audio) : N unit :=
  write_all path (chunks audio_data);;
  match broken audio_data with
  | Some e => raise_in_studio e
  | None => mret ()
  end.

Definition makenoise_command (args : makenoise_args) : N unit :=
  try_except_in_studio
    (audio_data ← generate_sound_effect (noise_prompt args)
                    (noise_elevenlabs_api_key args) (noise_duration args)
                    (noise_prompt_influence args);
     let output_path :=
       resolve_output_path W (noise_output args) (noise_output_dir args) in
     open_for_writing output_path;;
     write_audio output_path audio_data;;
     on_machine (print ("Sound effect saved to " +:+ output_path)))
    (λ e, on_machine (report e)).

End SoundEffects.

Section Analysis.

Context {Raster : Type} (W : World Raster) (C : Chat).

#[local] Abbreviation image := (image Raster).

(** [client.chat.completions.create(model=model, messages=messages)] *)
Definition chat (model : string) (messages : json) : N (list (option string)) :=
  λ σ,
  let σ' := Studio (machine σ) (contents σ)
              (requests σ ++ [ChatCompletion model messages]) in
  match chat_completions_create C model messages with
  | inl e => (Raise e, σ')
  | inr choices => (Ret choices, σ')
  end.

(** [response.choices[0].message.content] *)
Definition first_content (choices : list (option string)) : N (option string) :=
  match choices with
  | content :: _ => mret content
  | [] => raise_in_studio (IndexError "list index out of range")
  end.

(** The messages of [analyze_image]. *)
Definition vision_messages (prompt img_str detail : string) : json :=
  JArr [
    JObj (<["role" := JStr "user"]>
         (<["content" := JArr [
              JObj (<["type" := JStr "text"]>
                   (<["text" := JStr prompt]> ∅));
              JObj (<["type" := JStr "image_url"]>
                   (<["image_url" :=
                        JObj (<["url" := JStr ("data:image/png;base64," +:+ img_str)]>
                             (<["detail" := JStr detail]> ∅))]> ∅))
            ]]> ∅))
  ].

(** The messages of [analyze_text]. *)
Definition text_messages (prompt : string) : json :=
  JArr [JObj (<["role" := JStr "user"]> (<["content" := JStr prompt]> ∅))].

Definition analyze_image (input_image : image) (prompt : string)
    (api_key api_base : option string) (detail : string)
    : N (image * option string) :=
  on_machine (make_client W api_key api_base);;
  buffered ← on_machine (save_to_buffer W input_image "PNG" None);
  let img_str := b64encode W buffered in
  response ← chat "gpt-4o" (vision_messages prompt img_str detail);
  content ← first_content response;
  mret (input_image, content).

Definition analyze_text (prompt : string) (api_key api_base : option string)
    : N (option image * option string) :=
  on_machine (make_client W api_key api_base);;
  response ← chat "gpt-4-vision-preview" (text_messages prompt);
  content ← first_content response;
  mret (None, content).

(** [print(content)]: a content that is [None] prints as ["None"]. *)
Definition print_content (content : option string) : N unit :=
  on_machine (print (default "None" content)).

(** [value or fallback] on a string. *)
Definition or_str (value fallback : string) : string :=
  if negb (String.eqb value EmptyString) then value else fallback.

Definition analyze_command (args : analyze_args) : N unit :=
  try_except_in_studio
    (if negb (String.eqb (analyze_input args) EmptyString) then
       resolved_input ← on_machine
         (resolve_input_path W (Some (analyze_input args))
            (analyze_output_dir args));
       input_image ← on_machine (process_image W resolved_input);
       '(_, description) ← analyze_image input_image
          (or_str (analyze_prompt args) "Describe this image in detail.")
          (analyze_api_key args) (analyze_api_base args) (analyze_detail args);
       print_content description
     else
       '(_, response) ← analyze_text
          (or_str (analyze_prompt args) "Please provide a prompt.")
          (analyze_api_key args) (analyze_api_base args);
       print_content response)
    (λ e, on_machine (report e)).

End Analysis.

(** * Vocabulary of the properties

    The definitions below are only used to state theorems: they describe
    the answers of the outside world and what shows in a trace, not the
    program. *)

(** ** The poller *)

Section Poller.

Context {Raster : Type} (W : World Raster).
Variables (result_url bfl_api_key : string).

(** The answer to the [k]-th status poll (counting from 0) of a loop that
    starts in state [s]: the poll happens after [k + 1] sleeps. *)
Definition status_response (s : state) (k : nat) : error + response :=
  requests_get W (clock s + S k) (JStr result_url) (poll_headers bfl_api_key).

(** [raise_for_status] lets the response through. *)
Definition http_ok (r : response) : Prop :=
  ¬ (400 ≤ status_code r < 600).

(** The response was received and is a JSON object [m]. *)
Definition received (r : error + response) (m : gmap string json) : Prop :=
  ∃ resp, r = inr resp ∧ http_ok resp ∧ body resp = inr (JObj m).

(** [result_data.get("status")] *)
Definition status_of (m : gmap string json) : json :=
  default JNull (m !! "status").

(** The status is one of the three on which the loop goes on. *)
Definition pending (r : error + response) : Prop :=
  ∃ m, received r m ∧ in_strs (status_of m) ["Processing"; "Queued"; "Pending"] = true.

(** The response says Ready and carries the result URL [u]: a value under
    ["result"]["sample"] that Python takes for true. *)
Definition ready_with_url (r : error + response) (u : json) : Prop :=
  ∃ m rm, received r m ∧ status_of m = JStr "Ready"
          ∧ m !! "result" = Some (JObj rm)
          ∧ rm !! "sample" = Some u ∧ truthy u = true.

(** The response was received and carries the status string [st]. *)
Definition has_status (r : error + response) (st : string) : Prop :=
  ∃ m, received r m ∧ status_of m = JStr st.

(** The first [n] polls all get a pending status. *)
Definition pending_until (s : state) (n : nat) : Prop :=
  ∀ j, j < n → pending (status_response s j).

(** [n] rounds of sleeping and polling, as they show in the state. *)
Fixpoint rounds (n : nat) (s : state) : state :=
  match n with
  | 0 => s
  | S n' =>
      rounds n' (State (S (clock s))
                       (trace s ++ [EvSleep 1500;
                                    EvGet (JStr result_url) (poll_headers bfl_api_key)])
                       (files s) (uuids s))
  end.

(** The state after the last round of a successful run: one more GET, for
    the result URL [u]. *)
Definition fetched (u : json) (s : state) : state :=
  State (clock s) (trace s ++ [EvGet u []]) (files s) (uuids s).

(** Poll [k] brings the first status that is not pending, and it is Ready
    with the result URL [u]. *)
Definition first_terminal_ready (s : state) (k : nat) (u : json) : Prop :=
  pending_until s k ∧ ready_with_url (status_response s k) u.

(** Fetching [u] right after poll [k] succeeds, and the bytes decode to
    [img]. *)
Definition download_gives (s : state) (k : nat) (u : json) (img : image Raster)
    : Prop :=
  ∃ r, requests_get W (clock s + S k) u [] = inr r ∧ http_ok r
       ∧ image_open_bytes W (content r) = inr img.

(** The loop returns an image, after however many rounds. *)
Definition returns_image (s : state) : Prop :=
  ∃ fuel img s', poll_loop W fuel result_url bfl_api_key s = (Ret img, s').

(** The number of GET requests to the status endpoint in a trace. *)
Definition is_status_poll (e : event) : bool :=
  match e with
  | EvGet (JStr u) h =>
      String.eqb u result_url && bool_decide (h = poll_headers bfl_api_key)
  | _ => false
  end.

Definition status_polls (tr : list event) : nat :=
  length (List.filter is_status_poll tr).

(** A sleep or a GET request. *)
Definition is_poll_or_sleep (e : event) : bool :=
  match e with
  | EvSleep _ | EvGet _ _ => true
  | _ => false
  end.

End Poller.

(** ** Key files *)

Section KeyFiles.

Context {Raster : Type} (W : World Raster) (H : Host).

(** Where [load_api_key_from_file] looks for [filename]. *)
Definition key_file_path (filename : string) : string :=
  join W (script_dir H) filename.

(** The key that the file [filename] holds for the program, if any: the
    stripped text of an existing, readable file, when it is not empty. *)
Definition key_in_file (filename : string) (s : state) : option string :=
  if bool_decide (key_file_path filename ∈ files s) then
    match read_text H (key_file_path filename) with
    | inr text =>
        if negb (String.eqb (strip H text) EmptyString)
        then Some (strip H text) else None
    | inl _ => None
    end
  else None.

End KeyFiles.

(** ** The submission *)

Section Submission.

Context {Raster : Type} (W : World Raster).

(** [api_key or load_bfl_api_key()], called in state [s], is the non-empty
    string [key]: the argument itself; or, when that is [None] or empty, the
    variable [BFL_API_KEY]; or, when that is unset or empty too, the key
    that [bfl_api_key.txt] holds. *)
Definition resolved_key (api_key : option string) (key : string) (s : state)
    : Prop :=
  key ≠ EmptyString
  ∧ (api_key = Some key
     ∨ truthy_opt api_key = false
       ∧ (os_environ W !! "BFL_API_KEY" = Some key
          ∨ truthy_opt (os_environ W !! "BFL_API_KEY") = false
            ∧ key_in_file W (local_host W) "bfl_api_key.txt" s = Some key)).

(** No key comes from the argument, the environment or the key file. *)
Definition no_bfl_key (api_key : option string) (s : state) : Prop :=
  truthy_opt api_key = false
  ∧ truthy_opt (os_environ W !! "BFL_API_KEY") = false
  ∧ key_in_file W (local_host W) "bfl_api_key.txt" s = None.

(** The state after the POST was answered by [resp]. *)
Definition posted (url key : string) (data : json) (resp : response)
    (s : state) : state :=
  State (clock s)
        (trace s ++ EvPost url (json_headers key) data
           :: (if bool_decide (status_code resp ≠ 200)
               then [EvPrint ("Error response: " +:+ text resp)] else []))
        (files s) (uuids s).

(** The state in which the poll loop is entered. *)
Definition waiting (s : state) : state :=
  State (clock s)
        (trace s ++ [EvPrint "Request submitted. Waiting for generation to complete..."])
        (files s) (uuids s).

(** The URL that [bfl_generate_image] posts to. *)
Definition generate_url (model : string) : string :=
  "https://api.us1.bfl.ai/v1/" +:+ default model (model_endpoints !! model).

(** The URL that [bfl_edit_image] posts to. *)
Definition edit_url (model : string) : string :=
  "https://api.us1.bfl.ai/v1/" +:+ model.

End Submission.

(** ** Commands *)

(** A path that [process_image] downloads instead of opening. *)
Definition is_url (path : string) : bool :=
  startswith path "http://" || startswith path "https://".

(** The state after a GET of [path] without headers. *)
Definition downloaded (path : string) (s : state) : state :=
  State (clock s) (trace s ++ [EvGet (JStr path) []]) (files s) (uuids s).

(** The state after one more line on standard output. *)
Definition printed (line : string) (s : state) : state :=
  State (clock s) (trace s ++ [EvPrint line]) (files s) (uuids s).

(** A request that leaves the machine. *)
Definition is_network_call (e : event) : bool :=
  match e with
  | EvPost _ _ _ | EvGet _ _ | EvOpenAI _ _ => true
  | _ => false
  end.

Definition unsupported_message : string :=
  "Error: Variations not supported with BFL provider".

(** The [variations] command ends with exit code 1 after printing the
    unsupported-operation message, without any network call. *)
Definition refuses_offline {Raster} (W : World Raster) (args : variations_args)
    (s : state) : Prop :=
  ∃ s' evs, variations_command W args s = (Exit 1, s')
            ∧ trace s' = trace s ++ evs
            ∧ EvPrint unsupported_message ∈ evs
            ∧ Forall (λ e, is_network_call e = false) evs.

(** ** Relations between the state before and after a computation *)

(** [preserves R c]: the state in which [c] ends is related by [R] to the
    one in which it starts, however [c] ends. *)
Definition preserves (R : relation state) {A} (c : M A) : Prop :=
  ∀ s, R s (c s).2.

(** The trace of [s'] is that of [s] followed by events that satisfy [P]. *)
Definition appends (P : event → Prop) : relation state :=
  λ s s', ∃ evs, trace s' = trace s ++ evs ∧ Forall P evs.

(** Running [c] only appends events, and each of them satisfies [P]. *)
Definition emits (P : event → Prop) {A} (c : M A) : Prop :=
  preserves (appends P) c.

Definition grows {A} (c : M A) : Prop := emits (λ _, True) c.

(** The same files exist in [s'] as in [s]. *)
Definition same_files : relation state := λ s s', files s' = files s.

(** [c] comes to an end: it returns, raises or exits. *)
Definition ends {A} (c : M A) : Prop := ∀ s, (c s).1 ≠ Fuel.

(** ** Temporary files *)

(** The file that [edit_image] and [create_variations] write the input
    image to, when called in state [s]. *)
Definition temp_input_path {Raster} (W : World Raster) (s : state) : string :=
  join W (gettempdir W) ("input_" +:+ uuid4 W (uuids s) +:+ ".png").

(** The state after [path] was written, and after it was removed. *)
Definition wrote (path : string) (s : state) : state :=
  State (clock s) (trace s ++ [EvWrite path]) ({[path]} ∪ files s) (uuids s).

Definition removed (path : string) (s : state) : state :=
  State (clock s) (trace s ++ [EvRemove path]) (files s ∖ {[path]}) (uuids s).

(** The state after one more call of [uuid.uuid4]. *)
Definition drew_uuid (s : state) : state :=
  State (clock s) (trace s) (files s) (S (uuids s)).

(** The exception that [im.save(path, format=fmt)] raises, if any: the one
    of the lookup of the format, or else the one of opening the file, or
    else the one of the encoder. *)
Definition save_error {Raster} (W : World Raster) (im : image Raster)
    (path fmt : string) : option error :=
  match save_handler W fmt with
  | inl e => Some e
  | inr _ =>
      match save_open W path with
      | inl e => Some e
      | inr _ =>
          match image_encode W im fmt None with
          | inl e => Some e
          | inr _ => None
          end
      end
  end.

(** The client can be constructed. *)
Definition client_ok {Raster} (W : World Raster) (api_key api_base : option string)
    : Prop :=
  openai_client W (or_opt api_key (env_openai_api_key W))
                  (if truthy_opt api_base then api_base else None) = inr ().

(** ** Numbered output files *)

(** The paths written, in order. *)
Fixpoint writes (tr : list event) : list string :=
  match tr with
  | [] => []
  | EvWrite path :: tr' => path :: writes tr'
  | _ :: tr' => writes tr'
  end.

(** The state after the images [ims] were saved under their numbered names,
    starting with number [i + 1]. *)
Fixpoint saved_variations {A} (base_name extension : string) (i : nat)
    (ims : list A) (s : state) : state :=
  match ims with
  | [] => s
  | _ :: rest =>
      let path := variation_path base_name extension i in
      saved_variations base_name extension (S i) rest
        (printed ("Image saved to " +:+ path) (wrote path s))
  end.

(** The extension of a path: what follows the last dot, with the dot, when
    that dot is in the file name. *)
Definition file_extension (path : string) : string :=
  match rsplit1 "." path with
  | [_; ext] => if contains_char "/" ext then EmptyString else "." +:+ ext
  | _ => EmptyString
  end.

Definition without_extension (path : string) : string :=
  match rsplit1 "." path with
  | [root; ext] => if contains_char "/" ext then path else root
  | _ => path
  end.

(** The path with [_<index>] before its extension. *)
Definition index_before_extension (path : string) (i : nat) : string :=
  without_extension path +:+ "_" +:+ pretty i +:+ file_extension path.

(** ** The upload of [bfl_edit_image] *)






(** ** Messages *)

(** [x] occurs in [msg]. *)
Definition contains (msg x : string) : Prop :=
  ∃ pre post, msg = pre +:+ x +:+ post.

(** The same, as a test. *)
Fixpoint occurs (x msg : string) : bool :=
  String.prefix x msg
  || match msg with
     | EmptyString => false
     | String _ msg' => occurs x msg'
     end.

(** ** More states *)

(** The state after a POST that did not come back with a response. *)
Definition sent (url key : string) (data : json) (s : state) : state :=
  State (clock s) (trace s ++ [EvPost url (json_headers key) data])
        (files s) (uuids s).

(** The response says Ready but carries no result URL: no JSON object under
    ["result"] with a value under ["sample"] that Python takes for true. *)
Definition ready_without_url (m : gmap string json) : Prop :=
  status_of m = JStr "Ready"
  ∧ ∃ rm, default (JObj ∅) (m !! "result") = JObj rm
          ∧ truthy (default JNull (rm !! "sample")) = false.

(** ** Decoding what the images API returns *)

(** The response element [d] carries base64 data that decodes to [im]. *)
Definition decodes {Raster} (W : World Raster) (d : image_data)
    (im : image Raster) : Prop :=
  truthy_opt (b64_json d) = true
  ∧ ∃ bytes, b64decode W (default EmptyString (b64_json d)) = inr bytes
             ∧ image_open_bytes W bytes = inr im.

(** The name of the temporary file for the mask, when [edit_image] is called
    in state [s]. *)
Definition temp_mask_path {Raster} (W : World Raster) (s : state) : string :=
  join W (gettempdir W) ("mask_" +:+ uuid4 W (uuids s) +:+ ".png").

(** ** How a command ends *)

(** [c] does not leave the program by itself. *)
Definition never_exits {A} (c : M A) : Prop := ∀ s n, (c s).1 ≠ Exit n.

(** A command is over: it has returned (exit code 0), or it has printed a
    line that starts with ["Error: "] and left with exit code 1.  [Fuel]
    stands for a command that is still polling. *)
Definition ends_like_a_command (r : outcome unit * state) : Prop :=
  match r.1 with
  | Ret _ | Fuel => True
  | Exit code =>
      code = 1 ∧ ∃ tr msg, trace r.2 = tr ++ [EvPrint ("Error: " +:+ msg)]
  | Raise _ => False
  end.

(** The [edit] arguments with another [--mask]. *)
Definition with_mask (args : edit_args) (mask : option string) : edit_args :=
  EditArgs (edit_input args) (edit_prompt args) (edit_output args) mask
           (edit_quality args) (edit_size args) (edit_output_format args)
           (edit_seed args) (edit_safety_tolerance args) (edit_provider args)
           (edit_api_key args) (edit_api_base args) (edit_bfl_api_key args)
           (edit_output_dir args).

(** An event of a run that stays away from OpenAI and from temporary files:
    no call to the images API, no file removed, and no file written but
    [output_path]. *)
Definition bfl_only (output_path : string) (e : event) : Prop :=
  match e with
  | EvOpenAI _ _ | EvRemove _ => False
  | EvWrite path => path = output_path
  | _ => True
  end.

(** When [c] leaves the program, it does so with exit code 1 right after
    printing a line that starts with ["Error: "]. *)
Definition exits_with_report {A} (c : M A) : Prop :=
  ∀ s, match (c s).1 with
       | Exit code =>
           code = 1 ∧ ∃ tr msg, trace (c s).2 = tr ++ [EvPrint ("Error: " +:+ msg)]
       | _ => True
       end.

(** An event that is no call to the OpenAI images API. *)
Definition not_openai (e : event) : Prop :=
  match e with EvOpenAI _ _ => False | _ => True end.

(** An event that is no traffic with the BFL provider: no POST, no GET, no
    sleep between polls. *)
Definition not_bfl (e : event) : Prop :=
  match e with EvPost _ _ _ | EvGet _ _ | EvSleep _ => False | _ => True end.

(** An event that is no POST. *)
Definition not_post (e : event) : Prop :=
  match e with EvPost _ _ _ => False | _ => True end.

(** ** Requests to OpenAI *)

(** What the request holds for an option of the command line: nothing when
    the option is ["auto"], its value otherwise. *)
Definition chosen (value : string) : option param :=
  if String.eqb value "auto" then None else Some (PStr value).

(** * Sample worlds

    Concrete worlds on which the program can be run.  Pixels are [()];
    paths follow POSIX. *)

Module Sample.

Definition posix_isabs (path : string) : bool := startswith path "/".

Fixpoint ends_with_slash (s : string) : bool :=
  match s with
  | EmptyString => false
  | String c EmptyString => Ascii.eqb c "/"
  | String _ s' => ends_with_slash s'
  end.

Definition posix_join (a b : string) : string :=
  if posix_isabs b then b
  else if String.eqb a EmptyString || ends_with_slash a then a +:+ b
  else a +:+ "/" +:+ b.

(** Aspect-preserving reduction of [size] to fit [bound], rounding down. *)
Definition fit (size bound : nat * nat) : nat * nat :=
  let '(w, h) := size in
  let '(x, y) := bound in
  if (w <=? x)%nat && (h <=? y)%nat then (w, h)
  else if (w * y <=? x * h)%nat then (Nat.max 1 (y * w / h), y)
  else (x, Nat.max 1 (x * h / w)).

Definition ok_response (d : json) : response :=
  Response "https://api.us1.bfl.ai/v1" 200 "OK" "{}" (inr d) [].

Definition file_response (code : nat) (why : string) (b : list Byte.byte) : response :=
  Response "https://delivery.bfl.ai/sample.jpeg" code why EmptyString
           (inl (Err "JSONDecodeError" "Expecting value: line 1 column 1 (char 0)")) b.

Definition status_json (status : string) : json :=
  JObj {[ "status" := JStr status ]}.

Definition ready_json (u : string) : json :=
  JObj (<["status" := JStr "Ready"]>
        {[ "result" := JObj {[ "sample" := JStr u ]} ]}).

Definition job_json (id : string) : json := JObj {[ "id" := JStr id ]}.

Definition status_url : string := "https://api.us1.bfl.ai/v1/get_result?id=job-1".

(** The status endpoint answers the [t]-th poll with the [t]-th entry of
    [statuses] and with [rest] from then on; any other URL is served by
    [download]. *)
Definition scripted_get (statuses : list json) (rest : json)
    (download : json → error + response)
    : nat → json → list (string * string) → error + response :=
  λ t u _,
    if eq_str u status_url
    then inr (ok_response (default rest (statuses !! (t - 1))))
    else download u.

Definition decode (b : list Byte.byte) : error + image () :=
  match b with
  | [] => inl (Err "UnidentifiedImageError" "cannot identify image file")
  | _ :: _ => inr (Image "RGB" (length b) 1 ())
  end.

(** PNG cannot hold CMYK data; everything else encodes. *)
Definition encode (im : image ()) (fmt : string) (quality : option nat)
    : error + list Byte.byte :=
  if String.eqb fmt "PNG" && String.eqb (mode im) "CMYK"
  then inl (Err "OSError" "cannot write mode CMYK as PNG")
  else inr [Byte.x89].

(** [str.strip] on ASCII text. *)
Definition is_space (c : ascii) : bool :=
  let n := nat_of_ascii c in
  (n =? 32)%nat || ((9 <=? n)%nat && (n <=? 13)%nat)
  || ((28 <=? n)%nat && (n <=? 31)%nat).

Fixpoint lstrip (s : string) : string :=
  match s with
  | String c s' => if is_space c then lstrip s' else s
  | EmptyString => EmptyString
  end.

Definition strip_ascii (s : string) : string :=
  String.rev (lstrip (String.rev (lstrip s))).

(** A machine on which no key file can be read. *)
Definition no_key_files : Host := {|
  script_dir := "/opt/imagine";
  read_text := λ path,
    inl (Err "PermissionError" ("[Errno 13] Permission denied: '" +:+ path +:+ "'"));
  strip := strip_ascii
|}.

Definition both_keys : gmap string string :=
  <["BFL_API_KEY" := "bfl-key"]> {[ "OPENAI_API_KEY" := "openai-key" ]}.

Definition world
    (post : error + response)
    (get : nat → json → list (string * string) → error + response)
    (open_file : string → error + image ())
    (edit variation : error + list image_data) : World () := {|
  os_environ := both_keys;
  local_host := no_key_files;
  requests_post := λ _ _ _, post;
  requests_get := get;
  repr_float := λ _, "0.0";
  repr_unicode := λ s, "'" +:+ s +:+ "'";
  key_order := λ _, [];
  image_open_bytes := decode;
  image_open_file := open_file;
  image_encode := encode;
  save_handler := λ _, inr ();
  save_open := λ _, inr ();
  new_raster := λ _ _ _, ();
  alpha_band := λ im, Image "L" (width im) (height im) ();
  paste_raster := λ _ _ _, ();
  convert_raster := λ _ _, inr ();
  thumbnail_size := fit;
  resample_raster := λ _ _, ();
  b64encode := string_of_list_byte;
  b64decode := λ s, inr (list_byte_of_string s);
  openai_client := λ key _,
    if truthy_opt key then inr ()
    else inl (Err "OpenAIError" "The api_key client option must be set");
  openai_images_edit := λ _, edit;
  openai_images_create_variation := λ _, variation;
  uuid4 := λ n, "uuid-" +:+ pretty n;
  gettempdir := "/tmp";
  isabs := posix_isabs;
  join := posix_join
|}.

Definition no_file : string → error + image () :=
  λ path, inl (Err "FileNotFoundError" path).

Definition no_download : json → error + response :=
  λ _, inl (Err "ConnectionError" "connection refused").

(** A world in which only the BFL provider answers. *)
Definition bfl_world (post : error + response)
    (get : nat → json → list (string * string) → error + response) : World () :=
  world post get no_file (inr []) (inr []).

Definition sample_url : string := "https://delivery.bfl.ai/sample.jpeg".

(** The job is Ready at the first poll, but the result URL answers 404. *)
Definition ready_but_gone : World () :=
  bfl_world (inr (ok_response (job_json "job-1")))
    (scripted_get [ready_json sample_url] (ready_json sample_url)
       (λ _, inr (file_response 404 "Not Found" []))).

(** Queued, Processing, then Ready with a result that decodes. *)
Definition three_polls : World () :=
  bfl_world (inr (ok_response (job_json "job-1")))
    (scripted_get [status_json "Queued"; status_json "Processing";
                   ready_json sample_url]
       (ready_json sample_url)
       (λ _, inr (file_response 200 "OK" [Byte.xff; Byte.xd8; Byte.xff]))).

(** The body of the response that reports the failure of a job, as it
    comes over the wire. *)
Definition quoted (s : string) : string :=
  String double_quote (s +:+ String double_quote EmptyString).

Definition error_body : string :=
  "{" +:+ quoted "status" +:+ ": " +:+ quoted "Error" +:+ "}".

Definition error_response : response :=
  Response "https://api.us1.bfl.ai/v1/get_result?id=job-1" 200 "OK" error_body
           (inr (status_json "Error")) [].

(** The job fails at the second poll. *)
Definition failing_job : World () :=
  bfl_world (inr (ok_response (job_json "job-1")))
    (λ t u _,
       if eq_str u status_url
       then inr (if (t =? 1)%nat then ok_response (status_json "Pending")
                 else error_response)
       else no_download u).

(** The provider accepts the submission but names no job. *)
Definition no_job : World () :=
  bfl_world (inr (ok_response (JObj {[ "message" := JStr "accepted" ]})))
    (scripted_get [] (status_json "Pending") no_download).

(** The input image is served over HTTP. *)
Definition web_image : World () :=
  world (inl (Err "ConnectionError" "connection refused"))
        (λ _ _ _, inr (file_response 200 "OK" [Byte.x89; Byte.x50]))
        no_file (inr []) (inr []).

Definition bfl_variations_of_url : variations_args := {|
  arg_input := "https://example.com/cat.png";
  arg_output := "out.png";
  arg_provider := "bfl";
  arg_n := 1;
  arg_size := "1024x1024";
  arg_output_format := "png";
  arg_api_key := None;
  arg_api_base := None;
  arg_output_dir := None
|}.

(** The images API answers with one image. *)
Definition editing : World () :=
  world (inl (Err "ConnectionError" "connection refused"))
        (λ _ _ _, inl (Err "ConnectionError" "connection refused"))
        no_file (inr [ImageData (Some "iVBORw0KGgo=") None]) (inr []).

Definition photo : image () := Image "RGB" 640 480 ().

(** A mask in a mode that PNG cannot hold. *)
Definition cmyk_mask : image () := Image "CMYK" 640 480 ().

(** Three variations come back for a picture on disk. *)
Definition three_variations : World () :=
  world (inl (Err "ConnectionError" "connection refused"))
        (λ _ _ _, inl (Err "ConnectionError" "connection refused"))
        (λ _, inr photo)
        (inr [])
        (inr [ImageData (Some "a") None; ImageData (Some "bb") None;
              ImageData (Some "ccc") None]).

(** Three variations of [cat.png] are asked for, to be saved as [output]. *)
Definition variations_to (output : string) : variations_args := {|
  arg_input := "cat.png";
  arg_output := output;
  arg_provider := "openai";
  arg_n := 3;
  arg_size := "1024x1024";
  arg_output_format := "png";
  arg_api_key := None;
  arg_api_base := None;
  arg_output_dir := None
|}.

Definition three_variations_args : variations_args := variations_to "out.png".

(** A large picture with an alpha channel. *)
Definition poster : image () := Image "RGBA" 4000 3000 ().

(** The state in which a command starts. *)
Definition start (existing : gset string) : state := State 0 [] existing 0.

End Sample.

(** * More sample worlds *)

Module More.

(** The same world without API keys in the environment. *)
Definition without_keys (W : World ()) : World () := {|
  os_environ := ∅;
  local_host := local_host W;
  requests_post := requests_post W;
  requests_get := requests_get W;
  repr_float := repr_float W;
  repr_unicode := repr_unicode W;
  key_order := key_order W;
  image_open_bytes := image_open_bytes W;
  image_open_file := image_open_file W;
  image_encode := image_encode W;
  save_handler := save_handler W;
  save_open := save_open W;
  new_raster := new_raster W;
  alpha_band := alpha_band W;
  paste_raster := paste_raster W;
  convert_raster := convert_raster W;
  thumbnail_size := thumbnail_size W;
  resample_raster := resample_raster W;
  b64encode := b64encode W;
  b64decode := b64decode W;
  openai_client := openai_client W;
  openai_images_edit := openai_images_edit W;
  openai_images_create_variation := openai_images_create_variation W;
  uuid4 := uuid4 W;
  gettempdir := gettempdir W;
  isabs := isabs W;
  join := join W
|}.

(** The provider is overloaded. *)
Definition overloaded : World () :=
  Sample.bfl_world
    (inr (Response "https://api.us1.bfl.ai/v1/flux-dev" 503 "Service Unavailable"
            "try again later" (inl (Err "JSONDecodeError" "Expecting value")) []))
    (Sample.scripted_get [] (Sample.status_json "Pending") Sample.no_download).

(** The second status poll does not get through. *)
Definition flaky : World () :=
  Sample.bfl_world (inr (Sample.ok_response (Sample.job_json "job-1")))
    (λ t u h,
       if (t =? 2)%nat then inl (Err "ConnectionError" "connection reset")
       else Sample.scripted_get [] (Sample.status_json "Queued")
              Sample.no_download t u h).

(** The job is Ready but the response names no sample. *)
Definition ready_without_sample : World () :=
  Sample.bfl_world (inr (Sample.ok_response (Sample.job_json "job-1")))
    (Sample.scripted_get
       [JObj (<["status" := JStr "Ready"]> {[ "result" := JObj ∅ ]})]
       (Sample.status_json "Pending") Sample.no_download).




(** The BFL provider of [Sample.three_polls] for a user with a picture on
    disk. *)
Definition edits_with_bfl : World () :=
  Sample.world (inr (Sample.ok_response (Sample.job_json "job-1")))
    (Sample.scripted_get
       [Sample.status_json "Queued"; Sample.status_json "Processing";
        Sample.ready_json Sample.sample_url]
       (Sample.ready_json Sample.sample_url)
       (λ _, inr (Sample.file_response 200 "OK" [Byte.xff; Byte.xd8; Byte.xff])))
    (λ _, inr Sample.photo) (inr []) (inr []).

Definition edit_cat (mask : option string) : edit_args :=
  EditArgs "cat.png" "make it snow" "out.jpg" mask
    "high" "auto" "jpeg" None 2 "bfl" None None None None.

(** A machine with a key file for BFL, an unreadable one for ElevenLabs and
    none for OpenAI. *)
Definition host : Host := {|
  script_dir := "/opt/imagine";
  read_text := λ path,
    if String.eqb path "/opt/imagine/bfl_api_key.txt"
    then inr "  bfl-key-from-file  "
    else inl (Err "PermissionError" ("[Errno 13] Permission denied: '" +:+ path +:+ "'"));
  strip := Sample.strip_ascii
|}.

Definition key_files : gset string :=
  {[ "/opt/imagine/bfl_api_key.txt"; "/opt/imagine/elevenlabs_api_key.txt" ]}.

(** An ElevenLabs account whose stream breaks after two chunks when the
    prompt is ["storm"], and ends after two chunks otherwise. *)
Definition two_chunks : list (list Byte.byte) :=
  [[Byte.x49; Byte.x44]; [Byte.x33]].

Definition sounds : Sounds := {|
  elevenlabs_client := λ _, inr ();
  text_to_sound_effects_convert := λ params,
    inr (Audio two_chunks
           (if String.eqb (sound_text params) "storm"
            then Some (Err "ConnectionError" "Connection aborted.")
            else None));
  open_wb := λ _, inr ()
|}.

Definition noise (prompt : string) (key : option string) : makenoise_args := {|
  noise_prompt := prompt;
  noise_output := "rain.mp3";
  noise_duration := Some 2%float;
  noise_prompt_influence := None;
  noise_elevenlabs_api_key := key;
  noise_output_dir := Some "/home/user"
|}.

Definition silence (existing : gset string) : studio :=
  Studio (Sample.start existing) ∅ [].

(** A chat endpoint that answers with two choices. *)
Definition chat_service : Chat := {|
  chat_completions_create := λ model _,
    inr [Some ("A lighthouse, says " +:+ model); Some "A tower"]
|}.

Definition analysis : analyze_args := {|
  analyze_input := "https://example.com/cat.png";
  analyze_prompt := EmptyString;
  analyze_detail := "auto";
  analyze_api_key := Some "sk-user";
  analyze_api_base := None;
  analyze_output_dir := Some "/home/user"
|}.

End More.

(** * Theorems *)

(** ** Stepping through the monad *)

Section MonadFacts.

Lemma bind_ret {A B} (c : M A) (k : A → M B) s a s' :
  c s = (Ret a, s') → (c ≫= k) s = k a s'.
Proof. intros H. unfold mbind, M_bind. by rewrite H. Qed.

Lemma bind_raise {A B} (c : M A) (k : A → M B) s e s' :
  c s = (Raise e, s') → (c ≫= k) s = (Raise e, s').
Proof. intros H. unfold mbind, M_bind. by rewrite H. Qed.

Lemma bind_fuel {A B} (c : M A) (k : A → M B) s s' :
  c s = (Fuel, s') → (c ≫= k) s = (Fuel, s').
Proof. intros H. unfold mbind, M_bind. by rewrite H. Qed.

Lemma sleep_then {A} n (c : M A) s :
  (sleep n;; c) s
  = c (State (S (clock s)) (trace s ++ [EvSleep n]) (files s) (uuids s)).
Proof. reflexivity. Qed.

Lemma emit_then_bind {A B} e (c : M A) (k : A → M B) s :
  ((emit e;; c) ≫= k) s
  = (c ≫= k) (State (clock s) (trace s ++ [e]) (files s) (uuids s)).
Proof. reflexivity. Qed.

Lemma bind_assoc {A B C} (c : M A) (k1 : A → M B) (k2 : B → M C) s :
  ((c ≫= k1) ≫= k2) s = (c ≫= λ a, k1 a ≫= k2) s.
Proof. unfold mbind, M_bind. by destruct (c s) as [[a|e|n|] s1]. Qed.

Lemma emit_then {A} e (c : M A) s :
  (emit e;; c) s = c (State (clock s) (trace s ++ [e]) (files s) (uuids s)).
Proof. reflexivity. Qed.

End MonadFacts.

(** Unfold the monadic plumbing so that [simpl] can run the program. *)
Ltac run :=
  repeat (progress (unfold mbind, M_bind, mret, M_ret, lift, raise, emit, print,
                    sleep, now, exit, out_of_fuel; simpl)).

(** *** Relations that every step of a computation preserves

    For a preorder [R], [preserves R] goes through sequencing, exception
    handlers and [finally] blocks. *)

Section Preserves.

Context (R : relation state) `{!PreOrder R}.

Lemma preserves_id {A} (c : M A) : (∀ s, (c s).2 = s) → preserves R c.
Proof. intros H s. by rewrite H. Qed.

Lemma preserves_ret {A} (a : A) : preserves R (mret a).
Proof. by apply preserves_id. Qed.

Lemma preserves_raise {A} e : preserves R (raise (A := A) e).
Proof. by apply preserves_id. Qed.

Lemma preserves_exit {A} n : preserves R (exit (A := A) n).
Proof. by apply preserves_id. Qed.

Lemma preserves_fuel {A} : preserves R (out_of_fuel (A := A)).
Proof. by apply preserves_id. Qed.

Lemma preserves_now : preserves R now.
Proof. by apply preserves_id. Qed.

Lemma preserves_lift {A} (r : error + A) : preserves R (lift r).
Proof. destruct r; by apply preserves_id. Qed.

Lemma preserves_bind_post {A B} (Q : A → Prop) (c : M A) (k : A → M B) :
  preserves R c → (∀ s a s1, c s = (Ret a, s1) → Q a) →
  (∀ a, Q a → preserves R (k a)) → preserves R (c ≫= k).
Proof.
  intros Hc HQ Hk s. specialize (Hc s). unfold mbind, M_bind.
  destruct (c s) as [[a| | |] s1] eqn:E; simpl in *; try done.
  etrans; [exact Hc|]. by eapply Hk, HQ.
Qed.

Lemma preserves_bind {A B} (c : M A) (k : A → M B) :
  preserves R c → (∀ a, preserves R (k a)) → preserves R (c ≫= k).
Proof.
  intros Hc Hk. by apply (preserves_bind_post (λ _, True)).
Qed.

Lemma preserves_try_except {A} (c : M A) (h : error → M A) :
  preserves R c → (∀ e, preserves R (h e)) → preserves R (try_except c h).
Proof.
  intros Hc Hh s. specialize (Hc s). unfold try_except.
  destruct (c s) as [[a|e| |] s1] eqn:E; simpl in *; try done.
  etrans; [exact Hc|]. apply Hh.
Qed.

Lemma preserves_try_finally {A} (c : M A) (f : M unit) :
  preserves R c → preserves R f → preserves R (try_finally c f).
Proof.
  intros Hc Hf s. specialize (Hc s). unfold try_finally.
  destruct (c s) as [[a|e|n|] s1] eqn:E; simpl in *; try done;
    specialize (Hf s1);
    destruct (f s1) as [[[]|e'|n'|] s2] eqn:E'; simpl in *;
    by etrans.
Qed.

End Preserves.

(** *** What a computation adds to the trace *)

#[global] Instance appends_preorder P : PreOrder (appends P).
Proof.
  split.
  - intros s. exists []. by rewrite app_nil_r.
  - intros s1 s2 s3 (evs & Htr & Hall) (evs' & Htr' & Hall').
    exists (evs ++ evs'). rewrite Htr', Htr, app_assoc. split; [done|].
    by apply Forall_app.
Qed.

Lemma emits_emit (P : event → Prop) e : P e → emits P (emit e).
Proof. intros H s. exists [e]. simpl. auto. Qed.

Lemma emits_sleep (P : event → Prop) n : P (EvSleep n) → emits P (sleep n).
Proof. intros H s. exists [EvSleep n]. simpl. auto. Qed.

Lemma emits_fresh_uuid (P : event → Prop) {Raster} (W : World Raster) :
  emits P (fresh_uuid W).
Proof. intros s. exists []. simpl. by rewrite app_nil_r. Qed.

Lemma emits_path_exists (P : event → Prop) path : emits P (path_exists path).
Proof. intros s. exists []. simpl. by rewrite app_nil_r. Qed.

Lemma emits_create_path (P : event → Prop) path :
  P (EvWrite path) → emits P (create_path path).
Proof. intros H s. exists [EvWrite path]. simpl. auto. Qed.

Lemma emits_delete_path (P : event → Prop) path :
  P (EvRemove path) → emits P (delete_path path).
Proof. intros H s. exists [EvRemove path]. simpl. auto. Qed.

(** *** Files *)

#[global] Instance same_files_preorder : PreOrder same_files.
Proof. split; unfold same_files; [by intros s|intros s1 s2 s3; congruence]. Qed.

Lemma keeps_emit e : preserves same_files (emit e).
Proof. by intros s. Qed.

Lemma keeps_sleep n : preserves same_files (sleep n).
Proof. by intros s. Qed.

Lemma keeps_fresh_uuid {Raster} (W : World Raster) :
  preserves same_files (fresh_uuid W).
Proof. by intros s. Qed.

Lemma keeps_path_exists path : preserves same_files (path_exists path).
Proof. by intros s. Qed.

(** *** Coming to an end *)

Section Ends.

Lemma ends_ret {A} (a : A) : ends (mret a).
Proof. by intros s. Qed.

Lemma ends_raise {A} e : ends (raise (A := A) e).
Proof. by intros s. Qed.

Lemma ends_exit {A} n : ends (exit (A := A) n).
Proof. by intros s. Qed.

Lemma ends_lift {A} (r : error + A) : ends (lift r).
Proof. by destruct r; intros s. Qed.

Lemma ends_emit e : ends (emit e).
Proof. by intros s. Qed.

Lemma ends_path_exists path : ends (path_exists path).
Proof. by intros s. Qed.

Lemma ends_create_path path : ends (create_path path).
Proof. by intros s. Qed.

Lemma ends_delete_path path : ends (delete_path path).
Proof. by intros s. Qed.

Lemma ends_bind {A B} (c : M A) (k : A → M B) :
  ends c → (∀ a, ends (k a)) → ends (c ≫= k).
Proof.
  intros Hc Hk s. specialize (Hc s). unfold mbind, M_bind.
  destruct (c s) as [[a| | |] s1]; simpl in *; try done. apply Hk.
Qed.

End Ends.

(** Show that a computation without a loop comes to an end. *)
Ltac halts :=
  repeat first
    [ apply ends_ret | apply ends_raise | apply ends_exit | apply ends_lift
    | apply ends_emit | apply ends_path_exists | apply ends_create_path
    | apply ends_delete_path
    | apply ends_bind; [|intros]
    | assumption
    | match goal with
      | |- ends (if ?b then _ else _) => destruct b
      | |- ends (match ?x with _ => _ end) => destruct x
      | |- ends (let _ := _ in _) => cbv zeta
      | |- ends (?f _) => unfold f
      | |- ends (?f _ _) => unfold f
      | |- ends (?f _ _ _) => unfold f
      | |- ends (?f _ _ _ _) => unfold f
      end ].

(** Decompose a computation into its primitive steps. *)
Ltac grow :=
  repeat first
    [ apply preserves_ret; apply _ | apply preserves_raise; apply _
    | apply preserves_exit; apply _ | apply preserves_fuel; apply _
    | apply preserves_now; apply _ | apply preserves_lift; apply _
    | apply emits_emit; try done | apply emits_sleep; try done
    | apply emits_fresh_uuid | apply emits_path_exists
    | apply emits_create_path; try done | apply emits_delete_path; try done
    | apply keeps_emit | apply keeps_sleep | apply keeps_fresh_uuid
    | apply keeps_path_exists
    | apply preserves_bind; [apply _| |intros]
    | apply preserves_try_except; [apply _| |intros]
    | apply preserves_try_finally; [apply _| |]
    | assumption
    | match goal with
      | |- preserves _ (if ?b then _ else _) => destruct b
      | |- preserves _ (match ?x with _ => _ end) => destruct x
      | |- grows _ => unfold grows
      | |- emits _ _ => unfold emits
      | |- preserves _ (let _ := _ in _) => cbv zeta
      | |- preserves _ (?f _) => unfold f
      | |- preserves _ (?f _ _) => unfold f
      | |- preserves _ (?f _ _ _) => unfold f
      | |- preserves _ (?f _ _ _ _) => unfold f
      end ].

(** ** The poll loop *)

Section PollerFacts.

Context {Raster : Type} (W : World Raster).
Variables (result_url bfl_api_key : string).

#[local] Abbreviation loop fuel := (poll_loop W fuel result_url bfl_api_key).
#[local] Abbreviation round k := (poll_round W result_url bfl_api_key k).
#[local] Abbreviation answers := (status_response W result_url bfl_api_key).
#[local] Abbreviation after n := (rounds result_url bfl_api_key n).

Lemma raise_for_status_ok (r : response) s :
  http_ok r → raise_for_status r s = (Ret (), s).
Proof.
  unfold http_ok, raise_for_status. intros Hok.
  rewrite !bool_decide_eq_false_2; [done | lia | lia].
Qed.

Lemma raise_for_status_not_ok (r : response) s :
  ¬ http_ok r → ∃ e, raise_for_status r s = (Raise e, s).
Proof.
  unfold http_ok, raise_for_status. intros Hok.
  repeat case_bool_decide; try (eexists; reflexivity). exfalso. apply Hok. lia.
Qed.

(** A round on a pending status changes the state by one sleep and one GET
    and hands over to the rest of the loop. *)
Lemma round_pending (k : M (image Raster)) s :
  pending (answers s 0) → round k s = k (after 1 s).
Proof.
  intros (m & (resp & Hr & Hok & Hb) & Hst).
  unfold status_response in Hr. rewrite Nat.add_1_r in Hr.
  unfold poll_round, get. run. rewrite Hr. run.
  rewrite raise_for_status_ok by done.
  unfold response_json. rewrite Hb. run.
  fold (status_of m). 
  destruct (eq_str (status_of m) "Ready") eqn:Hready.
  { exfalso. destruct (status_of m); try done. simpl in Hready.
    apply String.eqb_eq in Hready. by subst. }
  rewrite Hst. simpl. by rewrite <- app_assoc.
Qed.

(** The beginning of a round whose status poll is answered by the JSON
    object [m]. *)
Ltac round_begin Hrecv :=
  let resp := fresh "resp" in
  let Hr := fresh "Hr" in
  let Hok := fresh "Hok" in
  let Hb := fresh "Hb" in
  destruct Hrecv as (resp & Hr & Hok & Hb);
  unfold status_response in Hr; rewrite Nat.add_1_r in Hr;
  unfold poll_round, get; run; rewrite Hr; run;
  rewrite raise_for_status_ok by done;
  unfold response_json; rewrite Hb; run;
  rewrite <- (app_assoc (trace _)); simpl;
  match type of Hb with _ = inr (JObj ?m) => fold (status_of m) end.

Lemma eq_str_true v x : eq_str v x = true ↔ v = JStr x.
Proof.
  destruct v; simpl; try (split; [done|congruence]).
  rewrite String.eqb_eq. split; congruence.
Qed.

Lemma received_inj r m m' : received r m → received r m' → m = m'.
Proof. intros (? & -> & _ & H) (? & [= <-] & _ & H'). congruence. Qed.

(** Either the poll is answered by a JSON object, or the round raises. *)
Lemma round_received_or_raise (k : M (image Raster)) s :
  (∃ m, received (answers s 0) m) ∨ (∃ e, round k s = (Raise e, after 1 s)).
Proof.
  unfold received, status_response. rewrite Nat.add_1_r.
  unfold poll_round, get. run. rewrite <- (app_assoc (trace s)). simpl.
  destruct (requests_get _ _ _ _) as [e|resp] eqn:Hr; run; [by eauto|].
  destruct (decide (400 ≤ status_code resp < 600)) as [Hbad|Hok].
  { right. destruct (raise_for_status_not_ok resp
      (State (S (clock s))
         (trace s ++ [EvSleep 1500; EvGet (JStr result_url) (poll_headers bfl_api_key)])
         (files s) (uuids s))) as [e ->]; [by intros []|]. by eauto. }
  rewrite raise_for_status_ok by done.
  unfold response_json. destruct (body resp) as [e|d] eqn:Hb; run; [by eauto|].
  destruct d; run; try (by eauto).
  left. by eauto 10.
Qed.

(** On Ready, either a result URL is there, or the round raises. *)
Lemma round_ready_or_raise (k : M (image Raster)) s m :
  received (answers s 0) m → status_of m = JStr "Ready" →
  (∃ u, ready_with_url (answers s 0) u) ∨ (∃ e, round k s = (Raise e, after 1 s)).
Proof.
  intros Hrecv Hst. pose proof Hrecv as Hrecv'.
  round_begin Hrecv. rewrite Hst. simpl.
  destruct (m !! "result") as [[| | | | | |rm]|] eqn:Hres; run; try (by eauto).
  destruct (rm !! "sample") as [u|] eqn:Hu; run; [|by eauto].
  destruct (truthy u) eqn:Htr; run; [|by eauto].
  left. exists u, m, rm. done.
Qed.

(** On Ready with a result URL the round returns what the download gives. *)
Lemma round_ready_ret (k : M (image Raster)) s u r img :
  ready_with_url (answers s 0) u →
  requests_get W (S (clock s)) u [] = inr r → http_ok r →
  image_open_bytes W (content r) = inr img →
  round k s = (Ret img, fetched u (after 1 s)).
Proof.
  intros (m & rm & Hrecv & Hst & Hres & Hu & Htr) Hget Hok Himg.
  round_begin Hrecv. rewrite Hst. simpl. rewrite Hres. run.
  rewrite Hu. simpl. rewrite Htr. run. rewrite Hget. run.
  rewrite raise_for_status_ok by done.
  unfold image_from_bytes. by rewrite Himg.
Qed.

Lemma round_ready_inv (k : M (image Raster)) s u img s' :
  ready_with_url (answers s 0) u →
  round k s = (Ret img, s') →
  ∃ r, requests_get W (S (clock s)) u [] = inr r ∧ http_ok r
       ∧ image_open_bytes W (content r) = inr img
       ∧ s' = fetched u (after 1 s).
Proof.
  intros (m & rm & Hrecv & Hst & Hres & Hu & Htr).
  round_begin Hrecv. rewrite Hst. simpl. rewrite Hres. run.
  rewrite Hu. simpl. rewrite Htr. run.
  destruct (requests_get W (S (clock s)) u []) as [e|r] eqn:Hget; run; [done|].
  destruct (decide (400 ≤ status_code r < 600)) as [Hbad|Hgood].
  { match goal with |- context [raise_for_status r ?s1] =>
      destruct (raise_for_status_not_ok r s1) as [e ->]; [by intros []|done]
    end. }
  rewrite raise_for_status_ok by done.
  unfold image_from_bytes.
  destruct (image_open_bytes _ _) as [e|img'] eqn:Himg; run; [done|].
  intros [= -> <-]. by exists r.
Qed.

(** On a status that is neither Ready nor pending the round raises, and
    the message shows the status and the whole response. *)
Lemma round_failed (k : M (image Raster)) s m :
  received (answers s 0) m →
  eq_str (status_of m) "Ready" = false →
  in_strs (status_of m) ["Processing"; "Queued"; "Pending"] = false →
  round k s =
    (Raise (ValueError ("Generation failed with status: "
                          +:+ py_str W (status_of m)
                          +:+ ". Full response: " +:+ py_str W (JObj m))),
     after 1 s).
Proof.
  intros Hrecv Hready Hpend.
  round_begin Hrecv. by rewrite Hready, Hpend.
Qed.

Lemma clock_rounds n s : clock (after n s) = clock s + n.
Proof.
  revert s. induction n as [|n IH]; intros s; simpl; [lia|].
  rewrite IH. simpl. lia.
Qed.

Lemma rounds_add n k s : after (n + k) s = after k (after n s).
Proof. revert s. induction n as [|n IH]; intros s; simpl; [done|]. by rewrite IH. Qed.

Lemma answers_after n s k : answers (after n s) k = answers s (n + k).
Proof.
  unfold status_response. rewrite clock_rounds. f_equal. lia.
Qed.

Lemma pending_until_after n s k :
  pending_until W result_url bfl_api_key s (n + k) →
  pending_until W result_url bfl_api_key (after n s) k.
Proof.
  intros H j Hj. rewrite answers_after. apply H. lia.
Qed.

(** While the status stays pending the loop only consumes fuel. *)
Lemma loop_pending_prefix n fuel s :
  pending_until W result_url bfl_api_key s n →
  loop (n + fuel) s = loop fuel (after n s).
Proof.
  revert s. induction n as [|n IH]; intros s Hp; [done|].
  change (S n + fuel) with (S (n + fuel)). cbn [poll_loop].
  rewrite round_pending by (apply Hp; lia).
  rewrite IH; [done|].
  apply (pending_until_after 1 s n). exact Hp.
Qed.

Lemma status_polls_app tr tr' :
  status_polls result_url bfl_api_key (tr ++ tr')
  = status_polls result_url bfl_api_key tr + status_polls result_url bfl_api_key tr'.
Proof. unfold status_polls. by rewrite List.filter_app, length_app. Qed.

Lemma status_polls_round :
  status_polls result_url bfl_api_key
    [EvSleep 1500; EvGet (JStr result_url) (poll_headers bfl_api_key)] = 1.
Proof.
  unfold status_polls. simpl. rewrite String.eqb_refl.
  by rewrite bool_decide_eq_true_2.
Qed.

Lemma status_polls_rounds n s :
  status_polls result_url bfl_api_key (trace (after n s))
  = status_polls result_url bfl_api_key (trace s) + n.
Proof.
  revert s. induction n as [|n IH]; intros s; simpl; [lia|].
  rewrite IH. simpl. rewrite status_polls_app, status_polls_round. lia.
Qed.

Lemma round_grows P (k : M (image Raster)) :
  P (EvSleep 1500) → (∀ u h, P (EvGet u h)) → emits P k → emits P (round k).
Proof. intros HS HG Hk. unfold poll_round. grow. Qed.

Lemma loop_grows fuel : grows (loop fuel).
Proof.
  induction fuel as [|fuel IH]; [apply preserves_fuel, _|].
  cbn [poll_loop]. by apply round_grows.
Qed.

(** Every round starts with a sleep and a status poll, whatever comes back. *)
Lemma round_polls (k : M (image Raster)) s :
  grows k →
  (status_polls result_url bfl_api_key (trace s) + 1
   ≤ status_polls result_url bfl_api_key (trace (round k s).2))%nat.
Proof.
  intros Hk. unfold poll_round, get.
  rewrite sleep_then, emit_then_bind.
  match goal with |- context [trace (?c ?s1).2] =>
    assert (Hgrow : grows c) by grow;
    destruct (Hgrow s1) as (evs & -> & _)
  end.
  simpl. rewrite <- (app_assoc (trace s)). simpl.
  rewrite !status_polls_app, status_polls_round. lia.
Qed.

Lemma loop_polls fuel s :
  (status_polls result_url bfl_api_key (trace s) + 1
   ≤ status_polls result_url bfl_api_key (trace (loop (S fuel) s).2))%nat.
Proof. cbn [poll_loop]. apply round_polls, loop_grows. Qed.

End PollerFacts.

(** In a sample world: the poll was answered with a JSON object. *)
Ltac sample_received :=
  eexists; split; [reflexivity|];
  split; [unfold http_ok; simpl; lia | reflexivity].

(** ** The poller has no bound on its waiting *)

Section Unbounded.

Context {Raster : Type} (W : World Raster).
Variables (result_url bfl_api_key : string).

(** C2.  The poll loop has no retry limit and no timeout.  If the first [n]
    status responses are all Queued, Processing or Pending, then after [n]
    rounds the loop has neither returned nor raised, it has made exactly [n]
    status polls, and every longer run makes at least [n + 1] of them.  If
    every status response is pending, no number of rounds ends the loop. *)
Theorem poll_loop_has_no_bound (s : state) (n : nat) :
  pending_until W result_url bfl_api_key s n →
  poll_loop W n result_url bfl_api_key s
    = (Fuel, rounds result_url bfl_api_key n s)
  ∧ status_polls result_url bfl_api_key (trace (rounds result_url bfl_api_key n s))
    = status_polls result_url bfl_api_key (trace s) + n
  ∧ (∀ fuel, n < fuel →
       (status_polls result_url bfl_api_key (trace s) + (n + 1)
        ≤ status_polls result_url bfl_api_key
            (trace (poll_loop W fuel result_url bfl_api_key s).2))%nat)
  ∧ ((∀ k, pending (status_response W result_url bfl_api_key s k)) →
     ∀ fuel, poll_loop W fuel result_url bfl_api_key s
             = (Fuel, rounds result_url bfl_api_key fuel s)).
Proof.
  intros Hp. repeat split.
  - rewrite <- (Nat.add_0_r n) at 1. by rewrite loop_pending_prefix.
  - apply status_polls_rounds.
  - intros fuel Hlt.
    replace fuel with (n + S (fuel - S n)) by lia.
    rewrite loop_pending_prefix by done.
    etrans; [|apply loop_polls].
    rewrite status_polls_rounds. lia.
  - intros Hall fuel.
    rewrite <- (Nat.add_0_r fuel) at 1.
    rewrite loop_pending_prefix; [done|]. intros j _. apply Hall.
Qed.

End Unbounded.

Lemma poll_loop_has_no_bound_witness :
  let W := Sample.bfl_world (inr (Sample.ok_response (Sample.job_json "job-1")))
             (Sample.scripted_get [] (Sample.status_json "Processing")
                                     Sample.no_download) in
  pending_until W Sample.status_url "bfl-key" (Sample.start ∅) 7
  ∧ poll_loop W 7 Sample.status_url "bfl-key" (Sample.start ∅)
    = (Fuel, rounds Sample.status_url "bfl-key" 7 (Sample.start ∅)).
Proof.
  intros W.
  assert (Hp : pending_until W Sample.status_url "bfl-key" (Sample.start ∅) 7).
  { intros j _. eexists. split; [sample_received|reflexivity]. }
  split; [exact Hp|].
  exact (proj1 (poll_loop_has_no_bound W Sample.status_url "bfl-key"
                  (Sample.start ∅) 7 Hp)).
Defined.

(** ** When the poller returns *)

Section Returns.

Context {Raster : Type} (W : World Raster).
Variables (result_url bfl_api_key : string).

#[local] Abbreviation loop fuel := (poll_loop W fuel result_url bfl_api_key).
#[local] Abbreviation answers := (status_response W result_url bfl_api_key).
#[local] Abbreviation after n := (rounds result_url bfl_api_key n).

Lemma loop_ret_inv fuel s img s' :
  loop fuel s = (Ret img, s') →
  ∃ k u, first_terminal_ready W result_url bfl_api_key s k u
         ∧ download_gives W s k u img
         ∧ s' = fetched u (after (S k) s).
Proof.
  revert s. induction fuel as [|fuel IH]; intros s; [done|].
  cbn [poll_loop]. intros H.
  destruct (round_received_or_raise W result_url bfl_api_key (loop fuel) s)
    as [[m Hm]|[e He]]; [|congruence].
  destruct (eq_str (status_of m) "Ready") eqn:Hready.
  - apply eq_str_true in Hready.
    destruct (round_ready_or_raise W result_url bfl_api_key (loop fuel) s m Hm Hready)
      as [[u Hu]|[e He]]; [|congruence].
    destruct (round_ready_inv W _ _ _ _ _ _ _ Hu H) as (r & Hget & Hok & Himg & ->).
    exists 0, u. split; [split; [intros j Hj; lia|done]|]. split; [|done].
    exists r. by rewrite Nat.add_1_r.
  - destruct (in_strs (status_of m) ["Processing"; "Queued"; "Pending"]) eqn:Hp.
    + assert (Hpend : pending (answers s 0)) by (by exists m).
      rewrite round_pending in H by done.
      apply IH in H as (k & u & [Hpre Hrdy] & (r & Hget & Hok & Himg) & ->).
      rewrite answers_after in Hrdy.
      exists (S k), u. split; [split|split].
      * intros [|j] Hj; [done|].
        specialize (Hpre j ltac:(lia)). by rewrite answers_after in Hpre.
      * done.
      * exists r. rewrite clock_rounds in Hget.
        by replace (clock s + S (S k)) with (clock s + 1 + S k) by lia.
      * done.
    + rewrite (round_failed W _ _ _ _ m) in H by done. congruence.
Qed.

Lemma loop_ret fuel s k u img :
  first_terminal_ready W result_url bfl_api_key s k u →
  download_gives W s k u img →
  loop (S k + fuel) s = (Ret img, fetched u (after (S k) s)).
Proof.
  intros [Hpre Hrdy] (r & Hget & Hok & Himg).
  replace (S k + fuel) with (k + S fuel) by lia.
  rewrite loop_pending_prefix by done. cbn [poll_loop].
  replace (S k) with (k + 1) by lia. rewrite rounds_add.
  apply (round_ready_ret W _ _ _ _ _ r).
  - by rewrite answers_after, Nat.add_0_r.
  - rewrite clock_rounds. by replace (S (clock s + k)) with (clock s + S k) by lia.
  - done.
  - done.
Qed.

(** C1, as the code has it.  The loop returns the image [img] exactly when
    the first status that is not Queued, Processing or Pending is Ready
    with a result URL, the GET of that URL succeeds and its bytes decode to
    [img]; the final state then shows one sleep and one status poll per
    round and one more GET.  As long as the statuses are pending the loop
    neither returns nor raises: it goes into the next round. *)
Theorem poller_returns_iff (s : state) :
  (∀ img s',
     (∃ fuel, loop fuel s = (Ret img, s'))
     ↔ (∃ k u, first_terminal_ready W result_url bfl_api_key s k u
               ∧ download_gives W s k u img
               ∧ s' = fetched u (after (S k) s)))
  ∧ (∀ n, pending_until W result_url bfl_api_key s n →
          loop n s = (Fuel, after n s)
          ∧ ∀ fuel, loop (n + fuel) s = loop fuel (after n s)).
Proof.
  split.
  - intros img s'. split.
    + intros [fuel H]. by apply loop_ret_inv in H.
    + intros (k & u & Hfirst & Hdl & ->). exists (S k + 0). by apply loop_ret.
  - intros n Hp. split.
    + rewrite <- (Nat.add_0_r n) at 1. by rewrite loop_pending_prefix.
    + intros fuel. by apply loop_pending_prefix.
Qed.

End Returns.

(** C1, as the claim has it, fails: with a first status Ready that carries
    a result URL, the loop still raises when the GET of that URL is answered
    with 404. *)
Lemma poller_iff_fails_when_download_fails :
  ¬ (returns_image Sample.ready_but_gone Sample.status_url "bfl-key" (Sample.start ∅)
     ↔ ∃ k u, first_terminal_ready Sample.ready_but_gone Sample.status_url
                "bfl-key" (Sample.start ∅) k u).
Proof.
  intros [_ H]. destruct H as (fuel & img & s' & Hret).
  - exists 0, (JStr Sample.sample_url). split; [intros j Hj; lia|].
    eexists _, _. split; [sample_received|done].
  - destruct fuel as [|fuel]; [done|]. vm_compute in Hret. done.
Qed.

Lemma poller_returns_iff_witness :
  ∃ fuel, poll_loop Sample.three_polls fuel Sample.status_url "bfl-key" (Sample.start ∅)
          = (Ret (Image "RGB" 3 1 ()),
             fetched (JStr Sample.sample_url)
               (rounds Sample.status_url "bfl-key" 3 (Sample.start ∅))).
Proof.
  apply (proj1 (poller_returns_iff Sample.three_polls Sample.status_url "bfl-key"
                  (Sample.start ∅))).
  exists 2, (JStr Sample.sample_url). split; [split|split].
  - intros [|[|j]] Hj; [| |lia];
      (eexists; split; [sample_received|reflexivity]).
  - eexists _, _. split; [sample_received|done].
  - eexists. split; [reflexivity|]. split; [|reflexivity].
    unfold http_ok. simpl. lia.
  - reflexivity.
Defined.

(** ** A run of three polls *)

Section ThreePolls.

Context {Raster : Type} (W : World Raster).
Variables (result_url bfl_api_key : string).

Lemma has_status_pending r st :
  has_status r st → st ∈ ["Processing"; "Queued"; "Pending"] → pending r.
Proof.
  intros (m & Hm & Hst) Hin. exists m. split; [done|]. rewrite Hst.
  set_unfold. by destruct Hin as [->|[->|[->|[]]]].
Qed.

(** C3.  On the status sequence Queued, Processing, Ready, the last with a
    result URL [u] whose download decodes to [img], the loop returns [img]
    after exactly three rounds: the trace gains three sleeps with three GETs
    of the status URL, and one GET of [u]. *)
Theorem three_polls_then_fetch (s : state) (u : json) (img : image Raster) (fuel : nat) :
  has_status (status_response W result_url bfl_api_key s 0) "Queued" →
  has_status (status_response W result_url bfl_api_key s 1) "Processing" →
  ready_with_url (status_response W result_url bfl_api_key s 2) u →
  download_gives W s 2 u img →
  (3 ≤ fuel)%nat →
  ∃ s', poll_loop W fuel result_url bfl_api_key s = (Ret img, s')
        ∧ trace s' = trace s ++
            [EvSleep 1500; EvGet (JStr result_url) (poll_headers bfl_api_key);
             EvSleep 1500; EvGet (JStr result_url) (poll_headers bfl_api_key);
             EvSleep 1500; EvGet (JStr result_url) (poll_headers bfl_api_key);
             EvGet u []]
        ∧ clock s' = clock s + 3.
Proof.
  intros H0 H1 H2 Hdl Hfuel.
  assert (Hfirst : first_terminal_ready W result_url bfl_api_key s 2 u).
  { split; [|done]. intros [|[|j]] Hj; [| |lia].
    - apply (has_status_pending _ _ H0). set_solver.
    - apply (has_status_pending _ _ H1). set_solver. }
  eexists. split; [|split].
  - replace fuel with (3 + (fuel - 3)) by lia. by apply loop_ret.
  - simpl. by rewrite <- !app_assoc.
  - simpl. lia.
Qed.

End ThreePolls.

Lemma three_polls_then_fetch_witness :
  ∃ s', poll_loop Sample.three_polls 3 Sample.status_url "bfl-key" (Sample.start ∅)
        = (Ret (Image "RGB" 3 1 ()), s')
        ∧ trace s' = [] ++
            [EvSleep 1500; EvGet (JStr Sample.status_url) (poll_headers "bfl-key");
             EvSleep 1500; EvGet (JStr Sample.status_url) (poll_headers "bfl-key");
             EvSleep 1500; EvGet (JStr Sample.status_url) (poll_headers "bfl-key");
             EvGet (JStr Sample.sample_url) []]
        ∧ clock s' = 0 + 3.
Proof.
  apply (three_polls_then_fetch Sample.three_polls Sample.status_url "bfl-key"
           (Sample.start ∅) (JStr Sample.sample_url) (Image "RGB" 3 1 ()) 3).
  - eexists. split; [sample_received|reflexivity].
  - eexists. split; [sample_received|reflexivity].
  - eexists _, _. split; [sample_received|done].
  - eexists. split; [reflexivity|]. split; [|reflexivity].
    unfold http_ok. simpl. lia.
  - lia.
Defined.

(** ** A failed job *)

Section Failure.

Context {Raster : Type} (W : World Raster).
Variables (result_url bfl_api_key : string).

Lemma append_assoc (a b c : string) : (a +:+ b) +:+ c = a +:+ b +:+ c.
Proof.
  induction a as [|x a IH]; [done|].
  change (String x ((a +:+ b) +:+ c) = String x (a +:+ b +:+ c)).
  by rewrite IH.
Qed.

Lemma append_nil_r (a : string) : a +:+ EmptyString = a.
Proof.
  induction a as [|x a IH]; [done|].
  change (String x (a +:+ EmptyString) = String x a). by rewrite IH.
Qed.

Lemma in_strs_cons v x l : in_strs v (x :: l) = eq_str v x || in_strs v l.
Proof. reflexivity. Qed.

Lemma contains_refl (x : string) : contains x x.
Proof. exists EmptyString, EmptyString. by rewrite append_nil_r. Qed.

Lemma contains_trans (a b c : string) : contains a b → contains b c → contains a c.
Proof.
  intros (p1 & q1 & ->) (p2 & q2 & ->). exists (p1 +:+ p2), (q2 +:+ q1).
  by rewrite !append_assoc.
Qed.

Lemma contains_app_l (a b x : string) : contains a x → contains (a +:+ b) x.
Proof.
  intros (p & q & ->). exists p, (q +:+ b). by rewrite !append_assoc.
Qed.

Lemma contains_app_r (a b x : string) : contains b x → contains (a +:+ b) x.
Proof.
  intros (p & q & ->). exists (a +:+ p), q. by rewrite !append_assoc.
Qed.

(** [sep.join(l)] contains every element of [l]. *)
Lemma contains_concat (sep x : string) (l : list string) :
  x ∈ l → contains (String.concat sep l) x.
Proof.
  induction l as [|y l IH]; [by intros ?%elem_of_nil|].
  intros [->|Hin]%elem_of_cons.
  - destruct l as [|z l]; [apply contains_refl|].
    apply contains_app_l, contains_refl.
  - destruct l as [|z l]; [by apply elem_of_nil in Hin|].
    change (String.concat sep (y :: z :: l))
      with (y +:+ sep +:+ String.concat sep (z :: l)).
    by apply contains_app_r, contains_app_r, IH.
Qed.

Lemma ordered_keys_all (hint keys : list string) (k : string) :
  k ∈ keys → k ∈ ordered_keys hint keys.
Proof.
  intros Hk. unfold ordered_keys. apply elem_of_app.
  destruct (decide (k ∈ remove_dups (filter (λ k, k ∈ keys) hint)));
    [by left|right].
  by apply list_elem_of_filter.
Qed.

Lemma repr_dict (m : gmap string json) :
  repr W (JObj m)
  = "{" +:+ String.concat ", "
              (dict_entries W (key_order W m) (repr W <$> m)) +:+ "}".
Proof. reflexivity. Qed.

(** The rendering of a dictionary holds an entry for each of its keys. *)
Lemma repr_dict_entry (m : gmap string json) (k : string) (v : json) :
  m !! k = Some v →
  contains (repr W (JObj m)) (repr_str W k +:+ ": " +:+ repr W v).
Proof.
  intros Hk. rewrite repr_dict.
  apply contains_app_r, contains_app_l, contains_concat.
  unfold dict_entries. apply list_elem_of_omap. exists k. split.
  - apply ordered_keys_all, list_elem_of_fmap.
    exists (k, repr W v). split; [done|].
    apply elem_of_map_to_list. by rewrite lookup_fmap, Hk.
  - by rewrite lookup_fmap, Hk.
Qed.

Lemma prefix_app (x post : string) : String.prefix x (x +:+ post) = true.
Proof.
  induction x as [|c x IH]; [by destruct post|].
  change (String c x +:+ post) with (String c (x +:+ post)).
  cbn [String.prefix]. by destruct (ascii_dec c c).
Qed.

Lemma contains_occurs (msg x : string) : contains msg x → occurs x msg = true.
Proof.
  intros (pre & post & ->). induction pre as [|c pre IH].
  - change (EmptyString +:+ x +:+ post) with (x +:+ post).
    destruct (x +:+ post) eqn:E; cbn [occurs]; rewrite <- E, prefix_app; done.
  - change (String c pre +:+ x +:+ post) with (String c (pre +:+ x +:+ post)).
    cbn [occurs]. rewrite IH. apply orb_true_r.
Qed.

(** C4.  When, after [n] pending statuses, a poll is answered with a status
    that is none of Ready, Processing, Queued and Pending, the loop raises a
    [ValueError] whose message is ["Generation failed with status: "], the
    status as [str] writes it (a status string as it is), [". Full
    response: "] and the parsed status response as [str] writes a
    dictionary: for every key of the response the message holds the entry
    [key: value] in Python's notation. *)
Theorem failed_status_is_reported (s : state) (n fuel : nat) (m : gmap string json) :
  pending_until W result_url bfl_api_key s n →
  received (status_response W result_url bfl_api_key s n) m →
  in_strs (status_of m) ["Ready"; "Processing"; "Queued"; "Pending"] = false →
  n < fuel →
  ∃ msg, poll_loop W fuel result_url bfl_api_key s
         = (Raise (ValueError msg), rounds result_url bfl_api_key (S n) s)
       ∧ msg = "Generation failed with status: " +:+ py_str W (status_of m)
               +:+ ". Full response: " +:+ repr W (JObj m)
       ∧ contains msg (py_str W (status_of m))
       ∧ contains msg (py_str W (JObj m))
       ∧ (∀ st, status_of m = JStr st → contains msg st)
       ∧ (∀ key value, m !! key = Some value →
            contains msg (repr_str W key +:+ ": " +:+ repr W value)).
Proof.
  intros Hp Hm Hout Hfuel.
  rewrite in_strs_cons in Hout. apply orb_false_iff in Hout as [Hready Hpend].
  eexists. split; [|split; [reflexivity|split; [|split; [|split]]]].
  - replace fuel with (n + S (fuel - S n)) by lia.
    rewrite loop_pending_prefix by done. cbn [poll_loop].
    replace (S n) with (n + 1) by lia. rewrite rounds_add.
    apply round_failed; [|done..].
    by rewrite answers_after, Nat.add_0_r.
  - by eexists _, _.
  - exists ("Generation failed with status: " +:+ py_str W (status_of m)
            +:+ ". Full response: "), EmptyString.
    by rewrite append_nil_r, !append_assoc.
  - intros st Hst. rewrite Hst. by eexists _, _.
  - intros key value Hkey.
    by apply contains_app_r, contains_app_r, contains_app_r, repr_dict_entry.
Qed.

End Failure.

Lemma failed_status_is_reported_witness :
  ∃ msg, poll_loop Sample.failing_job 2 Sample.status_url "bfl-key" (Sample.start ∅)
         = (Raise (ValueError msg),
            rounds Sample.status_url "bfl-key" 2 (Sample.start ∅))
       ∧ contains msg "Error"
       ∧ msg = "Generation failed with status: Error. Full response: {'status': 'Error'}".
Proof.
  destruct (failed_status_is_reported Sample.failing_job Sample.status_url "bfl-key"
              (Sample.start ∅) 1 2 {[ "status" := JStr "Error" ]})
    as (msg & Hrun & Hmsg & _ & _ & Hst & _).
  - intros [|j] Hj; [|lia]. eexists. split; [sample_received|reflexivity].
  - sample_received.
  - reflexivity.
  - lia.
  - exists msg. split; [exact Hrun|]. split; [by apply Hst|].
    rewrite Hmsg. vm_compute. reflexivity.
Defined.

(** C4 as the specification words it fails on the code: the message of the
    error does not hold the body of the status response as it came over the
    wire.  The provider answers the second poll with the body
    [{"status": "Error"}]; the message ends with [{'status': 'Error'}]. *)
Lemma message_lacks_the_raw_body :
  ∃ resp msg,
    status_response Sample.failing_job Sample.status_url "bfl-key"
      (Sample.start ∅) 1 = inr resp
    ∧ body resp = inr (Sample.status_json "Error")
    ∧ poll_loop Sample.failing_job 2 Sample.status_url "bfl-key" (Sample.start ∅)
      = (Raise (ValueError msg),
         rounds Sample.status_url "bfl-key" 2 (Sample.start ∅))
    ∧ contains msg "Error"
    ∧ ¬ contains msg (text resp).
Proof.
  eexists _, _. split; [reflexivity|]. split; [reflexivity|].
  split; [vm_compute; reflexivity|]. split.
  - by exists "Generation failed with status: ", ". Full response: {'status': 'Error'}".
  - intros Hin%contains_occurs. vm_compute in Hin. discriminate.
Qed.

(** ** The submission *)

Section KeyFacts.

Context {Raster : Type} (W : World Raster) (H : Host).

(** [load_api_key_from_file], evaluated. *)
Lemma load_api_key_from_file_run filename s :
  load_api_key_from_file W H filename s
  = (Ret (key_in_file W H filename s),
     if bool_decide (key_file_path W H filename ∈ files s) then
       match read_text H (key_file_path W H filename) with
       | inl e => printed ("Warning: Failed to read API key from file: "
                             +:+ error_message e) s
       | inr _ => s
       end
     else s).
Proof.
  unfold load_api_key_from_file, key_in_file, key_file_path, path_exists,
    try_except, printed.
  run. case_bool_decide; [|done].
  destruct (read_text H _) as [e|text]; run; [done|].
  by destruct (negb _).
Qed.

Lemma key_in_file_files filename s s' :
  files s' = files s → key_in_file W H filename s' = key_in_file W H filename s.
Proof. intros Hf. unfold key_in_file. by rewrite Hf. Qed.

Lemma key_in_file_truthy filename s :
  key_in_file W H filename s = None ∨ truthy_opt (key_in_file W H filename s) = true.
Proof.
  unfold key_in_file. case_bool_decide; [|by left].
  destruct (read_text H _) as [e|text]; [by left|].
  destruct (negb _) eqn:E; [|by left]. right. done.
Qed.

Lemma load_bfl_api_key_run environ s :
  load_bfl_api_key W H environ s
  = if truthy_opt (environ !! "BFL_API_KEY")
    then (Ret (environ !! "BFL_API_KEY"), s)
    else load_api_key_from_file W H "bfl_api_key.txt" s.
Proof.
  unfold load_bfl_api_key, getenv.
  by destruct (truthy_opt (environ !! "BFL_API_KEY")).
Qed.

End KeyFacts.

Section BflKey.

Context {Raster : Type} (W : World Raster).

(** With a key in sight, the lookup returns it and prints nothing. *)
Lemma bfl_key_resolved api_key key s :
  resolved_key W api_key key s → bfl_key W api_key s = (Ret key, s).
Proof.
  intros [Hne Hkey]. apply String.eqb_neq in Hne. unfold bfl_key.
  destruct Hkey as [->|[Hflag [Henv|[Henv Hfile]]]].
  - simpl. rewrite Hne. simpl.
    unfold mbind, M_bind, mret, M_ret. simpl. by rewrite Hne.
  - rewrite Hflag. erewrite bind_ret; last first.
    { rewrite load_bfl_api_key_run, Henv. simpl. rewrite Hne. reflexivity. }
    simpl. by rewrite Hne.
  - rewrite Hflag. erewrite bind_ret; last first.
    { rewrite load_bfl_api_key_run, Henv, load_api_key_from_file_run, Hfile.
      reflexivity. }
    simpl. rewrite Hne. simpl.
    unfold key_in_file in Hfile.
    case_bool_decide; [|done]. by destruct (read_text _ _).
Qed.

(** Without one, it raises, after the warning of an unreadable key file. *)
Lemma bfl_key_missing api_key s :
  no_bfl_key W api_key s →
  bfl_key W api_key s
  = (Raise (ValueError no_key_message),
     (load_api_key_from_file W (local_host W) "bfl_api_key.txt" s).2).
Proof.
  intros (Hflag & Henv & Hfile). unfold bfl_key. rewrite Hflag.
  rewrite (bind_ret _ _ s None
             (load_api_key_from_file W (local_host W) "bfl_api_key.txt" s).2).
  - done.
  - rewrite load_bfl_api_key_run, Henv, load_api_key_from_file_run, Hfile.
    reflexivity.
Qed.

End BflKey.

Section SubmissionFacts.

Context {Raster : Type} (W : World Raster).

(** Up to the request id check. *)
Ltac submit_begin Hpost Hok Hbody :=
  unfold submit, post; run; rewrite Hpost; run;
  match goal with
  | |- context [bool_decide (status_code ?r ≠ 200)] =>
      destruct (bool_decide (status_code r ≠ 200)); run
  end;
  rewrite raise_for_status_ok by done;
  unfold response_json; rewrite Hbody; run.

Lemma submit_ret url key data s resp m id :
  requests_post W url (json_headers key) data = inr resp →
  http_ok resp → body resp = inr (JObj m) →
  m !! "id" = Some id → truthy id = true →
  submit W url key data s
  = (Ret ("https://api.us1.bfl.ai/v1/get_result?id=" +:+ py_str W id),
     posted url key data resp s).
Proof.
  intros Hpost Hok Hbody Hid Htr. unfold posted.
  submit_begin Hpost Hok Hbody; rewrite Hid; simpl; rewrite Htr; simpl;
    by rewrite <- ?app_assoc.
Qed.

Lemma submit_no_id url key data s resp m :
  requests_post W url (json_headers key) data = inr resp →
  http_ok resp → body resp = inr (JObj m) →
  truthy (default JNull (m !! "id")) = false →
  submit W url key data s
  = (Raise (ValueError "No request ID returned from BFL API"),
     posted url key data resp s).
Proof.
  intros Hpost Hok Hbody Hid. unfold posted.
  submit_begin Hpost Hok Hbody; rewrite Hid; simpl; by rewrite <- ?app_assoc.
Qed.

(** After a successful submission [bfl_generate_image] is the poll loop. *)
Lemma bfl_generate_image_submitted fuel prompt api_key model aspect_ratio seed
    safety_tolerance output_format s key resp m id :
  let data := generate_data prompt aspect_ratio output_format safety_tolerance seed in
  resolved_key W api_key key s →
  requests_post W (generate_url model) (json_headers key) data = inr resp →
  http_ok resp → body resp = inr (JObj m) →
  m !! "id" = Some id → truthy id = true →
  bfl_generate_image W fuel prompt api_key model aspect_ratio seed
    safety_tolerance output_format s
  = poll_loop W fuel ("https://api.us1.bfl.ai/v1/get_result?id=" +:+ py_str W id)
      key (waiting (posted (generate_url model) key data resp s)).
Proof.
  intros data Hkey Hpost Hok Hbody Hid Htr. unfold bfl_generate_image.
  erewrite bind_ret by (by apply bfl_key_resolved).
  erewrite bind_ret by (by eapply submit_ret).
  reflexivity.
Qed.

(** The same for [bfl_edit_image], once the upload is prepared. *)
Lemma bfl_edit_image_submitted fuel input_image prompt api_key model seed
    safety_tolerance output_format s key data im s1 resp m id :
  resolved_key W api_key key s →
  prepare_upload W prompt output_format safety_tolerance seed input_image s
    = (Ret (data, im), s1) →
  requests_post W (edit_url model) (json_headers key) (JObj data) = inr resp →
  http_ok resp → body resp = inr (JObj m) →
  m !! "id" = Some id → truthy id = true →
  bfl_edit_image W fuel input_image prompt api_key model seed
    safety_tolerance output_format s
  = poll_loop W fuel ("https://api.us1.bfl.ai/v1/get_result?id=" +:+ py_str W id)
      key (waiting (posted (edit_url model) key (JObj data) resp s1)).
Proof.
  intros Hkey Hprep Hpost Hok Hbody Hid Htr. unfold bfl_edit_image.
  erewrite bind_ret by (by apply bfl_key_resolved).
  erewrite bind_ret by exact Hprep. simpl.
  erewrite bind_ret by (by eapply submit_ret).
  reflexivity.
Qed.

Lemma prepare_upload_quiet prompt output_format safety_tolerance seed input_image :
  emits (λ e, is_poll_or_sleep e = false)
    (prepare_upload W prompt output_format safety_tolerance seed input_image).
Proof. unfold prepare_upload. grow. Qed.

Lemma posted_quiet url key data resp s :
  ∃ evs, trace (posted url key data resp s) = trace s ++ evs
         ∧ Forall (λ e, is_poll_or_sleep e = false) evs.
Proof.
  eexists. split; [reflexivity|].
  case_bool_decide; repeat constructor.
Qed.

(** C5.  When the POST is answered without error by a JSON object in which
    ["id"] is missing or empty, [bfl_generate_image] and [bfl_edit_image]
    raise [ValueError("No request ID returned from BFL API")], and up to
    then they have neither slept nor sent any GET request. *)
Theorem missing_request_id_is_fatal fuel api_key key model resp m s :
  resolved_key W api_key key s →
  http_ok resp → body resp = inr (JObj m) →
  truthy (default JNull (m !! "id")) = false →
  (∀ prompt aspect_ratio seed safety_tolerance output_format,
     requests_post W (generate_url model) (json_headers key)
       (generate_data prompt aspect_ratio output_format safety_tolerance seed)
       = inr resp →
     ∃ s' evs,
       bfl_generate_image W fuel prompt api_key model aspect_ratio seed
         safety_tolerance output_format s
       = (Raise (ValueError "No request ID returned from BFL API"), s')
       ∧ trace s' = trace s ++ evs
       ∧ Forall (λ e, is_poll_or_sleep e = false) evs)
  ∧ (∀ input_image prompt seed safety_tolerance output_format data im s1,
       prepare_upload W prompt output_format safety_tolerance seed input_image s
         = (Ret (data, im), s1) →
       requests_post W (edit_url model) (json_headers key) (JObj data) = inr resp →
       ∃ s' evs,
         bfl_edit_image W fuel input_image prompt api_key model seed
           safety_tolerance output_format s
         = (Raise (ValueError "No request ID returned from BFL API"), s')
         ∧ trace s' = trace s ++ evs
         ∧ Forall (λ e, is_poll_or_sleep e = false) evs).
Proof.
  intros Hkey Hok Hbody Hid. split.
  - intros prompt aspect_ratio seed safety_tolerance output_format Hpost.
    destruct (posted_quiet (generate_url model) key
                (generate_data prompt aspect_ratio output_format safety_tolerance seed)
                resp s) as (evs & Htr & Hall).
    exists (posted (generate_url model) key
              (generate_data prompt aspect_ratio output_format safety_tolerance seed)
              resp s), evs.
    split; [|by split].
    unfold bfl_generate_image.
    erewrite bind_ret by (by apply bfl_key_resolved).
    erewrite bind_raise; [done|]. by eapply submit_no_id.
  - intros input_image prompt seed safety_tolerance output_format data im s1
      Hprep Hpost.
    destruct (prepare_upload_quiet prompt output_format safety_tolerance seed
                input_image s) as (evs1 & Htr1 & Hall1).
    rewrite Hprep in Htr1. simpl in Htr1.
    destruct (posted_quiet (edit_url model) key (JObj data) resp s1)
      as (evs & Htr & Hall).
    exists (posted (edit_url model) key (JObj data) resp s1), (evs1 ++ evs).
    split; [|split].
    + unfold bfl_edit_image.
      erewrite bind_ret by (by apply bfl_key_resolved).
      erewrite bind_ret by exact Hprep. simpl.
      erewrite bind_raise; [done|]. by eapply submit_no_id.
    + by rewrite Htr, Htr1, app_assoc.
    + by apply Forall_app.
Qed.

End SubmissionFacts.

Lemma missing_request_id_is_fatal_witness :
  ∃ s' evs,
    bfl_generate_image Sample.no_job 10 "a lighthouse at dusk" None "flux-dev"
      "1:1" None 6 "jpeg" (Sample.start ∅)
    = (Raise (ValueError "No request ID returned from BFL API"), s')
    ∧ trace s' = [] ++ evs
    ∧ Forall (λ e, is_poll_or_sleep e = false) evs.
Proof.
  apply (missing_request_id_is_fatal Sample.no_job 10 None "bfl-key" "flux-dev"
           (Sample.ok_response (JObj {[ "message" := JStr "accepted" ]}))
           {[ "message" := JStr "accepted" ]} (Sample.start ∅)).
  - split; [discriminate|]. right. split; [reflexivity|]. by left.
  - unfold http_ok. simpl. lia.
  - reflexivity.
  - reflexivity.
  - reflexivity.
Defined.

(** ** Paths *)

Section Paths.

Context {Raster : Type} (W : World Raster).

(** C9.  [resolve_input_path] returns [None], URLs and absolute paths as
    they are.  A relative path with a base directory becomes the joined path
    when that path exists and stays as it is when it does not; without a
    base directory it stays as it is.  The call has no effect. *)
Theorem resolve_input_path_spec (s : state) :
  (∀ base_dir, resolve_input_path W None base_dir s = (Ret None, s))
  ∧ (∀ path base_dir,
       is_url path = true →
       resolve_input_path W (Some path) base_dir s = (Ret (Some path), s))
  ∧ (∀ path base_dir,
       isabs W path = true →
       resolve_input_path W (Some path) base_dir s = (Ret (Some path), s))
  ∧ (∀ path dir,
       is_url path = false → isabs W path = false → dir ≠ EmptyString →
       (join W dir path ∈ files s →
        resolve_input_path W (Some path) (Some dir) s
        = (Ret (Some (join W dir path)), s))
       ∧ (join W dir path ∉ files s →
          resolve_input_path W (Some path) (Some dir) s = (Ret (Some path), s)))
  ∧ (∀ path base_dir,
       base_dir = None ∨ base_dir = Some EmptyString →
       resolve_input_path W (Some path) base_dir s = (Ret (Some path), s)).
Proof.
  unfold is_url. split; [done|]. split; [|split; [|split]].
  - intros path base_dir Hurl. unfold resolve_input_path. by rewrite Hurl.
  - intros path base_dir Habs. unfold resolve_input_path. rewrite Habs.
    by destruct (_ || _).
  - intros path dir Hurl Habs Hdir.
    assert (Hstep : resolve_input_path W (Some path) (Some dir) s
                    = (if bool_decide (join W dir path ∈ files s)
                       then (Ret (Some (join W dir path)), s)
                       else (Ret (Some path), s))).
    { unfold resolve_input_path. rewrite Hurl, Habs. simpl.
      destruct (String.eqb dir EmptyString) eqn:E;
        [by apply String.eqb_eq in E|]. simpl.
      unfold mbind, M_bind, path_exists. by case_bool_decide. }
    rewrite Hstep. split; intros Hin.
    + by rewrite bool_decide_eq_true_2.
    + by rewrite bool_decide_eq_false_2.
  - intros path base_dir Hb. unfold resolve_input_path.
    destruct (_ || _); [done|]. destruct (isabs W path); [done|].
    by destruct Hb as [-> | ->].
Qed.

Lemma resolve_input_path_some path base_dir s :
  ∃ resolved,
    resolve_input_path W (Some path) base_dir s = (Ret (Some resolved), s).
Proof.
  unfold resolve_input_path.
  destruct (_ || _); [by eauto|]. destruct (isabs W path); [by eauto|].
  destruct base_dir as [dir|]; [|by eauto].
  destruct (truthy_opt (Some dir)); [|by eauto].
  unfold mbind, M_bind, path_exists. simpl. case_bool_decide; by eauto.
Qed.

Lemma process_image_local path s :
  is_url path = false →
  (∃ im, process_image W (Some path) s = (Ret im, s))
  ∨ (∃ e, process_image W (Some path) s = (Raise e, s)).
Proof.
  unfold is_url, process_image. intros ->.
  unfold mbind, M_bind, path_exists. simpl.
  case_bool_decide; [|by eauto].
  destruct (image_open_file W path); by eauto.
Qed.

Lemma process_image_url path s :
  is_url path = true →
  (∃ im, process_image W (Some path) s = (Ret im, downloaded path s))
  ∨ (∃ e, process_image W (Some path) s = (Raise e, downloaded path s)).
Proof.
  unfold is_url, process_image, downloaded. intros ->.
  unfold try_except, get. run.
  destruct (requests_get _ _ _ _) as [[cls msg]|r]; run.
  { right. destruct (_ || _); by eauto. }
  destruct (decide (400 ≤ status_code r < 600)) as [Hbad|Hok].
  { match goal with |- context [raise_for_status r ?s1] =>
      destruct (raise_for_status_not_ok r s1) as [[cls msg] ->]; [by intros []|]
    end.
    right. destruct (_ || _); by eauto. }
  rewrite raise_for_status_ok by done.
  unfold image_from_bytes.
  destruct (image_open_bytes _ _) as [[cls msg]|im]; run; [|by eauto].
  right. destruct (_ || _); by eauto.
Qed.

End Paths.

Lemma resolve_input_path_spec_witness :
  resolve_input_path Sample.web_image (Some "cat.png") (Some "/work")
    (Sample.start {[ "/work/cat.png" ]})
  = (Ret (Some "/work/cat.png"), Sample.start {[ "/work/cat.png" ]}).
Proof.
  apply (proj1 (proj2 (proj2 (proj2
           (resolve_input_path_spec Sample.web_image
              (Sample.start {[ "/work/cat.png" ]}))))) "cat.png" "/work").
  - reflexivity.
  - reflexivity.
  - discriminate.
  - change ("/work/cat.png" ∈ ({[ "/work/cat.png" ]} : gset string)).
    by apply elem_of_singleton_2.
Defined.

(** ** The variations command and the BFL provider *)

Section VariationsBfl.

Context {Raster : Type} (W : World Raster).

(** C6, as the code has it.  With [--provider bfl] the variations command
    always ends with exit code 1 after printing one line.  The input image
    is loaded first: when the resolved input is a URL this costs one GET
    request, otherwise nothing is sent.  The line is the unsupported-operation
    message when the image could be loaded, and the loading error
    otherwise. *)
Theorem variations_refused_for_bfl (args : variations_args) (s : state) :
  arg_provider args = "bfl" →
  ∃ resolved line,
    resolve_input_path W (Some (arg_input args)) (arg_output_dir args) s
      = (Ret (Some resolved), s)
    ∧ variations_command W args s
      = (Exit 1, printed line (if is_url resolved then downloaded resolved s else s))
    ∧ match (process_image W (Some resolved) s).1 with
      | Ret _ => line = unsupported_message
      | Raise e => line = "Error: " +:+ error_message e
      | Exit _ | Fuel => False
      end.
Proof.
  intros Hbfl.
  destruct (resolve_input_path_some W (arg_input args) (arg_output_dir args) s)
    as [resolved Hres].
  exists resolved.
  assert (Hcases :
    (∃ im, process_image W (Some resolved) s
           = (Ret im, if is_url resolved then downloaded resolved s else s))
    ∨ (∃ e, process_image W (Some resolved) s
            = (Raise e, if is_url resolved then downloaded resolved s else s))).
  { destruct (is_url resolved) eqn:Hurl.
    - by apply process_image_url.
    - by apply process_image_local. }
  unfold variations_command, try_except.
  erewrite bind_ret by exact Hres.
  destruct Hcases as [[im Him]|[e He]].
  - exists unsupported_message. rewrite Him. split; [done|]. split; [|done].
    erewrite bind_ret by exact Him. by rewrite Hbfl.
  - exists ("Error: " +:+ error_message e). rewrite He. split; [done|].
    split; [|done]. erewrite bind_raise by exact He. reflexivity.
Qed.

End VariationsBfl.

Lemma variations_refused_for_bfl_witness :
  ∃ resolved line,
    resolve_input_path Sample.web_image (Some "https://example.com/cat.png") None
      (Sample.start ∅)
      = (Ret (Some resolved), Sample.start ∅)
    ∧ variations_command Sample.web_image Sample.bfl_variations_of_url (Sample.start ∅)
      = (Exit 1, printed line (if is_url resolved
                               then downloaded resolved (Sample.start ∅)
                               else Sample.start ∅))
    ∧ match (process_image Sample.web_image (Some resolved) (Sample.start ∅)).1 with
      | Ret _ => line = unsupported_message
      | Raise e => line = "Error: " +:+ error_message e
      | Exit _ | Fuel => False
      end.
Proof.
  apply (variations_refused_for_bfl Sample.web_image Sample.bfl_variations_of_url
           (Sample.start ∅)).
  reflexivity.
Defined.

(** C6, as the claim has it, fails: when the input is a URL the command
    downloads it before it looks at the provider. *)
Lemma variations_bfl_downloads_url_input :
  variations_command Sample.web_image Sample.bfl_variations_of_url (Sample.start ∅)
  = (Exit 1,
     State 0 [EvGet (JStr "https://example.com/cat.png") [];
              EvPrint unsupported_message] ∅ 0)
  ∧ ¬ refuses_offline Sample.web_image Sample.bfl_variations_of_url (Sample.start ∅).
Proof.
  assert (Hrun : variations_command Sample.web_image Sample.bfl_variations_of_url
                   (Sample.start ∅)
                 = (Exit 1,
                    State 0 [EvGet (JStr "https://example.com/cat.png") [];
                             EvPrint unsupported_message] ∅ 0))
    by (vm_compute; reflexivity).
  split; [exact Hrun|].
  intros (s' & evs & Hcmd & Htr & _ & Hall).
  rewrite Hrun in Hcmd. injection Hcmd as <-. simpl in Htr. subst evs.
  by apply Forall_cons_1 in Hall as [Hget _].
Qed.

(** ** Temporary files *)

Section TempFiles.

Context {Raster : Type} (W : World Raster).

Lemma decode_image_data_keeps d : preserves same_files (decode_image_data W d).
Proof. unfold decode_image_data. grow. Qed.

Lemma decode_image_data_ends d : ends (decode_image_data W d).
Proof. unfold decode_image_data. halts. Qed.

Lemma decode_all_keeps data : preserves same_files (decode_all W data).
Proof.
  induction data as [|d data IH]; cbn [decode_all]; grow.
Qed.

Lemma decode_all_ends data : ends (decode_all W data).
Proof.
  induction data as [|d data IH]; cbn [decode_all]; halts.
Qed.

(** A [finally] block that returns is run after a body that ends. *)
Lemma try_finally_run {A} (body : M A) (fin : M unit) s s2 :
  ends body → fin (body s).2 = (Ret (), s2) →
  try_finally body fin s = ((body s).1, s2).
Proof.
  intros Hends Hfin. specialize (Hends s). unfold try_finally.
  destruct (body s) as [[a|e|n|] s1]; simpl in *; by rewrite ?Hfin.
Qed.

Lemma added (path : string) (s : state) : path ∈ files (wrote path s).
Proof. simpl. set_solver. Qed.

Lemma remove_added (path : string) (s : state) :
  files (wrote path s) ∖ {[path]} ⊆ files s.
Proof. simpl. set_solver. Qed.

(** [save_file], evaluated. *)
Lemma save_file_run im path fmt s :
  save_file W im path fmt s
  = match save_error W im path fmt with
    | None => (Ret (), wrote path s)
    | Some e => (Raise e, s)
    end.
Proof.
  unfold save_file, save_error. run.
  destruct (save_handler W fmt) as [e|[]]; [done|]. run.
  destruct (save_open W path) as [e|[]]; [done|]. run.
  by destruct (image_encode W im fmt None).
Qed.

Lemma save_file_ok im path fmt s :
  save_error W im path fmt = None →
  save_file W im path fmt s = (Ret (), wrote path s).
Proof. intros Hsave. by rewrite save_file_run, Hsave. Qed.

Lemma save_file_fails im path fmt s e :
  save_error W im path fmt = Some e →
  save_file W im path fmt s = (Raise e, s).
Proof. intros Hsave. by rewrite save_file_run, Hsave. Qed.

Lemma open_rb_ok path s :
  path ∈ files s → open_rb path s = (Ret (PFile path), s).
Proof.
  intros Hin. unfold open_rb, path_exists. run.
  by rewrite bool_decide_eq_true_2.
Qed.

Lemma os_remove_ok path s :
  path ∈ files s → os_remove path s = (Ret (), removed path s).
Proof.
  intros Hin. unfold os_remove, path_exists. run.
  by rewrite bool_decide_eq_true_2.
Qed.

(** The [finally] block of [create_variations], and of [edit_image] without
    a mask, after a body that does not touch the files. *)
Lemma cleanup_run {A} (body : M A) (params : gmap string param) path s f :
  preserves same_files body → ends body →
  params !! "image" = Some f → path ∈ files s →
  try_finally body (close_entry params "image";; os_remove path) s
  = ((body s).1, removed path (body s).2).
Proof.
  intros Hkeep Hends Himg Hin. apply try_finally_run; [done|].
  unfold close_entry. rewrite Himg. unfold close. run.
  apply os_remove_ok. by rewrite (Hkeep s).
Qed.

(** [create_variations] leaves no file behind, however it ends. *)
Lemma create_variations_leaves_no_file im api_key api_base n size s :
  files (create_variations W im api_key api_base n size s).2 ⊆ files s.
Proof.
  unfold create_variations, make_client.
  destruct (openai_client W _ _) as [e|[]]; [done|].
  unfold mbind at 1, M_bind at 1; simpl.
  unfold mbind at 1, M_bind at 1; simpl. fold (drew_uuid s).
  fold (temp_input_path W s).
  destruct (save_error W im (temp_input_path W s) "PNG") as [e|] eqn:Henc.
  { erewrite bind_raise by (by apply save_file_fails). done. }
  erewrite bind_ret by (by eapply save_file_ok).
  erewrite bind_ret by (apply open_rb_ok, added).
  erewrite cleanup_run.
  - simpl.
    match goal with |- context [files (?body ?s0).2] =>
      assert (Hkeep : preserves same_files body)
        by (unfold images_create_variation; grow; apply decode_all_keeps);
      rewrite (Hkeep s0)
    end.
    exact (remove_added _ (drew_uuid s)).
  - unfold images_create_variation. grow. apply decode_all_keeps.
  - unfold images_create_variation. halts. apply decode_all_ends.
  - destruct (negb _); by simplify_map_eq.
  - apply added.
Qed.

(** So does [edit_image] when there is no mask. *)
Lemma edit_image_leaves_no_file_without_mask im prompt api_key api_base
    quality size s :
  files (edit_image W im prompt None api_key api_base quality size s).2 ⊆ files s.
Proof.
  unfold edit_image, make_client.
  destruct (openai_client W _ _) as [e|[]]; [done|].
  unfold mbind at 1, M_bind at 1; simpl.
  unfold mbind at 1, M_bind at 1; simpl. fold (drew_uuid s).
  fold (temp_input_path W s).
  destruct (save_error W im (temp_input_path W s) "PNG") as [e|] eqn:Henc.
  { erewrite bind_raise by (by apply save_file_fails). done. }
  erewrite bind_ret by (by eapply save_file_ok).
  erewrite bind_ret by (apply open_rb_ok, added).
  unfold mbind at 1, M_bind at 1; simpl.
  match goal with |- context [try_finally ?body _ ?s0] =>
    assert (Hkeep : preserves same_files body)
      by (unfold images_edit, first_data; grow);
    assert (Hends : ends body) by (unfold images_edit, first_data; halts);
    pose proof (Hkeep s0) as Hfiles
  end.
  erewrite try_finally_run; [|done|]; cycle 1.
  - unfold close_entry.
    match goal with |- context [?params !! "image"] =>
      assert (Himg : params !! "image" = Some (PFile (temp_input_path W s)))
        by (repeat destruct (negb _); by simplify_map_eq);
      rewrite Himg
    end.
    erewrite bind_ret by reflexivity.
    erewrite bind_ret; [reflexivity|].
    apply os_remove_ok. rewrite Hfiles. apply added.
  - simpl. rewrite Hfiles. exact (remove_added _ (drew_uuid s)).
Qed.

(** C7 fails on the code.  When the client can be built and the input image
    is written, but the mask cannot be saved as PNG ([mask_image.save]
    raises, because the mode cannot be encoded or because the file cannot
    be opened), [edit_image] raises that error and the temporary input file
    is still there: the save of the mask comes before the [try]. *)
Theorem edit_image_leaks_input_when_mask_fails im mask prompt api_key api_base
    quality size s e :
  client_ok W api_key api_base →
  save_error W im (temp_input_path W s) "PNG" = None →
  save_error W mask (temp_mask_path W s) "PNG" = Some e →
  ∃ s', edit_image W im prompt (Some mask) api_key api_base quality size s
        = (Raise e, s')
        ∧ files s' = {[temp_input_path W s]} ∪ files s
        ∧ trace s' = trace s ++ [EvWrite (temp_input_path W s)].
Proof.
  intros Hclient Him Hmask. unfold edit_image, make_client.
  rewrite Hclient.
  unfold mbind at 1, M_bind at 1; simpl.
  unfold mbind at 1, M_bind at 1; simpl. fold (drew_uuid s).
  fold (temp_input_path W s).
  erewrite bind_ret by (by eapply save_file_ok).
  erewrite bind_ret by (apply open_rb_ok, added).
  eexists. split; [|split].
  - erewrite bind_raise; [reflexivity|].
    erewrite bind_raise; [reflexivity|]. by apply save_file_fails.
  - reflexivity.
  - reflexivity.
Qed.

End TempFiles.

Lemma edit_image_leaks_input_when_mask_fails_witness :
  ∃ s', edit_image Sample.editing Sample.photo "make it snow"
          (Some Sample.cmyk_mask) None None "auto" "auto" (Sample.start ∅)
        = (Raise (Err "OSError" "cannot write mode CMYK as PNG"), s')
        ∧ files s' = {[ "/tmp/input_uuid-0.png" ]} ∪ ∅
        ∧ trace s' = [] ++ [EvWrite "/tmp/input_uuid-0.png"].
Proof.
  apply (edit_image_leaks_input_when_mask_fails Sample.editing Sample.photo
           Sample.cmyk_mask "make it snow" None None "auto" "auto"
           (Sample.start ∅)).
  - reflexivity.
  - reflexivity.
  - reflexivity.
Defined.

(** ** Numbered output files *)

Section Numbered.

Context {Raster : Type} (W : World Raster).

Lemma rsplit1_no_sep sep s :
  contains_char sep s = false → rsplit1 sep s = [s].
Proof.
  induction s as [|c s IH]; [done|]. cbn [contains_char rsplit1].
  intros [Hc Hs]%orb_false_iff. by rewrite IH, Hc.
Qed.

(** [rsplit] cuts at the last separator. *)
Lemma rsplit1_last sep base ext :
  contains_char sep ext = false →
  rsplit1 sep (base +:+ String sep ext) = [base; ext].
Proof.
  intros Hext. induction base as [|c base IH].
  - change (EmptyString +:+ String sep ext) with (String sep ext).
    cbn [rsplit1]. by rewrite rsplit1_no_sep, Ascii.eqb_refl.
  - change (String c base +:+ String sep ext)
      with (String c (base +:+ String sep ext)).
    cbn [rsplit1]. by rewrite IH.
Qed.

Lemma contains_char_app sep base ext :
  contains_char sep (base +:+ String sep ext) = true.
Proof.
  induction base as [|c base IH].
  - change (EmptyString +:+ String sep ext) with (String sep ext).
    cbn [contains_char]. by rewrite Ascii.eqb_refl.
  - change (String c base +:+ String sep ext)
      with (String c (base +:+ String sep ext)).
    cbn [contains_char]. by rewrite IH, orb_true_r.
Qed.

Lemma writes_app tr tr' : writes (tr ++ tr') = writes tr ++ writes tr'.
Proof.
  induction tr as [|[] tr IH]; simpl; [done|by rewrite ?IH..].
Qed.

(** The loop over the images, when every image can be saved. *)
Lemma save_variations_run base_name extension fmt i (ims : list (image Raster)) s :
  (∀ j im, ims !! j = Some im →
     save_error W im (variation_path base_name extension (i + j)) fmt = None) →
  save_variations W base_name extension fmt i ims s
  = (Ret (), saved_variations base_name extension i ims s).
Proof.
  revert i s. induction ims as [|im ims IH]; intros i s Hsave; [done|].
  cbn [save_variations saved_variations].
  erewrite bind_ret; last first.
  { apply save_file_ok. specialize (Hsave 0 im eq_refl).
    by rewrite Nat.add_0_r in Hsave. }
  erewrite bind_ret by reflexivity.
  apply IH. intros j im' Hj. specialize (Hsave (S j) im' Hj).
  by replace (S i + j) with (i + S j) by lia.
Qed.

Lemma saved_variations_writes {A} base_name extension i (ims : list A) s :
  writes (trace (saved_variations base_name extension i ims s))
  = writes (trace s)
    ++ map (variation_path base_name extension) (seq i (length ims)).
Proof.
  revert i s. induction ims as [|im ims IH]; intros i s; simpl.
  - by rewrite app_nil_r.
  - rewrite IH. simpl. rewrite !writes_app. simpl.
    by rewrite app_nil_r, <- app_assoc.
Qed.

Lemma saved_variations_files_mono {A} base_name extension i (ims : list A) s :
  files s ⊆ files (saved_variations base_name extension i ims s).
Proof.
  revert i s. induction ims as [|im ims IH]; intros i s; simpl; [done|].
  etrans; [|apply IH]. simpl. set_solver.
Qed.

Lemma saved_variations_files {A} base_name extension i (ims : list A) s j :
  j < length ims →
  variation_path base_name extension (i + j)
  ∈ files (saved_variations base_name extension i ims s).
Proof.
  revert i s j. induction ims as [|im ims IH]; intros i s j Hj; simpl in *; [lia|].
  destruct j as [|j].
  - rewrite Nat.add_0_r. apply saved_variations_files_mono. simpl. set_solver.
  - replace (i + S j) with (S i + j) by lia. apply IH. lia.
Qed.

Lemma index_before_extension_split base ext i :
  contains_char "." ext = false → contains_char "/" ext = false →
  index_before_extension (base +:+ "." +:+ ext) i
  = base +:+ "_" +:+ pretty i +:+ "." +:+ ext.
Proof.
  intros Hdot Hslash. unfold index_before_extension, without_extension,
    file_extension.
  change (base +:+ "." +:+ ext) with (base +:+ String "." ext).
  by rewrite rsplit1_last, Hslash.
Qed.

(** C8.  When the variations command is asked for a number of images other
    than one, receives the images [ims] and can save each of them, it saves
    them in order under [base_1.ext], [base_2.ext], ..., where [base] and
    [ext] are the parts of the resolved output path before and after its
    last dot, and [ext] is [png] when the path has no dot: these are the
    files it writes after the call to the provider, and they exist when it
    returns.  When the last dot is in the file name, these names are the
    output path with [_<index>] before its extension, as C8 says.  When the
    last dot is in a directory name they are not: there C8 fails on the
    code. *)
Theorem variations_are_numbered (args : variations_args) (s s0 s1 : state)
    (resolved : option string) (input_image : image Raster)
    (ims : list (image Raster)) (base ext : string) :
  let output_path :=
    resolve_output_path W (arg_output args) (arg_output_dir args) in
  arg_provider args ≠ "bfl" →
  arg_n args ≠ 1%Z →
  resolve_input_path W (Some (arg_input args)) (arg_output_dir args) s
    = (Ret resolved, s) →
  process_image W resolved s = (Ret input_image, s0) →
  create_variations W input_image (arg_api_key args) (arg_api_base args)
    (arg_n args) (arg_size args) s0 = (Ret (Several ims), s1) →
  (output_path = base +:+ "." +:+ ext ∧ contains_char "." ext = false
   ∨ contains_char "." output_path = false ∧ base = output_path ∧ ext = "png") →
  (∀ i im, ims !! i = Some im →
     save_error W im (base +:+ "_" +:+ pretty (i + 1) +:+ "." +:+ ext)
       (upper (arg_output_format args)) = None) →
  ∃ s', variations_command W args s = (Ret (), s')
        ∧ writes (trace s')
          = writes (trace s1)
            ++ map (λ i, base +:+ "_" +:+ pretty (i + 1) +:+ "." +:+ ext)
                   (seq 0 (length ims))
        ∧ (∀ i, i < length ims →
             base +:+ "_" +:+ pretty (i + 1) +:+ "." +:+ ext ∈ files s')
        ∧ (output_path = base +:+ "." +:+ ext →
           contains_char "." ext = false → contains_char "/" ext = false →
           ∀ i, base +:+ "_" +:+ pretty (i + 1) +:+ "." +:+ ext
                = index_before_extension output_path (i + 1)).
Proof.
  intros output_path Hprov Hn Hres Himg Hvar Hout Hsave.
  exists (saved_variations base ext 0 ims s1). split; [|split; [|split]].
  - unfold variations_command, try_except.
    erewrite bind_ret by exact Hres.
    erewrite bind_ret by exact Himg.
    destruct (String.eqb (arg_provider args) "bfl") eqn:E;
      [by apply String.eqb_eq in E|].
    erewrite bind_ret by exact Hvar.
    destruct (arg_n args =? 1)%Z eqn:E1; [by apply Z.eqb_eq in E1|].
    fold output_path.
    destruct Hout as [[Hout Hext]|(Hnodot & -> & ->)].
    + rewrite Hout.
      change (base +:+ "." +:+ ext) with (base +:+ String "." ext).
      rewrite rsplit1_last, contains_char_app by done.
      unfold index. simpl.
      unfold mbind at 1, M_bind at 1; simpl.
      unfold mbind at 1, M_bind at 1; simpl.
      by rewrite save_variations_run.
    + rewrite rsplit1_no_sep, Hnodot by done.
      unfold index. simpl.
      unfold mbind at 1, M_bind at 1; simpl.
      unfold mbind at 1, M_bind at 1; simpl.
      by rewrite save_variations_run.
  - apply saved_variations_writes.
  - intros i Hi. exact (saved_variations_files base ext 0 ims s1 i Hi).
  - intros -> Hdot Hslash i. by rewrite index_before_extension_split.
Qed.

End Numbered.

(** With the output [out.png] the three files are [out_1.png], [out_2.png]
    and [out_3.png].  With the output [my.dir/out] they are [my_1.dir/out],
    [my_2.dir/out] and [my_3.dir/out]: the index is in the name of the
    directory, where C8 has [my.dir/out_1]. *)
Lemma variations_are_numbered_witness :
  (∃ s', variations_command Sample.three_variations Sample.three_variations_args
           (Sample.start {[ "cat.png" ]})
         = (Ret (), s')
         ∧ writes (trace s')
           = ["/tmp/input_uuid-0.png"; "out_1.png"; "out_2.png"; "out_3.png"]
         ∧ (∀ i, i < 3 → "out" +:+ "_" +:+ pretty (i + 1) +:+ "." +:+ "png" ∈ files s')
         ∧ index_before_extension "out.png" 1 = "out_1.png")
  ∧ (∃ s', variations_command Sample.three_variations
             (Sample.variations_to "my.dir/out") (Sample.start {[ "cat.png" ]})
           = (Ret (), s')
           ∧ writes (trace s')
             = ["/tmp/input_uuid-0.png"; "my_1.dir/out"; "my_2.dir/out";
                "my_3.dir/out"]
           ∧ index_before_extension "my.dir/out" 1 = "my.dir/out_1").
Proof.
  split.
  - destruct (variations_are_numbered Sample.three_variations
                Sample.three_variations_args
                (Sample.start {[ "cat.png" ]}) (Sample.start {[ "cat.png" ]})
                (create_variations Sample.three_variations Sample.photo None None 3
                   "1024x1024" (Sample.start {[ "cat.png" ]})).2
                (Some "cat.png") Sample.photo
                [Image "RGB" 1 1 (); Image "RGB" 2 1 (); Image "RGB" 3 1 ()]
                "out" "png")
      as (s' & Hrun & Hw & Hf & Hname).
    + discriminate.
    + discriminate.
    + reflexivity.
    + vm_compute. reflexivity.
    + vm_compute. reflexivity.
    + left. split; reflexivity.
    + intros [|[|[|i]]] im Him; simpl in Him; simplify_eq; reflexivity.
    + exists s'. split; [exact Hrun|]. split; [|split; [exact Hf|]].
      * rewrite Hw. vm_compute. reflexivity.
      * symmetry. exact (Hname eq_refl eq_refl eq_refl 0).
  - destruct (variations_are_numbered Sample.three_variations
                (Sample.variations_to "my.dir/out")
                (Sample.start {[ "cat.png" ]}) (Sample.start {[ "cat.png" ]})
                (create_variations Sample.three_variations Sample.photo None None 3
                   "1024x1024" (Sample.start {[ "cat.png" ]})).2
                (Some "cat.png") Sample.photo
                [Image "RGB" 1 1 (); Image "RGB" 2 1 (); Image "RGB" 3 1 ()]
                "my" "dir/out")
      as (s' & Hrun & Hw & _).
    + discriminate.
    + discriminate.
    + reflexivity.
    + vm_compute. reflexivity.
    + vm_compute. reflexivity.
    + left. split; reflexivity.
    + intros [|[|[|i]]] im Him; simpl in Him; simplify_eq; reflexivity.
    + exists s'. split; [exact Hrun|]. split; [|reflexivity].
      rewrite Hw. vm_compute. reflexivity.
Defined.

(** ** What [bfl_edit_image] uploads *)

Section Upload.

Context {Raster : Type} (W : World Raster).

Lemma bind_ret_inv {A B} (c : M A) (k : A → M B) s b s2 :
  (c ≫= k) s = (Ret b, s2) →
  ∃ a s1, c s = (Ret a, s1) ∧ k a s1 = (Ret b, s2).
Proof.
  unfold mbind, M_bind. destruct (c s) as [[a| | |] s1]; try done. by eauto.
Qed.







Lemma loop_emits (P : event → Prop) fuel result_url bfl_api_key :
  P (EvSleep 1500) → (∀ u h, P (EvGet u h)) →
  emits P (poll_loop W fuel result_url bfl_api_key).
Proof.
  intros HS HG. induction fuel as [|fuel IH]; [apply preserves_fuel, _|].
  cbn [poll_loop]. by apply round_grows.
Qed.


End Upload.




(** ** Sample runs *)

(** The poster is pasted on white and reduced to 1536 by 1152. *)
Example poster_is_reduced :
  match (prepare_upload Sample.three_polls "make it snow" "jpeg" 2 None
           Sample.poster (Sample.start ∅)) with
  | (Ret (_, im), s) =>
      im = Image "RGB" 1536 1152 ()
      ∧ trace s = [EvPrint "Input image size: (4000, 3000)";
                   EvPrint "Resized image to: (1536, 1152)"]
  | _ => False
  end.
Proof. vm_compute. done. Qed.

(** A whole edit: submit, three polls, one download. *)
Example edit_poster :
  bfl_edit_image Sample.three_polls 10 Sample.poster "make it snow" None
    "flux-kontext-pro" None 2 "jpeg" (Sample.start ∅)
  = (Ret (Image "RGB" 3 1 ()),
     fetched (JStr Sample.sample_url)
       (rounds Sample.status_url "bfl-key" 3
          (waiting
             (posted "https://api.us1.bfl.ai/v1/flux-kontext-pro" "bfl-key"
                (JObj (edit_data "make it snow"
                         (string_of_list_byte [Byte.x89]) "jpeg" 2 None))
                (Sample.ok_response (Sample.job_json "job-1"))
                (printed "Resized image to: (1536, 1152)"
                   (printed "Input image size: (4000, 3000)"
                      (Sample.start ∅))))))).
Proof. vm_compute. reflexivity. Qed.

(** The download fails: the loop raises what [raise_for_status] raises. *)
Example gone_raises :
  (poll_loop Sample.ready_but_gone 4 Sample.status_url "bfl-key" (Sample.start ∅)).1
  = Raise (HTTPError
      "404 Client Error: Not Found for url: https://delivery.bfl.ai/sample.jpeg").
Proof. vm_compute. reflexivity. Qed.

(** A missing input file: the command exits with code 1, but the line it
    prints is the loading error. *)
Example variations_bfl_missing_input :
  variations_command Sample.web_image
    (VariationsArgs "cat.png" "out.png" "bfl" 1 "1024x1024" "png" None None None)
    (Sample.start ∅)
  = (Exit 1, printed "Error: Image file not found: cat.png" (Sample.start ∅)).
Proof. vm_compute. reflexivity. Qed.

(** Output paths without a usable extension. *)
Example rsplit_examples :
  rsplit1 "." "out.png" = ["out"; "png"]
  ∧ rsplit1 "." "archive.tar.gz" = ["archive.tar"; "gz"]
  ∧ rsplit1 "." "out" = ["out"]
  ∧ rsplit1 "." "my.dir/out" = ["my"; "dir/out"].
Proof. repeat split; reflexivity. Qed.

(** Relative inputs are looked up under the base directory first. *)
Example resolve_examples :
  resolve_input_path Sample.web_image (Some "cat.png") (Some "/work")
    (Sample.start {[ "/work/cat.png" ]})
  = (Ret (Some "/work/cat.png"), Sample.start {[ "/work/cat.png" ]})
  ∧ resolve_input_path Sample.web_image (Some "cat.png") (Some "/work")
      (Sample.start {[ "cat.png" ]})
    = (Ret (Some "cat.png"), Sample.start {[ "cat.png" ]})
  ∧ resolve_input_path Sample.web_image (Some "/abs/cat.png") (Some "/work")
      (Sample.start ∅)
    = (Ret (Some "/abs/cat.png"), Sample.start ∅).
Proof. repeat split; vm_compute; reflexivity. Qed.

(** * More properties of the program *)

(** ** The BFL provider: what else the poller does and does not *)

Section PollerMore.

Context {Raster : Type} (W : World Raster).
Variables (result_url bfl_api_key : string).

#[local] Abbreviation loop fuel := (poll_loop W fuel result_url bfl_api_key).
#[local] Abbreviation round k := (poll_round W result_url bfl_api_key k).
#[local] Abbreviation answers := (status_response W result_url bfl_api_key).
#[local] Abbreviation after n := (rounds result_url bfl_api_key n).

(** The beginning of a round whose poll is answered by a JSON object. *)
Ltac poll_begin Hrecv :=
  let resp := fresh "resp" in
  let Hr := fresh "Hr" in
  let Hok := fresh "Hok" in
  let Hb := fresh "Hb" in
  destruct Hrecv as (resp & Hr & Hok & Hb);
  unfold status_response in Hr; rewrite Nat.add_1_r in Hr;
  unfold poll_round, get; run; rewrite Hr; run;
  rewrite raise_for_status_ok by done;
  unfold response_json; rewrite Hb; run;
  rewrite <- (app_assoc (trace _)); simpl;
  match type of Hb with _ = inr (JObj ?m) => fold (status_of m) end.

Lemma round_ready_state (k : M (image Raster)) s u :
  ready_with_url (answers s 0) u → (round k s).2 = fetched u (after 1 s).
Proof.
  intros (m & rm & Hrecv & Hst & Hres & Hu & Htr).
  poll_begin Hrecv. rewrite Hst. simpl. rewrite Hres. run.
  rewrite Hu. simpl. rewrite Htr. run.
  destruct (requests_get W (S (clock s)) u []) as [e|r]; run; [done|].
  destruct (decide (400 ≤ status_code r < 600)) as [Hbad|Hgood].
  { match goal with |- context [raise_for_status r ?s1] =>
      destruct (raise_for_status_not_ok r s1) as [e ->]; [by intros []|done]
    end. }
  rewrite raise_for_status_ok by done.
  unfold image_from_bytes. by destruct (image_open_bytes _ _).
Qed.

(** How a round leaves the state. *)
Lemma round_ends_in (k : M (image Raster)) s :
  (round k s).2 = after 1 s
  ∨ (∃ u, (round k s).2 = fetched u (after 1 s))
  ∨ round k s = k (after 1 s).
Proof.
  destruct (round_received_or_raise W result_url bfl_api_key k s)
    as [[m Hm]|[e He]]; [|left; by rewrite He].
  destruct (eq_str (status_of m) "Ready") eqn:Hready.
  - apply eq_str_true in Hready.
    destruct (round_ready_or_raise W result_url bfl_api_key k s m Hm Hready)
      as [[u Hu]|[e He]]; [|left; by rewrite He].
    right; left. exists u. by apply round_ready_state.
  - destruct (in_strs (status_of m) ["Processing"; "Queued"; "Pending"]) eqn:Hp.
    + right; right. apply round_pending. by exists m.
    + left. by rewrite (round_failed W _ _ _ _ m).
Qed.

(** X1.  Whatever the provider answers and however the loop ends, what it has
    done is [k] rounds of one sleep of 1.5 seconds followed by one GET of
    the status URL, for some [k] within the number of rounds run, and then
    at most one GET of a result URL.  So no status poll goes out without
    the sleep before it, and the loop does nothing else: no POST, no output,
    no file. *)
Theorem poll_loop_only_sleeps_and_polls (fuel : nat) (s : state) :
  ∃ k, (k ≤ fuel)%nat
       ∧ ((loop fuel s).2 = after k s
          ∨ ∃ u, (loop fuel s).2 = fetched u (after k s) ∧ (1 ≤ k)%nat).
Proof.
  revert s. induction fuel as [|fuel IH]; intros s.
  { exists 0. split; [lia|]. by left. }
  cbn [poll_loop].
  destruct (round_ends_in (loop fuel) s) as [Hst|[[u Hst]|Hst]].
  - exists 1. split; [lia|]. by left.
  - exists 1. split; [lia|]. right. by exists u.
  - rewrite Hst. destruct (IH (after 1 s)) as (k & Hk & Hshape).
    exists (S k). split; [lia|].
    destruct Hshape as [Hshape|(u & Hshape & _)].
    + by left.
    + right. exists u. split; [done|lia].
Qed.

Lemma round_get_error (k : M (image Raster)) s e :
  answers s 0 = inl e → round k s = (Raise e, after 1 s).
Proof.
  unfold status_response. rewrite Nat.add_1_r. intros Hr.
  unfold poll_round, get. run. rewrite Hr. run.
  by rewrite <- (app_assoc (trace s)).
Qed.

Lemma round_http_error (k : M (image Raster)) s resp :
  answers s 0 = inr resp → ¬ http_ok resp →
  ∃ msg, round k s = (Raise (HTTPError msg), after 1 s).
Proof.
  unfold status_response, http_ok. rewrite Nat.add_1_r. intros Hr Hbad.
  unfold poll_round, get. run. rewrite Hr. run.
  rewrite <- (app_assoc (trace s)). simpl.
  unfold raise_for_status. repeat case_bool_decide; run; try (by eauto).
  exfalso. apply Hbad. lia.
Qed.

(** X2.  A status poll that fails is not repeated.  When, after [n] pending
    statuses, the GET of the status URL raises, the loop raises the same
    error; when it is answered with a 4xx or 5xx status, the loop raises an
    [HTTPError].  In both cases that poll was the last request. *)
Theorem failed_poll_is_not_retried (s : state) (n fuel : nat) :
  pending_until W result_url bfl_api_key s n → (n < fuel)%nat →
  (∀ e, answers s n = inl e → loop fuel s = (Raise e, after (S n) s))
  ∧ (∀ resp, answers s n = inr resp → ¬ http_ok resp →
       ∃ msg, loop fuel s = (Raise (HTTPError msg), after (S n) s)).
Proof.
  intros Hp Hfuel.
  assert (Hstep : loop fuel s = round (loop (fuel - S n)) (after n s)).
  { replace fuel with (n + S (fuel - S n)) at 1 by lia.
    by rewrite loop_pending_prefix. }
  assert (Hafter : after (S n) s = after 1 (after n s)).
  { replace (S n) with (n + 1) by lia. apply rounds_add. }
  rewrite Hstep, Hafter. split.
  - intros e He. apply round_get_error.
    by rewrite answers_after, Nat.add_0_r.
  - intros resp Hresp Hbad. apply (round_http_error _ _ resp); [|done].
    by rewrite answers_after, Nat.add_0_r.
Qed.

(** X3.  Ready without a result URL is a failure of its own: the loop raises
    [ValueError("No image URL in result")] and sends no further request. *)
Theorem ready_without_url_is_fatal (s : state) (n fuel : nat)
    (m : gmap string json) :
  pending_until W result_url bfl_api_key s n → (n < fuel)%nat →
  received (answers s n) m → ready_without_url m →
  loop fuel s = (Raise (ValueError "No image URL in result"), after (S n) s).
Proof.
  intros Hp Hfuel Hm (Hst & rm & Hres & Hu).
  replace fuel with (n + S (fuel - S n)) by lia.
  rewrite loop_pending_prefix by done. cbn [poll_loop].
  replace (S n) with (n + 1) by lia. rewrite rounds_add.
  assert (Hm' : received (answers (after n s) 0) m)
    by (by rewrite answers_after, Nat.add_0_r).
  poll_begin Hm'. rewrite Hst. simpl. rewrite Hres. run. by rewrite Hu.
Qed.

End PollerMore.

Lemma failed_poll_is_not_retried_witness :
  poll_loop More.flaky 5 Sample.status_url "bfl-key" (Sample.start ∅)
  = (Raise (Err "ConnectionError" "connection reset"),
     rounds Sample.status_url "bfl-key" 2 (Sample.start ∅)).
Proof.
  apply (proj1 (failed_poll_is_not_retried More.flaky Sample.status_url "bfl-key"
                  (Sample.start ∅) 1 5
                  ltac:(intros [|j] Hj; [|lia];
                        eexists; (split; [sample_received|reflexivity]))
                  ltac:(lia))).
  reflexivity.
Defined.

Lemma ready_without_url_is_fatal_witness :
  poll_loop More.ready_without_sample 5 Sample.status_url "bfl-key" (Sample.start ∅)
  = (Raise (ValueError "No image URL in result"),
     rounds Sample.status_url "bfl-key" 1 (Sample.start ∅)).
Proof.
  apply (ready_without_url_is_fatal More.ready_without_sample Sample.status_url
           "bfl-key" (Sample.start ∅) 0 5
           (<["status" := JStr "Ready"]> {[ "result" := JObj ∅ ]})).
  - intros j Hj. lia.
  - lia.
  - sample_received.
  - split; [reflexivity|]. exists ∅. split; reflexivity.
Defined.

(** ** The BFL provider: the ways a call ends before it polls *)

Section SubmissionMore.

Context {Raster : Type} (W : World Raster).

(** X4.  Without a key (no [--bfl-api-key], no [BFL_API_KEY] in the
    environment and no key in [bfl_api_key.txt], or only empty strings) both
    BFL calls raise the [ValueError] about the missing key before they do
    anything else: no request goes out.  The state is the one before the
    call, except that the warning of [load_api_key_from_file] has been
    printed when the key file exists but cannot be read. *)
Theorem bfl_needs_a_key (api_key : option string) (s : state) :
  no_bfl_key W api_key s →
  ∃ s',
    (s' = s
     ∨ ∃ e, key_file_path W (local_host W) "bfl_api_key.txt" ∈ files s
            ∧ read_text (local_host W)
                (key_file_path W (local_host W) "bfl_api_key.txt") = inl e
            ∧ s' = printed ("Warning: Failed to read API key from file: "
                              +:+ error_message e) s)
    ∧ (∀ fuel prompt model aspect_ratio seed safety_tolerance output_format,
         bfl_generate_image W fuel prompt api_key model aspect_ratio seed
           safety_tolerance output_format s
         = (Raise (ValueError no_key_message), s'))
    ∧ (∀ fuel input_image prompt model seed safety_tolerance output_format,
         bfl_edit_image W fuel input_image prompt api_key model seed
           safety_tolerance output_format s
         = (Raise (ValueError no_key_message), s')).
Proof.
  intros Hkey.
  exists (load_api_key_from_file W (local_host W) "bfl_api_key.txt" s).2.
  split; [|split].
  - rewrite load_api_key_from_file_run. simpl.
    case_bool_decide as Hin; [|by left].
    destruct (read_text _ _) as [e|text] eqn:Hread; [|by left].
    right. by exists e.
  - intros. unfold bfl_generate_image.
    by erewrite bind_raise by (by apply bfl_key_missing).
  - intros. unfold bfl_edit_image.
    by erewrite bind_raise by (by apply bfl_key_missing).
Qed.

Lemma submit_refused url key data s e :
  requests_post W url (json_headers key) data = inl e →
  submit W url key data s = (Raise e, sent url key data s).
Proof. intros Hpost. unfold submit, post. run. by rewrite Hpost. Qed.

Lemma submit_http_error url key data s resp :
  requests_post W url (json_headers key) data = inr resp → ¬ http_ok resp →
  ∃ msg, submit W url key data s
         = (Raise (HTTPError msg),
            printed ("Error response: " +:+ text resp) (sent url key data s)).
Proof.
  unfold http_ok. intros Hpost Hbad. unfold submit, post. run. rewrite Hpost. run.
  rewrite bool_decide_eq_true_2 by lia. run.
  unfold raise_for_status, printed, sent.
  repeat case_bool_decide; run; try (by eauto).
  exfalso. apply Hbad. lia.
Qed.

(** X5.  A submission that fails is never polled.  When the POST of
    [bfl_generate_image] raises, the call raises the same error with the
    POST as its only effect; when the POST is answered with a 4xx or 5xx
    status, the call prints ["Error response: "] with the body of the
    response and raises an [HTTPError].  Neither a sleep nor a GET
    follows. *)
Theorem failed_submission_is_not_polled fuel prompt api_key key model
    aspect_ratio seed safety_tolerance output_format s :
  resolved_key W api_key key s →
  let data := generate_data prompt aspect_ratio output_format safety_tolerance seed in
  let call := bfl_generate_image W fuel prompt api_key model aspect_ratio seed
                safety_tolerance output_format s in
  (∀ e, requests_post W (generate_url model) (json_headers key) data = inl e →
        call = (Raise e, sent (generate_url model) key data s))
  ∧ (∀ resp, requests_post W (generate_url model) (json_headers key) data = inr resp →
       ¬ http_ok resp →
       ∃ msg, call = (Raise (HTTPError msg),
                      printed ("Error response: " +:+ text resp)
                        (sent (generate_url model) key data s))).
Proof.
  intros Hkey data call. subst call. unfold bfl_generate_image. split.
  - intros e Hpost.
    erewrite bind_ret by (by apply bfl_key_resolved).
    by erewrite bind_raise by (by apply submit_refused).
  - intros resp Hpost Hbad.
    destruct (submit_http_error (generate_url model) key data s resp Hpost Hbad)
      as [msg Hsub].
    exists msg.
    erewrite bind_ret by (by apply bfl_key_resolved).
    by erewrite bind_raise by exact Hsub.
Qed.

Lemma round_keeps (result_url bfl_api_key : string) (k : M (image Raster)) :
  preserves same_files k →
  preserves same_files (poll_round W result_url bfl_api_key k).
Proof. intros Hk. unfold poll_round. grow. Qed.

Lemma loop_keeps fuel (result_url bfl_api_key : string) :
  preserves same_files (poll_loop W fuel result_url bfl_api_key).
Proof.
  induction fuel as [|fuel IH]; [apply preserves_fuel, _|].
  cbn [poll_loop]. by apply round_keeps.
Qed.

(** X6.  The BFL calls work in memory: however [bfl_generate_image] and
    [bfl_edit_image] end, also while they are still polling, the files that
    exist are the ones that existed before.  (The upload of [bfl_edit_image]
    is encoded into a buffer; [edit_image] goes through a temporary
    file.) *)
Theorem bfl_calls_write_no_file (fuel : nat) (s : state) :
  (∀ prompt api_key model aspect_ratio seed safety_tolerance output_format,
     files (bfl_generate_image W fuel prompt api_key model aspect_ratio seed
              safety_tolerance output_format s).2 = files s)
  ∧ (∀ input_image prompt api_key model seed safety_tolerance output_format,
       files (bfl_edit_image W fuel input_image prompt api_key model seed
                safety_tolerance output_format s).2 = files s).
Proof.
  split; intros.
  - assert (Hkeep : preserves same_files
        (bfl_generate_image W fuel prompt api_key model aspect_ratio seed
           safety_tolerance output_format)); [|exact (Hkeep s)].
    unfold bfl_generate_image.
    apply preserves_bind; [apply _|unfold bfl_key; grow|intros key].
    apply preserves_bind; [apply _|unfold submit, post; grow|intros url].
    apply preserves_bind; [apply _|grow|intros _]. apply loop_keeps.
  - assert (Hkeep : preserves same_files
        (bfl_edit_image W fuel input_image prompt api_key model seed
           safety_tolerance output_format)); [|exact (Hkeep s)].
    unfold bfl_edit_image.
    apply preserves_bind; [apply _|unfold bfl_key; grow|intros key].
    apply preserves_bind; [apply _|unfold prepare_upload; grow|intros [data im]].
    apply preserves_bind; [apply _|unfold submit, post; grow|intros url].
    apply preserves_bind; [apply _|grow|intros _]. apply loop_keeps.
Qed.

End SubmissionMore.

(** The key file is there but may not be read: the warning, then the
    error. *)
Lemma bfl_needs_a_key_witness :
  bfl_generate_image (More.without_keys Sample.three_polls) 5 "a lighthouse"
    (Some EmptyString) "flux-dev" "1:1" None 6 "jpeg"
    (Sample.start {[ "/opt/imagine/bfl_api_key.txt" ]})
  = (Raise (ValueError no_key_message),
     printed "Warning: Failed to read API key from file: [Errno 13] Permission denied: '/opt/imagine/bfl_api_key.txt'"
       (Sample.start {[ "/opt/imagine/bfl_api_key.txt" ]})).
Proof.
  destruct (bfl_needs_a_key (More.without_keys Sample.three_polls)
              (Some EmptyString)
              (Sample.start {[ "/opt/imagine/bfl_api_key.txt" ]}))
    as (s' & Hs' & Hgen & _).
  - split; [reflexivity|]. split; [reflexivity|]. vm_compute. reflexivity.
  - rewrite Hgen. f_equal.
    destruct Hs' as [->|(e & _ & Hread & ->)].
    + specialize (Hgen 0 EmptyString EmptyString EmptyString None 0%Z EmptyString).
      vm_compute in Hgen. discriminate.
    + vm_compute in Hread. by injection Hread as <-.
Defined.

Lemma failed_submission_is_not_polled_witness :
  ∃ msg,
    bfl_generate_image More.overloaded 5 "a lighthouse" None "flux-dev" "1:1"
      None 6 "jpeg" (Sample.start ∅)
    = (Raise (HTTPError msg),
       printed "Error response: try again later"
         (sent "https://api.us1.bfl.ai/v1/flux-dev" "bfl-key"
            (generate_data "a lighthouse" "1:1" "jpeg" 6 None) (Sample.start ∅))).
Proof.
  apply (proj2 (failed_submission_is_not_polled More.overloaded 5 "a lighthouse"
                  None "bfl-key" "flux-dev" "1:1" None 6 "jpeg" (Sample.start ∅)
                  ltac:(split; [discriminate|right; split; [reflexivity|by left]]))
           (Response "https://api.us1.bfl.ai/v1/flux-dev" 503 "Service Unavailable"
              "try again later" (inl (Err "JSONDecodeError" "Expecting value")) [])).
  - reflexivity.
  - unfold http_ok. simpl. lia.
Defined.

(** ** Loading the input image *)

Section Loading.

Context {Raster : Type} (W : World Raster).

(** X7.  An input file that is not there ends the [edit] and the
    [variations] command at once.  When the input is no URL and no file
    exists where the command looks for it (at the path itself and, with
    [--output-dir], at the path joined to that directory), the command
    prints ["Error: Image file not found: "] followed by the path as it was
    given and leaves with exit code 1.  That is all it does, whatever the
    provider and the other arguments: nothing is sent, written or
    removed. *)
Theorem missing_input_is_reported (fuel : nat) (input : string)
    (dir : option string) (s : state) :
  is_url input = false →
  input ∉ files s →
  (∀ d, dir = Some d → join W d input ∉ files s) →
  (∀ args, edit_input args = input → edit_output_dir args = dir →
     edit_command W fuel args s
     = (Exit 1, printed ("Error: Image file not found: " +:+ input) s))
  ∧ (∀ args, arg_input args = input → arg_output_dir args = dir →
       variations_command W args s
       = (Exit 1, printed ("Error: Image file not found: " +:+ input) s)).
Proof.
  unfold is_url. intros Hurl Hnot Hdir.
  assert (resolve_input_path W (Some input) dir s = (Ret (Some input), s))
    as Hres.
  { unfold resolve_input_path. rewrite Hurl.
    destruct (isabs W input); [done|]. destruct dir as [d|]; [|done].
    destruct (truthy_opt (Some d)); [|done].
    unfold mbind, M_bind, path_exists. simpl.
    rewrite bool_decide_eq_false_2; [done|]. by apply Hdir. }
  assert (process_image W (Some input) s
          = (Raise (FileNotFoundError ("Image file not found: " +:+ input)), s))
    as Hproc.
  { unfold process_image. rewrite Hurl.
    unfold mbind, M_bind, path_exists. simpl.
    by rewrite bool_decide_eq_false_2. }
  split; intros args Hinput Hargs; subst input dir.
  - unfold edit_command, try_except.
    erewrite bind_ret by exact Hres. erewrite bind_raise by exact Hproc.
    reflexivity.
  - unfold variations_command, try_except.
    erewrite bind_ret by exact Hres. erewrite bind_raise by exact Hproc.
    reflexivity.
Qed.

(** X8.  A URL is fetched with exactly one GET.  The call returns an image
    exactly when the GET is answered, the status is no error and the content
    decodes.  Every failure on the way, whatever its class, comes out as a
    [ValueError] whose message starts with ["Failed to download image from
    URL: "], except an import error, which stays an [ImportError]. *)
Theorem process_image_downloads_urls (path : string) (s : state) :
  is_url path = true →
  (∀ im s',
     process_image W (Some path) s = (Ret im, s')
     ↔ s' = downloaded path s
       ∧ ∃ r, requests_get W (clock s) (JStr path) [] = inr r ∧ http_ok r
              ∧ image_open_bytes W (content r) = inr im)
  ∧ (∀ e s',
       process_image W (Some path) s = (Raise e, s') →
       s' = downloaded path s
       ∧ ((∃ msg, e = ValueError ("Failed to download image from URL: " +:+ msg))
          ∨ ∃ msg, e = Err "ImportError" msg)).
Proof.
  unfold is_url, process_image, downloaded. intros ->.
  unfold try_except, get. run.
  destruct (requests_get W (clock s) (JStr path) []) as [[cls msg]|r] eqn:Hget; run.
  { split.
    - intros im s'. split.
      + destruct (_ || _); done.
      + by intros (_ & r & [=] & _).
    - intros e s'. destruct (_ || _); intros [= <- <-]; by eauto. }
  destruct (decide (400 ≤ status_code r < 600)) as [Hbad|Hok].
  { match goal with |- context [raise_for_status r ?s1] =>
      destruct (raise_for_status_not_ok r s1) as [[cls msg] ->]; [by intros []|]
    end.
    split.
    - intros im s'. split.
      + destruct (_ || _); done.
      + intros (_ & r' & [= <-] & Hok & _). by destruct Hok.
    - intros e s'. destruct (_ || _); intros [= <- <-]; by eauto. }
  rewrite raise_for_status_ok by done.
  unfold image_from_bytes.
  destruct (image_open_bytes W (content r)) as [[cls msg]|im'] eqn:Himg; run.
  - split.
    + intros im s'. split.
      * destruct (_ || _); done.
      * intros (_ & r' & [= <-] & _ & Him). congruence.
    + intros e s'. destruct (_ || _); intros [= <- <-]; by eauto.
  - split.
    + intros im s'. split.
      * intros [= <- <-]. split; [done|]. by exists r.
      * intros (-> & r' & [= <-] & _ & Him).
        rewrite Himg in Him. by injection Him as ->.
    + intros e s'. done.
Qed.

End Loading.

Lemma missing_input_is_reported_witness :
  edit_command More.edits_with_bfl 10 (More.edit_cat None)
    (Sample.start {[ "dog.png" ]})
  = (Exit 1,
     printed "Error: Image file not found: cat.png"
       (Sample.start {[ "dog.png" ]})).
Proof.
  apply (proj1 (missing_input_is_reported More.edits_with_bfl 10 "cat.png"
                  None (Sample.start {[ "dog.png" ]}) ltac:(reflexivity)
                  ltac:(vm_compute; set_solver) ltac:(discriminate))
           (More.edit_cat None) eq_refl eq_refl).
Defined.

Lemma process_image_downloads_urls_witness :
  process_image Sample.web_image (Some "https://example.com/cat.png") (Sample.start ∅)
  = (Ret (Image "RGB" 2 1 ()),
     downloaded "https://example.com/cat.png" (Sample.start ∅)).
Proof.
  apply (proj1 (process_image_downloads_urls Sample.web_image
                  "https://example.com/cat.png" (Sample.start ∅)
                  ltac:(reflexivity))).
  split; [reflexivity|]. eexists. split; [reflexivity|].
  split; [|reflexivity]. unfold http_ok. simpl. lia.
Defined.

(** ** The OpenAI uploads *)

Section Uploads.

Context {Raster : Type} (W : World Raster).

(** The state after a [finally] block, when the body comes to an end. *)
Lemma try_finally_state {A} (body : M A) (fin : M unit) s :
  ends body → (try_finally body fin s).2 = (fin (body s).2).2.
Proof.
  intros Hends. specialize (Hends s). unfold try_finally.
  destruct (body s) as [[a|e|n|] s1]; simpl in *; try done;
    by destruct (fin s1) as [[[]|e'|n'|] s2].
Qed.

Lemma try_finally_ret_inv {A} (body : M A) (fin : M unit) s a s' :
  try_finally body fin s = (Ret a, s') →
  ∃ s1, body s = (Ret a, s1) ∧ fin s1 = (Ret (), s').
Proof.
  unfold try_finally. destruct (body s) as [[a'|e|n|] s1]; try done;
    destruct (fin s1) as [[[]|e'|n'|] s2] eqn:Hfin; try done.
  intros [= -> ->]. by exists s1.
Qed.

Lemma edit_body_keeps params :
  preserves same_files
    (images_edit W params ≫= λ response,
       first_data response ≫= λ image_data, decode_image_data W image_data).
Proof. unfold images_edit, first_data. grow. Qed.

Lemma edit_body_ends params :
  ends (images_edit W params ≫= λ response,
          first_data response ≫= λ image_data, decode_image_data W image_data).
Proof. unfold images_edit, first_data. halts. Qed.

(** X9.  [edit_image] removes its temporary files whenever it gets as far
    as the provider call: if the mask, when there is one, can be written as
    PNG, then however the call ends (a return, an error of the client, of
    the provider or of the decoding) no file is left that was not there
    before. *)
Theorem edit_image_removes_its_files im prompt mask_image api_key api_base
    quality size s :
  (∀ mask, mask_image = Some mask →
     save_error W mask (temp_mask_path W s) "PNG" = None
     ∧ temp_mask_path W s ≠ EmptyString) →
  files (edit_image W im prompt mask_image api_key api_base quality size s).2
  ⊆ files s.
Proof.
  intros Hmask. destruct mask_image as [mask|];
    [|apply edit_image_leaves_no_file_without_mask].
  destruct (Hmask mask eq_refl) as [Hbm Hpm].
  unfold edit_image, make_client.
  destruct (openai_client W _ _) as [e|[]]; [done|].
  unfold mbind at 1, M_bind at 1; simpl.
  unfold mbind at 1, M_bind at 1; simpl. fold (drew_uuid s).
  fold (temp_input_path W s). fold (temp_mask_path W s).
  destruct (save_error W im (temp_input_path W s) "PNG") as [e|] eqn:Henc.
  { erewrite bind_raise by (by apply save_file_fails). done. }
  erewrite bind_ret by (by eapply save_file_ok).
  erewrite bind_ret by (apply open_rb_ok, added).
  erewrite (bind_ret (_ ≫= _)); cycle 1.
  { erewrite bind_ret by (by eapply save_file_ok).
    erewrite bind_ret by (apply open_rb_ok, added). reflexivity. }
  set (pi := temp_input_path W s). set (pm := temp_mask_path W s).
  cbv beta iota zeta.
  set (s1 := wrote pm (wrote pi (drew_uuid s))).
  match goal with |- context [try_finally ?body ?fin s1] =>
    rewrite (try_finally_state body fin s1) by apply edit_body_ends;
    pose proof (edit_body_keeps _ s1 : files (body s1).2 = files s1) as Hfiles;
    set (s2 := (body s1).2) in *
  end.
  assert (Hs2 : files s2 = {[pm]} ∪ ({[pi]} ∪ files s)) by (by rewrite Hfiles).
  clearbody s2. clear Hfiles.
  unfold close_entry.
  match goal with |- context [?params !! "image"] =>
    assert (Himg : params !! "image" = Some (PFile pi))
      by (repeat destruct (negb _); by simplify_map_eq);
    assert (Hmk : params !! "mask" = Some (PFile pm))
      by (repeat destruct (negb _); by simplify_map_eq);
    rewrite Himg, Hmk
  end.
  erewrite bind_ret by reflexivity.
  erewrite bind_ret by (apply os_remove_ok; rewrite Hs2; set_solver).
  rewrite bool_decide_eq_true_2 by (by eexists).
  assert (Htruthy : truthy_opt (Some pm) = true).
  { simpl. destruct (String.eqb pm EmptyString) eqn:E; [|done].
    by apply String.eqb_eq in E. }
  rewrite Htruthy. simpl.
  erewrite bind_ret by reflexivity.
  unfold os_remove, path_exists, mbind, M_bind. simpl.
  case_bool_decide; simpl; rewrite Hs2; set_solver.
Qed.

Lemma decode_image_data_ret_inv d s im s' :
  decode_image_data W d s = (Ret im, s') → decodes W d im ∧ s' = s.
Proof.
  unfold decode_image_data, decodes.
  destruct (truthy_opt (b64_json d)); [|by destruct (truthy_opt (data_url d))].
  intros (bytes & s1 & Hb & Him)%bind_ret_inv.
  unfold lift in Hb. destruct (b64decode W _) as [e|bytes'] eqn:Hdec; [done|].
  injection Hb as -> <-.
  unfold image_from_bytes, lift in Him.
  destruct (image_open_bytes W bytes) as [e|im'] eqn:Hopen; [done|].
  injection Him as -> <-. split; [|done]. split; [done|]. by exists bytes.
Qed.

Lemma decode_all_ret_inv data s ims s' :
  decode_all W data s = (Ret ims, s') → Forall2 (decodes W) data ims ∧ s' = s.
Proof.
  revert s ims s'. induction data as [|d data IH]; intros s ims s'.
  { intros [= <- <-]. by split. }
  cbn [decode_all].
  intros (im & s1 & [Hd ->]%decode_image_data_ret_inv & H)%bind_ret_inv.
  apply bind_ret_inv in H as (ims' & s2 & [Hall ->]%IH & H).
  injection H as <- <-. split; [|done]. by constructor.
Qed.

(** X10.  What [create_variations] returns is read off the response, not
    off [n].  When it returns after a request for one variation, the image
    is the decoded first element of the response and the rest is ignored;
    otherwise it returns one image per element of the response, in the order
    of the response.  The request that was answered carried [n]. *)
Theorem create_variations_returns_the_response im api_key api_base n size s r s' :
  create_variations W im api_key api_base n size s = (Ret r, s') →
  ∃ params data,
    params !! "n" = Some (PInt n)
    ∧ openai_images_create_variation W params = inr data
    ∧ match r with
      | Single im' => n = 1%Z ∧ ∃ d rest, data = d :: rest ∧ decodes W d im'
      | Several ims => n ≠ 1%Z ∧ Forall2 (decodes W) data ims
      end.
Proof.
  unfold create_variations.
  intros ([] & s1 & _ & H)%bind_ret_inv.
  apply bind_ret_inv in H as (uid & s2 & _ & H).
  apply bind_ret_inv in H as ([] & s3 & _ & H).
  apply bind_ret_inv in H as (f & s4 & _ & H).
  apply try_finally_ret_inv in H as (s5 & H & _).
  apply bind_ret_inv in H as (data & s6 & Hcall & H).
  unfold images_create_variation in Hcall.
  apply bind_ret_inv in Hcall as ([] & s7 & _ & Hcall).
  unfold lift in Hcall.
  match type of Hcall with context [openai_images_create_variation W ?p] =>
    exists p, data; destruct (openai_images_create_variation W p) as [e|data'];
      [done|]
  end.
  injection Hcall as -> _.
  split; [destruct (negb _); by simplify_map_eq|]. split; [done|].
  destruct (n =? 1)%Z eqn:En.
  - apply Z.eqb_eq in En.
    apply bind_ret_inv in H as (d & s8 & Hfirst & H).
    apply bind_ret_inv in H as (im' & s9 & [Hd _]%decode_image_data_ret_inv & H).
    injection H as <- _. split; [done|].
    unfold first_data in Hfirst. destruct data as [|d' rest]; [done|].
    injection Hfirst as -> _. by exists d, rest.
  - apply Z.eqb_neq in En.
    apply bind_ret_inv in H as (ims & s8 & [Hall _]%decode_all_ret_inv & H).
    by injection H as <- _.
Qed.

End Uploads.

Lemma edit_image_removes_its_files_witness :
  files (edit_image Sample.editing Sample.photo "make it snow" (Some Sample.photo)
           None None "high" "auto" (Sample.start ∅)).2
  ⊆ files (Sample.start ∅).
Proof.
  apply (edit_image_removes_its_files Sample.editing Sample.photo "make it snow"
           (Some Sample.photo) None None "high" "auto" (Sample.start ∅)).
  intros mask [= <-]. split; [by eexists|discriminate].
Defined.

Lemma create_variations_returns_the_response_witness :
  ∃ params data,
    params !! "n" = Some (PInt 3)
    ∧ openai_images_create_variation Sample.three_variations params = inr data
    ∧ (3 ≠ 1)%Z
    ∧ Forall2 (decodes Sample.three_variations) data
        [Image "RGB" 1 1 (); Image "RGB" 2 1 (); Image "RGB" 3 1 ()].
Proof.
  apply (create_variations_returns_the_response Sample.three_variations
           Sample.photo None None 3 "1024x1024" (Sample.start ∅)
           (Several [Image "RGB" 1 1 (); Image "RGB" 2 1 (); Image "RGB" 3 1 ()])
           (create_variations Sample.three_variations Sample.photo None None 3
              "1024x1024" (Sample.start ∅)).2).
  vm_compute. reflexivity.
Defined.

(** ** Output files of a failed run *)

Section PartialOutput.

Context {Raster : Type} (W : World Raster).



End PartialOutput.


(** ** How the commands end *)

Section NeverExits.

Lemma stays_ret {A} (a : A) : never_exits (mret a).
Proof. by intros s n. Qed.

Lemma stays_raise {A} e : never_exits (raise (A := A) e).
Proof. by intros s n. Qed.

Lemma stays_fuel {A} : never_exits (out_of_fuel (A := A)).
Proof. by intros s n. Qed.

Lemma stays_lift {A} (r : error + A) : never_exits (lift r).
Proof. by destruct r; intros s n. Qed.

Lemma stays_emit e : never_exits (emit e).
Proof. by intros s n. Qed.

Lemma stays_sleep ms : never_exits (sleep ms).
Proof. by intros s n. Qed.

Lemma stays_now : never_exits now.
Proof. by intros s n. Qed.

Lemma stays_path_exists path : never_exits (path_exists path).
Proof. by intros s n. Qed.

Lemma stays_create_path path : never_exits (create_path path).
Proof. by intros s n. Qed.

Lemma stays_delete_path path : never_exits (delete_path path).
Proof. by intros s n. Qed.

Lemma stays_fresh_uuid {Raster} (W : World Raster) : never_exits (fresh_uuid W).
Proof. by intros s n. Qed.

Lemma stays_bind {A B} (c : M A) (k : A → M B) :
  never_exits c → (∀ a, never_exits (k a)) → never_exits (c ≫= k).
Proof.
  intros Hc Hk s n. specialize (Hc s). unfold mbind, M_bind.
  destruct (c s) as [[a|e|m|] s1]; simpl in *;
    first [apply Hk | by destruct (Hc m) | done].
Qed.

Lemma stays_try_except {A} (c : M A) (h : error → M A) :
  never_exits c → (∀ e, never_exits (h e)) → never_exits (try_except c h).
Proof.
  intros Hc Hh s n. specialize (Hc s). unfold try_except.
  destruct (c s) as [[a|e|m|] s1]; simpl in *;
    first [apply Hh | by destruct (Hc m) | done].
Qed.

Lemma stays_try_finally {A} (c : M A) (f : M unit) :
  never_exits c → never_exits f → never_exits (try_finally c f).
Proof.
  intros Hc Hf s n. specialize (Hc s). unfold try_finally.
  destruct (c s) as [[a|e|m|] s1]; simpl in *; try done;
    specialize (Hf s1); destruct (f s1) as [[[]|e'|m'|] s2]; simpl in *;
    first [done | by destruct (Hf m') | by destruct (Hc m)].
Qed.

End NeverExits.

(** Show that a computation does not leave the program. *)
Ltac stays :=
  repeat first
    [ apply stays_ret | apply stays_raise | apply stays_fuel | apply stays_lift
    | apply stays_emit | apply stays_sleep | apply stays_now
    | apply stays_path_exists | apply stays_create_path
    | apply stays_delete_path | apply stays_fresh_uuid
    | apply stays_bind; [|intros]
    | apply stays_try_except; [|intros]
    | apply stays_try_finally
    | assumption
    | match goal with
      | |- never_exits (if ?b then _ else _) => destruct b
      | |- never_exits (match ?x with _ => _ end) => destruct x
      | |- never_exits (let _ := _ in _) => cbv zeta
      | |- never_exits (?f _) => unfold f
      | |- never_exits (?f _ _) => unfold f
      | |- never_exits (?f _ _ _) => unfold f
      | |- never_exits (?f _ _ _ _) => unfold f
      end ].

Section CommandsEnd.

Context {Raster : Type} (W : World Raster) (V : Services).

Lemma loop_stays fuel result_url bfl_api_key :
  never_exits (poll_loop W fuel result_url bfl_api_key).
Proof.
  induction fuel as [|fuel IH]; [apply stays_fuel|].
  cbn [poll_loop]. unfold poll_round. stays.
Qed.

Lemma bfl_generate_image_stays fuel prompt api_key model aspect_ratio seed
    safety_tolerance output_format :
  never_exits (bfl_generate_image W fuel prompt api_key model aspect_ratio seed
                 safety_tolerance output_format).
Proof.
  unfold bfl_generate_image.
  apply stays_bind; [unfold bfl_key; stays|intros key].
  apply stays_bind; [unfold submit, post; stays|intros url].
  apply stays_bind; [stays|intros _]. apply loop_stays.
Qed.

Lemma bfl_edit_image_stays fuel input_image prompt api_key model seed
    safety_tolerance output_format :
  never_exits (bfl_edit_image W fuel input_image prompt api_key model seed
                 safety_tolerance output_format).
Proof.
  unfold bfl_edit_image.
  apply stays_bind; [unfold bfl_key; stays|intros key].
  apply stays_bind; [unfold prepare_upload; stays|intros [data im]].
  apply stays_bind; [unfold submit, post; stays|intros url].
  apply stays_bind; [stays|intros _]. apply loop_stays.
Qed.

Lemma decode_all_stays data : never_exits (decode_all W data).
Proof. induction data as [|d data IH]; cbn [decode_all]; stays. Qed.

Lemma save_variations_stays base_name extension fmt i ims :
  never_exits (save_variations W base_name extension fmt i ims).
Proof.
  revert i. induction ims as [|im ims IH]; intros i; cbn [save_variations];
    [apply stays_ret|].
  apply stays_bind; [unfold save_file; stays|intros _].
  apply stays_bind; [stays|intros _]. apply IH.
Qed.

Lemma process_image_stays path : never_exits (process_image W path).
Proof. unfold process_image. stays. Qed.

Lemma resolve_input_path_stays path dir :
  never_exits (resolve_input_path W path dir).
Proof. unfold resolve_input_path. stays. Qed.

Lemma edit_image_stays im prompt mask api_key api_base quality size :
  never_exits (edit_image W im prompt mask api_key api_base quality size).
Proof. unfold edit_image, make_client. stays. Qed.

Lemma create_variations_stays im api_key api_base n size :
  never_exits (create_variations W im api_key api_base n size).
Proof.
  unfold create_variations, make_client, images_create_variation.
  stays; apply decode_all_stays.
Qed.

Lemma save_result_stays im output fmt dir :
  never_exits (save_result W im output fmt dir).
Proof. unfold save_result, save_file. stays. Qed.

Lemma stays_exits_with_report {A} (c : M A) :
  never_exits c → exits_with_report c.
Proof.
  intros Hc s. specialize (Hc s). destruct (c s).1; try done. by destruct (Hc code).
Qed.

Lemma report_bind {A B} (c : M A) (k : A → M B) :
  never_exits c → (∀ a, exits_with_report (k a)) → exits_with_report (c ≫= k).
Proof.
  intros Hc Hk s. specialize (Hc s). unfold mbind, M_bind.
  destruct (c s) as [[a|e|m|] s1]; simpl in *;
    first [apply Hk | by destruct (Hc m) | done].
Qed.

(** The handler turns every exception into a printed line and exit code 1. *)
Lemma handled (body : M unit) s :
  exits_with_report body →
  ends_like_a_command
    (try_except body
       (λ e, print ("Error: " +:+ error_message e);; exit 1) s).
Proof.
  intros Hbody. specialize (Hbody s). unfold ends_like_a_command, try_except.
  destruct (body s) as [[[]|e|code|] s1]; simpl in *; try done.
  split; [done|]. by exists (trace s1), (error_message e).
Qed.

(** X12.  No exception escapes a command.  [generate], [edit] and
    [variations] either return, or print a line that starts with
    ["Error: "] and leave with exit code 1; while a BFL job is pending they
    are still polling.  Whatever is raised below them (a missing key or
    file, a transport error, a refusal of the provider, an image that cannot
    be decoded or saved) ends in that line and that exit code. *)
Theorem commands_report_and_exit_1 (fuel : nat) (s : state) :
  (∀ args, ends_like_a_command (generate_command W V fuel args s))
  ∧ (∀ args, ends_like_a_command (edit_command W fuel args s))
  ∧ (∀ args, ends_like_a_command (variations_command W args s)).
Proof.
  split; [|split]; intros args.
  - apply handled, stays_exits_with_report.
    apply stays_bind.
    + destruct (String.eqb _ _); [apply bfl_generate_image_stays|].
      unfold generate_image, make_client, images_generate. stays.
    + intros im. apply save_result_stays.
  - apply handled, stays_exits_with_report.
    apply stays_bind; [apply resolve_input_path_stays|intros resolved].
    apply stays_bind; [apply process_image_stays|intros im].
    apply stays_bind; [|intros res; apply save_result_stays].
    destruct (String.eqb _ _); [apply bfl_edit_image_stays|].
    apply stays_bind.
    { destruct (truthy_opt _); [apply resolve_input_path_stays|apply stays_ret]. }
    intros mask.
    apply stays_bind; [|intros m; apply edit_image_stays].
    destruct (truthy_opt _); [|apply stays_ret].
    apply stays_bind; [apply process_image_stays|intros; apply stays_ret].
  - apply handled.
    apply report_bind; [apply resolve_input_path_stays|intros resolved].
    apply report_bind; [apply process_image_stays|intros im].
    destruct (String.eqb _ _).
    + intros s1. simpl. split; [done|].
      by exists (trace s1), "Variations not supported with BFL provider".
    + apply stays_exits_with_report.
      apply stays_bind; [apply create_variations_stays|intros res].
      destruct (_ =? _)%Z.
      * destruct res; [unfold save_file; stays|apply stays_raise].
      * apply stays_bind; [unfold index; stays|intros base].
        apply stays_bind; [unfold index; stays|intros ext].
        destruct res; [apply stays_raise|apply save_variations_stays].
Qed.

End CommandsEnd.

(** ** Which provider a command talks to *)

Section Providers.

Context {Raster : Type} (W : World Raster) (V : Services).

Lemma bfl_generate_image_emits (P : event → Prop) fuel prompt api_key model
    aspect_ratio seed safety_tolerance output_format :
  (∀ line, P (EvPrint line)) → (∀ ms, P (EvSleep ms)) →
  (∀ u h, P (EvGet u h)) → (∀ u h d, P (EvPost u h d)) →
  emits P (bfl_generate_image W fuel prompt api_key model aspect_ratio seed
             safety_tolerance output_format).
Proof.
  intros Hprint Hsleep Hget Hpost. unfold bfl_generate_image.
  apply preserves_bind; [apply _|unfold bfl_key; grow|intros key].
  apply preserves_bind; [apply _|unfold submit, post; grow|intros url].
  apply preserves_bind; [apply _|grow|intros _]. by apply loop_emits.
Qed.

Lemma bfl_edit_image_emits (P : event → Prop) fuel input_image prompt api_key
    model seed safety_tolerance output_format :
  (∀ line, P (EvPrint line)) → (∀ ms, P (EvSleep ms)) →
  (∀ u h, P (EvGet u h)) → (∀ u h d, P (EvPost u h d)) →
  emits P (bfl_edit_image W fuel input_image prompt api_key model seed
             safety_tolerance output_format).
Proof.
  intros Hprint Hsleep Hget Hpost. unfold bfl_edit_image.
  apply preserves_bind; [apply _|unfold bfl_key; grow|intros key].
  apply preserves_bind; [apply _|unfold prepare_upload; grow|intros [data im]].
  apply preserves_bind; [apply _|unfold submit, post; grow|intros url].
  apply preserves_bind; [apply _|grow|intros _]. by apply loop_emits.
Qed.

(** X13.  With [--provider bfl] the edit command has nothing to do with
    OpenAI: the [--mask] argument has no influence on what the command does,
    the images API is not called, and the only file that is written is the
    output file; no temporary file is written or removed. *)
Theorem edit_with_bfl_ignores_mask_and_openai (fuel : nat) (args : edit_args)
    (s : state) :
  edit_provider args = "bfl" →
  (∀ mask, edit_command W fuel (with_mask args mask) s = edit_command W fuel args s)
  ∧ ∃ evs,
      trace (edit_command W fuel args s).2 = trace s ++ evs
      ∧ Forall (bfl_only (resolve_output_path W (edit_output args)
                            (edit_output_dir args))) evs.
Proof.
  intros Hbfl. split.
  - intros mask. unfold edit_command, with_mask. simpl. by rewrite Hbfl.
  - assert (Hemits : emits (bfl_only (resolve_output_path W (edit_output args)
                                        (edit_output_dir args)))
                       (edit_command W fuel args)); [|exact (Hemits s)].
    unfold edit_command. rewrite Hbfl. simpl.
    apply preserves_try_except; [apply _| |intros e; unfold report; grow].
    apply preserves_bind; [apply _|unfold resolve_input_path; grow|intros resolved].
    apply preserves_bind; [apply _|unfold process_image; grow|intros im].
    apply preserves_bind; [apply _|by apply bfl_edit_image_emits|intros res].
    unfold save_result, save_file. grow.
Qed.

(** X14.  The generate command talks to one provider only.  With
    [--provider bfl] it never calls the OpenAI images API; with any other
    provider it sends no POST and no GET of its own and never sleeps. *)
Theorem generate_talks_to_one_provider (fuel : nat) (args : generate_args)
    (s : state) :
  ∃ evs,
    trace (generate_command W V fuel args s).2 = trace s ++ evs
    ∧ (gen_provider args = "bfl" → Forall not_openai evs)
    ∧ (gen_provider args ≠ "bfl" → Forall not_bfl evs).
Proof.
  destruct (String.eqb (gen_provider args) "bfl") eqn:E.
  - apply String.eqb_eq in E.
    assert (Hemits : emits not_openai (generate_command W V fuel args)).
    { unfold generate_command. rewrite E. simpl.
      apply preserves_try_except; [apply _| |intros e; unfold report; grow].
      apply preserves_bind; [apply _|by apply bfl_generate_image_emits|intros res].
      unfold save_result, save_file. grow. }
    destruct (Hemits s) as (evs & Htr & Hall). exists evs. by repeat split.
  - apply String.eqb_neq in E.
    assert (Hemits : emits not_bfl (generate_command W V fuel args)).
    { unfold generate_command.
      destruct (String.eqb (gen_provider args) "bfl") eqn:E';
        [by apply String.eqb_eq in E'|].
      apply preserves_try_except; [apply _| |intros e; unfold report; grow].
      apply preserves_bind; [apply _| |intros res].
      - unfold generate_image, make_client, images_generate. grow.
      - unfold save_result, save_file. grow. }
    destruct (Hemits s) as (evs & Htr & Hall). exists evs. by repeat split.
Qed.

Lemma endpoint_is_model (model : string) :
  default model (model_endpoints !! model) = model.
Proof.
  destruct (model_endpoints !! model) as [endpoint|] eqn:E; [|done].
  apply elem_of_list_to_map_2 in E. simpl.
  repeat (apply elem_of_cons in E as [[= -> ->]|E]; [done|]).
  by apply elem_of_nil in E.
Qed.

(** X15.  [bfl_generate_image] submits once, and to the endpoint named
    after the model.  With a key, the first thing the call does is one POST
    to [https://api.us1.bfl.ai/v1/<model>] for every model name, known to
    the endpoint table or not, with the key in the [x-key] header and the
    prompt, aspect ratio, output format and safety tolerance (and the seed,
    when given) as its body; whatever follows, there is no second POST. *)
Theorem bfl_generate_image_submits_once fuel prompt api_key key model
    aspect_ratio seed safety_tolerance output_format s :
  resolved_key W api_key key s →
  ∃ rest,
    trace (bfl_generate_image W fuel prompt api_key model aspect_ratio seed
             safety_tolerance output_format s).2
    = trace s
      ++ EvPost ("https://api.us1.bfl.ai/v1/" +:+ model) (json_headers key)
           (generate_data prompt aspect_ratio output_format safety_tolerance seed)
         :: rest
    ∧ Forall not_post rest.
Proof.
  intros Hkey. unfold bfl_generate_image.
  erewrite bind_ret by (by apply bfl_key_resolved).
  rewrite endpoint_is_model.
  set (url := "https://api.us1.bfl.ai/v1/" +:+ model).
  set (data := generate_data _ _ _ _ _).
  unfold submit, post.
  rewrite !bind_assoc, emit_then.
  match goal with |- context [trace (?c ?s1).2] =>
    assert (Hemits : emits not_post c);
      [|destruct (Hemits s1) as (rest & Htr & Hall)]
  end.
  { apply preserves_bind; [apply _|grow|intros response].
    apply preserves_bind; [apply _| |intros result_url].
    - apply preserves_bind; [apply _|grow|intros _].
      apply preserves_bind; [apply _|grow|intros _].
      apply preserves_bind; [apply _|unfold response_json; grow|intros result].
      apply preserves_bind; [apply _|unfold dict_get; grow|intros request_id].
      grow.
    - apply preserves_bind; [apply _|grow|intros _]. by apply loop_emits. }
  exists rest. split; [|done]. rewrite Htr. simpl. by rewrite <- app_assoc.
Qed.

End Providers.

Lemma edit_with_bfl_ignores_mask_and_openai_witness :
  edit_command More.edits_with_bfl 10 (More.edit_cat (Some "no-such-mask.png"))
    (Sample.start {[ "cat.png" ]})
  = edit_command More.edits_with_bfl 10 (More.edit_cat None)
      (Sample.start {[ "cat.png" ]})
  ∧ (edit_command More.edits_with_bfl 10 (More.edit_cat None)
       (Sample.start {[ "cat.png" ]})).1 = Ret ()
  ∧ ∃ evs,
      trace (edit_command More.edits_with_bfl 10 (More.edit_cat None)
               (Sample.start {[ "cat.png" ]})).2 = [] ++ evs
      ∧ Forall (bfl_only "out.jpg") evs
      ∧ writes evs = ["out.jpg"]
      ∧ filter (λ e, is_network_call e) evs
        = [EvPost "https://api.us1.bfl.ai/v1/flux-kontext-max"
             (json_headers "bfl-key")
             (JObj (edit_data "make it snow"
                      (b64encode More.edits_with_bfl [Byte.x89]) "jpeg" 2 None));
           EvGet (JStr Sample.status_url) (poll_headers "bfl-key");
           EvGet (JStr Sample.status_url) (poll_headers "bfl-key");
           EvGet (JStr Sample.status_url) (poll_headers "bfl-key");
           EvGet (JStr Sample.sample_url) []].
Proof.
  destruct (edit_with_bfl_ignores_mask_and_openai More.edits_with_bfl 10
              (More.edit_cat None) (Sample.start {[ "cat.png" ]})
              ltac:(reflexivity))
    as (Hmask & evs & Htr & Hall).
  split; [exact (Hmask (Some "no-such-mask.png"))|].
  split; [vm_compute; reflexivity|].
  exists evs. split; [exact Htr|]. split; [exact Hall|].
  change (trace (Sample.start {[ "cat.png" ]}) ++ evs) with evs in Htr.
  rewrite <- Htr. split; vm_compute; reflexivity.
Defined.

Lemma bfl_generate_image_submits_once_witness :
  ∃ rest,
    trace (bfl_generate_image Sample.three_polls 10 "a lighthouse" None
             "flux-not-in-the-table" "3:2" (Some 7%Z) 6 "jpeg" (Sample.start ∅)).2
    = [] ++ EvPost "https://api.us1.bfl.ai/v1/flux-not-in-the-table"
              (json_headers "bfl-key")
              (generate_data "a lighthouse" "3:2" "jpeg" 6 (Some 7%Z))
            :: rest
    ∧ Forall not_post rest.
Proof.
  apply (bfl_generate_image_submits_once Sample.three_polls 10 "a lighthouse"
           None "bfl-key" "flux-not-in-the-table" "3:2" (Some 7%Z) 6 "jpeg"
           (Sample.start ∅)).
  split; [discriminate|right; split; [reflexivity|by left]].
Defined.

(** ** API keys *)

Section Keys.

Context {Raster : Type} (W : World Raster) (H : Host).

(** X16.  Reading a key file cannot fail.  [load_api_key_from_file] always
    returns: the stripped text of the file when the file exists, can be read
    and holds more than white space, and [None] otherwise.  It writes and
    removes nothing, and the only thing it may print is one warning, when
    the file exists but cannot be read. *)
Theorem key_file_is_read_safely (filename : string) (s : state) :
  ∃ r s',
    load_api_key_from_file W H filename s = (Ret r, s')
    ∧ files s' = files s
    ∧ (∀ key, r = Some key
              ↔ key_file_path W H filename ∈ files s
                ∧ key ≠ EmptyString
                ∧ ∃ text, read_text H (key_file_path W H filename) = inr text
                          ∧ key = strip H text)
    ∧ (s' = s
       ∨ ∃ e, key_file_path W H filename ∈ files s
              ∧ read_text H (key_file_path W H filename) = inl e
              ∧ s' = printed ("Warning: Failed to read API key from file: "
                                +:+ error_message e) s).
Proof.
  eexists _, _. split; [apply load_api_key_from_file_run|].
  unfold key_in_file. case_bool_decide as Hin.
  - destruct (read_text H _) as [e|text] eqn:Hread.
    + split; [done|]. split; [|right; by exists e].
      intros key. split; [done|]. by intros (_ & _ & text & [=] & _).
    + split; [done|]. split; [|by left].
      intros key. destruct (String.eqb (strip H text) EmptyString) eqn:E; simpl.
      * apply String.eqb_eq in E. split; [done|].
        intros (_ & Hne & text' & [= <-] & ->). done.
      * apply String.eqb_neq in E. split.
        -- intros [= <-]. split; [done|]. split; [done|]. by exists text.
        -- by intros (_ & _ & text' & [= <-] & ->).
  - split; [done|]. split; [|by left].
    intros key. split; [done|]. by intros (Hin' & _).
Qed.

Lemma export_file_key_run filename name environ s :
  export_file_key W H filename name environ s
  = (Ret (match key_in_file W H filename s with
          | Some key =>
              if truthy_opt (getenv environ name) then environ
              else <[name := key]> environ
          | None => environ
          end),
     (load_api_key_from_file W H filename s).2).
Proof.
  unfold export_file_key.
  erewrite bind_ret by apply load_api_key_from_file_run.
  rewrite load_api_key_from_file_run. simpl.
  destruct (key_in_file_truthy W H filename s) as [->|Htr]; [done|].
  destruct (key_in_file W H filename s) as [key|]; [|done].
  rewrite Htr. simpl. by destruct (truthy_opt (getenv environ name)).
Qed.

Lemma load_keeps_files filename s :
  files (load_api_key_from_file W H filename s).2 = files s.
Proof.
  rewrite load_api_key_from_file_run. simpl.
  case_bool_decide; [|done]. by destruct (read_text H _).
Qed.

Lemma load_bfl_result environ s :
  (load_bfl_api_key W H environ s).1
  = Ret (if truthy_opt (environ !! "BFL_API_KEY") then environ !! "BFL_API_KEY"
         else key_in_file W H "bfl_api_key.txt" s).
Proof.
  unfold load_bfl_api_key, getenv.
  destruct (truthy_opt (environ !! "BFL_API_KEY")); simpl; [done|].
  by rewrite load_api_key_from_file_run.
Qed.

Lemma load_elevenlabs_result environ s :
  (load_elevenlabs_api_key W H environ s).1
  = Ret (if truthy_opt (environ !! "ELEVENLABS_API_KEY")
         then environ !! "ELEVENLABS_API_KEY"
         else key_in_file W H "elevenlabs_api_key.txt" s).
Proof.
  unfold load_elevenlabs_api_key, getenv.
  destruct (truthy_opt (environ !! "ELEVENLABS_API_KEY")); simpl; [done|].
  by rewrite load_api_key_from_file_run.
Qed.

(** What one export does to the variable [other]. *)
Lemma export_lookup key_file name environ s other :
  match (export_file_key W H key_file name environ s).1 with
  | Ret environ' =>
      environ' !! other
      = if bool_decide (other = name)
        then (if truthy_opt (environ !! name) then environ !! name
              else match key_in_file W H key_file s with
                   | Some key => Some key
                   | None => environ !! name
                   end)
        else environ !! other
  | _ => False
  end.
Proof.
  rewrite export_file_key_run. simpl. unfold getenv.
  case_bool_decide as Heq.
  - subst other. destruct (key_in_file W H key_file s) as [key|];
      destruct (truthy_opt (environ !! name)); try done.
    by rewrite lookup_insert_eq.
  - destruct (key_in_file W H key_file s) as [key|]; [|done].
    destruct (truthy_opt (environ !! name)); [done|].
    by rewrite lookup_insert_ne.
Qed.

Lemma export_step key_file name environ s :
  ∃ environ',
    export_file_key W H key_file name environ s
    = (Ret environ', (load_api_key_from_file W H key_file s).2)
    ∧ ∀ other,
        environ' !! other
        = if bool_decide (other = name)
          then (if truthy_opt (environ !! name) then environ !! name
                else match key_in_file W H key_file s with
                     | Some key => Some key
                     | None => environ !! name
                     end)
          else environ !! other.
Proof.
  eexists. split; [apply export_file_key_run|].
  intros other. pose proof (export_lookup key_file name environ s other) as Hl.
  by rewrite export_file_key_run in Hl.
Qed.

(** X17.  Which key a BFL call uses.  A call takes the key given on the
    command line if it is not empty; otherwise the environment variable
    [BFL_API_KEY] if it is set and not empty; otherwise the key of
    [bfl_api_key.txt] next to the script; and with none of the three it
    raises the [ValueError].  The key file is looked at only when the other
    two are empty, and the call leaves the state as it is, except for the
    warning that is printed when the key file exists but cannot be read. *)
Theorem bfl_key_precedence (flag : option string) (s : state) :
  bfl_key W flag s
  = (match (if truthy_opt flag then flag
            else if truthy_opt (os_environ W !! "BFL_API_KEY")
                 then os_environ W !! "BFL_API_KEY"
                 else key_in_file W (local_host W) "bfl_api_key.txt" s) with
     | Some key => Ret key
     | None => Raise (ValueError no_key_message)
     end,
     if truthy_opt flag || truthy_opt (os_environ W !! "BFL_API_KEY") then s
     else if bool_decide (key_file_path W (local_host W) "bfl_api_key.txt"
                            ∈ files s) then
       match read_text (local_host W)
               (key_file_path W (local_host W) "bfl_api_key.txt") with
       | inl e => printed ("Warning: Failed to read API key from file: "
                             +:+ error_message e) s
       | inr _ => s
       end
     else s).
Proof.
  unfold bfl_key.
  destruct (truthy_opt flag) eqn:Hflag.
  { destruct flag as [key|]; [|done].
    unfold mbind, M_bind, mret, M_ret. cbn [negb fst snd default].
    by rewrite Hflag. }
  destruct (truthy_opt (os_environ W !! "BFL_API_KEY")) eqn:Henv.
  { erewrite bind_ret; last first.
    { rewrite load_bfl_api_key_run, Henv. reflexivity. }
    destruct (os_environ W !! "BFL_API_KEY") as [key|]; [|done].
    cbn [negb fst snd default]. by rewrite Henv. }
  erewrite bind_ret; last first.
  { rewrite load_bfl_api_key_run, Henv. apply load_api_key_from_file_run. }
  cbn [negb fst snd default orb].
  destruct (key_in_file_truthy W (local_host W) "bfl_api_key.txt" s)
    as [->|Htr]; [done|].
  destruct (key_in_file W (local_host W) "bfl_api_key.txt" s) as [key|];
    [|done].
  by rewrite Htr.
Qed.

(** X18.  Loading the module fills in missing keys only.  The three blocks
    that copy key files into the environment always run to the end; they
    leave every variable that is set to a non-empty value as it is, touch no
    variable other than [OPENAI_API_KEY], [ELEVENLABS_API_KEY] and
    [BFL_API_KEY], never store an empty key, write no file, and do not
    change what [load_bfl_api_key] and [load_elevenlabs_api_key] return. *)
Theorem bootstrap_fills_only_unset_keys (environ : gmap string string)
    (s : state) :
  ∃ environ' s',
    bootstrap W H environ s = (Ret environ', s')
    ∧ files s' = files s
    ∧ (∀ name, truthy_opt (environ !! name) = true →
               environ' !! name = environ !! name)
    ∧ (∀ name, name ∉ ["OPENAI_API_KEY"; "ELEVENLABS_API_KEY"; "BFL_API_KEY"] →
               environ' !! name = environ !! name)
    ∧ (∀ name, environ' !! name ≠ environ !! name →
               truthy_opt (environ' !! name) = true)
    ∧ (load_bfl_api_key W H environ' s').1 = (load_bfl_api_key W H environ s).1
    ∧ (load_elevenlabs_api_key W H environ' s').1
      = (load_elevenlabs_api_key W H environ s).1.
Proof.
  unfold bootstrap.
  destruct (export_step "openai_api_key.txt" "OPENAI_API_KEY" environ s)
    as (e1 & Hrun1 & Hl1).
  set (s1 := (load_api_key_from_file W H "openai_api_key.txt" s).2) in *.
  destruct (export_step "elevenlabs_api_key.txt" "ELEVENLABS_API_KEY" e1 s1)
    as (e2 & Hrun2 & Hl2).
  set (s2 := (load_api_key_from_file W H "elevenlabs_api_key.txt" s1).2) in *.
  destruct (export_step "bfl_api_key.txt" "BFL_API_KEY" e2 s2)
    as (e3 & Hrun3 & Hl3).
  set (s3 := (load_api_key_from_file W H "bfl_api_key.txt" s2).2) in *.
  assert (files s1 = files s) as Hf1 by apply load_keeps_files.
  assert (files s2 = files s) as Hf2.
  { unfold s2. by rewrite load_keeps_files. }
  assert (files s3 = files s) as Hf3.
  { unfold s3. by rewrite load_keeps_files. }
  exists e3, s3. split.
  { erewrite bind_ret by exact Hrun1. erewrite bind_ret by exact Hrun2.
    exact Hrun3. }
  split; [done|].
  rewrite (key_in_file_files W H _ s s1 Hf1) in Hl2.
  rewrite (key_in_file_files W H _ s s2 Hf2) in Hl3.
  assert (∀ name,
    e3 !! name
    = if truthy_opt (environ !! name) then environ !! name
      else if bool_decide (name = "OPENAI_API_KEY") then
             match key_in_file W H "openai_api_key.txt" s with
             | Some key => Some key | None => environ !! name end
      else if bool_decide (name = "ELEVENLABS_API_KEY") then
             match key_in_file W H "elevenlabs_api_key.txt" s with
             | Some key => Some key | None => environ !! name end
      else if bool_decide (name = "BFL_API_KEY") then
             match key_in_file W H "bfl_api_key.txt" s with
             | Some key => Some key | None => environ !! name end
      else environ !! name) as Hall.
  { intros name. rewrite Hl3, !Hl2, !Hl1.
    repeat case_bool_decide; simplify_eq;
      repeat match goal with
             | |- context [truthy_opt (environ !! ?n)] =>
                 destruct (truthy_opt (environ !! n)) eqn:?
             end; done. }
  split; [|split; [|split; [|split]]].
  - intros name Htr. by rewrite Hall, Htr.
  - intros name Hnot. rewrite Hall.
    assert (name ≠ "OPENAI_API_KEY" ∧ name ≠ "ELEVENLABS_API_KEY"
            ∧ name ≠ "BFL_API_KEY") as (Ho & He & Hb).
    { repeat split; intros ->; apply Hnot; rewrite !elem_of_cons; auto. }
    rewrite !bool_decide_eq_false_2 by done.
    by destruct (truthy_opt (environ !! name)).
  - intros name. rewrite Hall.
    destruct (truthy_opt (environ !! name)) eqn:Htr; [done|].
    repeat case_bool_decide; try done.
    + destruct (key_in_file_truthy W H "openai_api_key.txt" s) as [->|Hk]; [done|].
      by destruct (key_in_file W H "openai_api_key.txt" s).
    + destruct (key_in_file_truthy W H "elevenlabs_api_key.txt" s) as [->|Hk]; [done|].
      by destruct (key_in_file W H "elevenlabs_api_key.txt" s).
    + destruct (key_in_file_truthy W H "bfl_api_key.txt" s) as [->|Hk]; [done|].
      by destruct (key_in_file W H "bfl_api_key.txt" s).
  - rewrite !load_bfl_result, (key_in_file_files W H _ s s3 Hf3), Hall. simpl.
    destruct (truthy_opt (environ !! "BFL_API_KEY")) eqn:Htr; [by rewrite Htr|].
    destruct (key_in_file_truthy W H "bfl_api_key.txt" s) as [Hk|Hk].
    + rewrite Hk. by rewrite Htr.
    + destruct (key_in_file W H "bfl_api_key.txt" s) as [key|]; [|done].
      by rewrite Hk.
  - rewrite !load_elevenlabs_result, (key_in_file_files W H _ s s3 Hf3), Hall. simpl.
    destruct (truthy_opt (environ !! "ELEVENLABS_API_KEY")) eqn:Htr;
      [by rewrite Htr|].
    destruct (key_in_file_truthy W H "elevenlabs_api_key.txt" s) as [Hk|Hk].
    + rewrite Hk. by rewrite Htr.
    + destruct (key_in_file W H "elevenlabs_api_key.txt" s) as [key|]; [|done].
      by rewrite Hk.
Qed.

End Keys.

(** The key of the command line wins over the environment; an empty one
    does not; and without any key the call raises, after the warning about
    the key file that cannot be read. *)
Lemma bfl_key_precedence_witness :
  bfl_key Sample.three_polls (Some "cli-key") (Sample.start ∅)
  = (Ret "cli-key", Sample.start ∅)
  ∧ bfl_key Sample.three_polls (Some EmptyString) (Sample.start ∅)
    = (Ret "bfl-key", Sample.start ∅)
  ∧ bfl_key (More.without_keys Sample.three_polls) None
      (Sample.start {[ "/opt/imagine/bfl_api_key.txt" ]})
    = (Raise (ValueError no_key_message),
       printed "Warning: Failed to read API key from file: [Errno 13] Permission denied: '/opt/imagine/bfl_api_key.txt'"
         (Sample.start {[ "/opt/imagine/bfl_api_key.txt" ]})).
Proof.
  split; [|split].
  - rewrite (bfl_key_precedence Sample.three_polls (Some "cli-key")
               (Sample.start ∅)).
    vm_compute. reflexivity.
  - rewrite (bfl_key_precedence Sample.three_polls (Some EmptyString)
               (Sample.start ∅)).
    vm_compute. reflexivity.
  - rewrite (bfl_key_precedence (More.without_keys Sample.three_polls) None
               (Sample.start {[ "/opt/imagine/bfl_api_key.txt" ]})).
    vm_compute. reflexivity.
Defined.

(** ** Sound effects *)

Section SoundFacts.

Context {Raster : Type} (W : World Raster) (H : Host) (S : Sounds).
Context (environ : gmap string string).

Lemma studio_bind_ret {A B} (c : N A) (k : A → N B) σ a σ' :
  c σ = (Ret a, σ') → (c ≫= k) σ = k a σ'.
Proof. intros Hc. unfold mbind, N_bind. by rewrite Hc. Qed.

Lemma studio_bind_raise {A B} (c : N A) (k : A → N B) σ e σ' :
  c σ = (Raise e, σ') → (c ≫= k) σ = (Raise e, σ').
Proof. intros Hc. unfold mbind, N_bind. by rewrite Hc. Qed.

Lemma studio_bind_ret_inv {A B} (c : N A) (k : A → N B) σ b σ2 :
  (c ≫= k) σ = (Ret b, σ2) →
  ∃ a σ1, c σ = (Ret a, σ1) ∧ k a σ1 = (Ret b, σ2).
Proof.
  unfold mbind, N_bind. destruct (c σ) as [[a| | |] σ1]; try done. by eauto.
Qed.

Lemma report_in_studio e σ :
  on_machine (report e) σ
  = (Exit 1, Studio (printed ("Error: " +:+ error_message e) (machine σ))
                    (contents σ) (requests σ)).
Proof. done. Qed.

(** The loop over the chunks appends them in order. *)
Lemma write_all_run path cs σ old :
  contents σ !! path = Some old →
  write_all path cs σ
  = (Ret (), Studio (machine σ) (<[path := old ++ concat cs]> (contents σ))
                    (requests σ)).
Proof.
  revert σ old. induction cs as [|chunk cs IH]; intros σ old Hold.
  - simpl. rewrite app_nil_r, insert_id by done. by destruct σ.
  - simpl. unfold mbind, N_bind, write. rewrite Hold. simpl.
    erewrite IH by (simpl; apply lookup_insert_eq).
    simpl. by rewrite insert_insert_eq, <- app_assoc.
Qed.

(** How the search for the key ends. *)
Lemma sound_key_run flag σ :
  ∃ s',
    (if truthy_opt flag then mret (M := N) flag
     else on_machine (load_elevenlabs_api_key W H environ)) σ
    = (Ret (if truthy_opt flag then flag
            else if truthy_opt (environ !! "ELEVENLABS_API_KEY")
                 then environ !! "ELEVENLABS_API_KEY"
                 else key_in_file W H "elevenlabs_api_key.txt" (machine σ)),
       Studio s' (contents σ) (requests σ))
    ∧ files s' = files (machine σ)
    ∧ ∃ tr, trace s' = trace (machine σ) ++ tr.
Proof.
  destruct (truthy_opt flag).
  { exists (machine σ). split; [by destruct σ|]. split; [done|].
    exists []. by rewrite app_nil_r. }
  unfold on_machine, load_elevenlabs_api_key, getenv.
  destruct (truthy_opt (environ !! "ELEVENLABS_API_KEY")); simpl.
  { exists (machine σ). split; [done|]. split; [done|].
    exists []. by rewrite app_nil_r. }
  rewrite load_api_key_from_file_run.
  eexists. split; [done|].
  case_bool_decide; [|split; [done|exists []; by rewrite app_nil_r]].
  destruct (read_text H _); [|split; [done|exists []; by rewrite app_nil_r]].
  split; [done|]. by eexists.
Qed.

Lemma sound_key_truthy flag s :
  let key := if truthy_opt flag then flag
             else if truthy_opt (environ !! "ELEVENLABS_API_KEY")
                  then environ !! "ELEVENLABS_API_KEY"
                  else key_in_file W H "elevenlabs_api_key.txt" s in
  key = None ∧ truthy_opt key = false
  ∨ ∃ k, key = Some k ∧ truthy_opt key = true.
Proof.
  simpl. destruct (truthy_opt flag) eqn:Hflag.
  { destruct flag as [k|]; [|done]. right. by exists k. }
  destruct (truthy_opt (environ !! "ELEVENLABS_API_KEY")) eqn:Henv.
  { destruct (environ !! "ELEVENLABS_API_KEY") as [k|]; [|done]. right. by exists k. }
  destruct (key_in_file_truthy W H "elevenlabs_api_key.txt" s) as [->|Htr];
    [by left|].
  destruct (key_in_file W H "elevenlabs_api_key.txt" s) as [k|]; [|done].
  right. by exists k.
Qed.

(** Every way in which [generate_sound_effect] ends. *)
Lemma generate_sound_effect_cases prompt flag duration influence σ :
  ∃ r s' reqs,
    generate_sound_effect W H S environ prompt flag duration influence σ
    = (r, Studio s' (contents σ) reqs)
    ∧ files s' = files (machine σ)
    ∧ (∃ tr, trace s' = trace (machine σ) ++ tr)
    ∧ ((∃ e, r = Raise e) ∨ (∃ response, r = Ret response))
    ∧ (reqs = requests σ
       ∨ reqs = requests σ ++ [Convert (SoundParams prompt duration influence)])
    ∧ ((∃ response, r = Ret response) →
       reqs = requests σ ++ [Convert (SoundParams prompt duration influence)]).
Proof.
  unfold generate_sound_effect.
  destruct (sound_key_run flag σ) as (s' & Hkey & Hfiles & Htrace).
  erewrite studio_bind_ret by exact Hkey.
  destruct (sound_key_truthy flag (machine σ)) as [[-> ->]|(k & -> & ->)]; simpl.
  { exists (Raise (ValueError no_elevenlabs_key_message)), s', (requests σ).
    repeat split; eauto. by intros [? ?]. }
  unfold lift_in_studio.
  destruct (elevenlabs_client S k) as [e|[]].
  { rewrite (studio_bind_raise _ _ _ e (Studio s' (contents σ) (requests σ)))
      by done.
    exists (Raise e), s', (requests σ). repeat split; eauto. by intros [? ?]. }
  unfold mbind, N_bind, mret, N_ret, convert_sound. simpl.
  destruct (text_to_sound_effects_convert S _) as [e|response].
  - exists (Raise e), s', (requests σ ++ [Convert (SoundParams prompt duration influence)]).
    repeat split; eauto.
  - exists (Ret response), s',
      (requests σ ++ [Convert (SoundParams prompt duration influence)]).
    repeat split; eauto.
Qed.

(** Opening the file, writing the stream and the last message. *)
Lemma save_audio_run path response σ :
  open_wb S path = inr () →
  (open_for_writing S path;;
   write_audio path response;;
   on_machine (print ("Sound effect saved to " +:+ path))) σ
  = match broken response with
    | None =>
        (Ret (),
         Studio (State (clock (machine σ))
                   (trace (machine σ)
                      ++ [EvWrite path;
                          EvPrint ("Sound effect saved to " +:+ path)])
                   ({[path]} ∪ files (machine σ)) (uuids (machine σ)))
                (<[path := concat (chunks response)]> (contents σ))
                (requests σ))
    | Some e =>
        (Raise e,
         Studio (State (clock (machine σ))
                   (trace (machine σ) ++ [EvWrite path])
                   ({[path]} ∪ files (machine σ)) (uuids (machine σ)))
                (<[path := concat (chunks response)]> (contents σ))
                (requests σ))
    end.
Proof.
  intros Hopen. unfold open_for_writing, write_audio. rewrite Hopen.
  unfold mbind, N_bind, lift_in_studio, mret, N_ret, on_machine, create_path,
    truncate. simpl.
  erewrite write_all_run by (simpl; apply lookup_insert_eq).
  simpl. rewrite insert_insert_eq.
  destruct (broken response) as [e|]; [done|].
  unfold print, emit. simpl. by rewrite <- app_assoc.
Qed.

(** X19.  No key, no sound.  When no key is given on the command line, the
    variable [ELEVENLABS_API_KEY] is unset or empty and the key file holds
    no key, [makenoise] reports the missing key and exits with status 1; it
    has made no request and has created or changed no file. *)
Theorem makenoise_needs_a_key (args : makenoise_args) (σ : studio)
    (Hflag : truthy_opt (noise_elevenlabs_api_key args) = false)
    (Henv : truthy_opt (environ !! "ELEVENLABS_API_KEY") = false)
    (Hfile : key_in_file W H "elevenlabs_api_key.txt" (machine σ) = None) :
  ∃ σ',
    makenoise_command W H S environ args σ = (Exit 1, σ')
    ∧ requests σ' = requests σ
    ∧ contents σ' = contents σ
    ∧ files (machine σ') = files (machine σ)
    ∧ ∃ tr, trace (machine σ')
            = trace (machine σ) ++ tr
                ++ [EvPrint ("Error: " +:+ no_elevenlabs_key_message)].
Proof.
  unfold makenoise_command, try_except_in_studio.
  destruct (sound_key_run (noise_elevenlabs_api_key args) σ)
    as (s' & Hkey & Hfiles & tr & Htrace).
  rewrite Hflag, Henv, Hfile in Hkey.
  assert (generate_sound_effect W H S environ (noise_prompt args)
            (noise_elevenlabs_api_key args) (noise_duration args)
            (noise_prompt_influence args) σ
          = (Raise (ValueError no_elevenlabs_key_message),
             Studio s' (contents σ) (requests σ))) as Hcall.
  { unfold generate_sound_effect. rewrite Hflag.
    erewrite studio_bind_ret by exact Hkey. done. }
  erewrite studio_bind_raise by exact Hcall.
  rewrite report_in_studio. eexists. split; [done|]. simpl.
  repeat split; try done.
  exists tr. by rewrite Htrace, <- app_assoc.
Qed.

(** X20.  The file is the stream.  When the ElevenLabs call has returned and
    the output file can be opened, the file at the resolved output path
    holds exactly the chunks of the response, in order and without what the
    file held before.  If the stream ends, the command prints the path and
    returns; if the stream breaks, the command reports the error and exits
    with status 1, and the file keeps the chunks received so far. *)
Theorem makenoise_writes_the_chunks_in_order (args : makenoise_args)
    (σ σ1 : studio) (response : audio)
    (Hcall : generate_sound_effect W H S environ (noise_prompt args)
               (noise_elevenlabs_api_key args) (noise_duration args)
               (noise_prompt_influence args) σ
             = (Ret response, σ1))
    (Hopen : open_wb S (resolve_output_path W (noise_output args)
                          (noise_output_dir args)) = inr ()) :
  let path := resolve_output_path W (noise_output args) (noise_output_dir args) in
  ∃ σ',
    makenoise_command W H S environ args σ
    = (match broken response with None => Ret () | Some _ => Exit 1 end, σ')
    ∧ contents σ' = <[path := concat (chunks response)]> (contents σ1)
    ∧ files (machine σ') = {[path]} ∪ files (machine σ1)
    ∧ requests σ' = requests σ1
    ∧ trace (machine σ')
      = trace (machine σ1)
          ++ [EvWrite path;
              EvPrint (match broken response with
                       | None => "Sound effect saved to " +:+ path
                       | Some e => "Error: " +:+ error_message e
                       end)].
Proof.
  intros path. unfold makenoise_command, try_except_in_studio.
  erewrite studio_bind_ret by exact Hcall.
  fold path. rewrite (save_audio_run path response σ1 Hopen).
  destruct (broken response) as [e|].
  - rewrite report_in_studio. eexists. split; [done|]. simpl.
    repeat split; try done. by rewrite <- app_assoc.
  - eexists. split; [done|]. done.
Qed.

(** X21.  What [makenoise] can do at all.  From every state the command
    either returns or exits with status 1, no exception escapes it.  It
    calls the ElevenLabs endpoint at most once, with the prompt and the two
    options of the command line, and it has called it whenever it returns.
    It changes the contents of no file other than the resolved output path,
    and creates no other file. *)
Theorem makenoise_is_contained (args : makenoise_args) (σ : studio) :
  let path := resolve_output_path W (noise_output args) (noise_output_dir args) in
  let request := Convert (SoundParams (noise_prompt args) (noise_duration args)
                            (noise_prompt_influence args)) in
  ∃ r σ',
    makenoise_command W H S environ args σ = (r, σ')
    ∧ (r = Ret () ∨ r = Exit 1)
    ∧ (requests σ' = requests σ ∨ requests σ' = requests σ ++ [request])
    ∧ (r = Ret () → requests σ' = requests σ ++ [request])
    ∧ (∀ other, other ≠ path → contents σ' !! other = contents σ !! other)
    ∧ (files (machine σ') = files (machine σ)
       ∨ files (machine σ') = {[path]} ∪ files (machine σ)).
Proof.
  intros path request. unfold makenoise_command, try_except_in_studio.
  destruct (generate_sound_effect_cases (noise_prompt args)
              (noise_elevenlabs_api_key args) (noise_duration args)
              (noise_prompt_influence args) σ)
    as (r & s' & reqs & Hcall & Hfiles & _ & Hr & Hreqs & Hret).
  fold request in Hreqs, Hret.
  destruct Hr as [[e ->]|[response ->]].
  - erewrite studio_bind_raise by exact Hcall.
    rewrite report_in_studio. eexists _, _. split; [done|]. simpl.
    split; [by right|]. split; [done|]. split; [done|]. split; [done|].
    by left.
  - erewrite studio_bind_ret by exact Hcall. fold path.
    specialize (Hret (ex_intro _ response eq_refl)).
    destruct (open_wb S path) as [e|[]] eqn:Hopen.
    + assert (open_for_writing S path (Studio s' (contents σ) reqs)
              = (Raise e, Studio s' (contents σ) reqs)) as Hfail.
      { unfold open_for_writing. by rewrite Hopen. }
      rewrite (studio_bind_raise _ _ _ _ _ Hfail).
      rewrite report_in_studio. eexists _, _. split; [done|]. simpl.
      split; [by right|]. split; [by right|]. split; [done|].
      split; [done|]. by left.
    + rewrite (save_audio_run path response _ Hopen). simpl.
      destruct (broken response) as [e|].
      * rewrite report_in_studio. eexists _, _. split; [done|]. simpl.
        split; [by right|]. split; [by right|]. split; [done|].
        split; [|right; by rewrite Hfiles].
        intros other Hother. by rewrite lookup_insert_ne.
      * eexists _, _. split; [done|]. simpl.
        split; [by left|]. split; [by right|]. split; [done|].
        split; [|right; by rewrite Hfiles].
        intros other Hother. by rewrite lookup_insert_ne.
Qed.

End SoundFacts.

(** Without any key in sight the sample account is never asked. *)
Lemma makenoise_needs_a_key_witness :
  ∃ σ',
    makenoise_command Sample.three_polls More.host More.sounds ∅
      (More.noise "rain" None) (More.silence More.key_files)
    = (Exit 1, σ')
    ∧ requests σ' = []
    ∧ contents σ' = ∅.
Proof.
  destruct (makenoise_needs_a_key Sample.three_polls More.host More.sounds ∅
              (More.noise "rain" None) (More.silence More.key_files))
    as (σ' & Hrun & Hreq & Hcont & _); [reflexivity|reflexivity| |].
  - vm_compute. reflexivity.
  - exists σ'. by rewrite Hrun, Hreq, Hcont.
Defined.

(** A stream that breaks after two chunks leaves the two chunks on disk. *)
Lemma makenoise_writes_the_chunks_in_order_witness :
  ∃ σ',
    makenoise_command Sample.three_polls More.host More.sounds ∅
      (More.noise "storm" (Some "sk-el")) (More.silence ∅)
    = (Exit 1, σ')
    ∧ contents σ' !! "/home/user/rain.mp3"
      = Some [Byte.x49; Byte.x44; Byte.x33].
Proof.
  destruct (makenoise_writes_the_chunks_in_order Sample.three_polls More.host
              More.sounds ∅ (More.noise "storm" (Some "sk-el"))
              (More.silence ∅)
              (Studio (Sample.start ∅) ∅
                 [Convert (SoundParams "storm" (Some 2%float) None)])
              (Audio More.two_chunks
                 (Some (Err "ConnectionError" "Connection aborted."))))
    as (σ' & Hrun & Hcont & _); [vm_compute; reflexivity|vm_compute; reflexivity|].
  exists σ'. split; [exact Hrun|]. rewrite Hcont.
  vm_compute. reflexivity.
Defined.

(** ** The request of [generate_image] *)

Section GenerateRequest.

Context {Raster : Type} (W : World Raster) (V : Services).

Lemma unless_auto_lookup key value params name :
  unless_auto key value params !! name
  = if bool_decide (name = key)
    then (if String.eqb value "auto" then params !! name else Some (PStr value))
    else params !! name.
Proof.
  unfold unless_auto. destruct (String.eqb value "auto"); simpl.
  - by case_bool_decide.
  - case_bool_decide as Heq.
    + subst. apply lookup_insert_eq.
    + by apply lookup_insert_ne.
Qed.

Lemma generate_params_lookup prompt background quality size output_format
    output_compression moderation name :
  generate_params prompt background quality size output_format
    output_compression moderation !! name
  = if bool_decide (name = "moderation") then chosen moderation
    else if bool_decide (name = "output_compression")
         then Some (PInt output_compression)
    else if bool_decide (name = "output_format") then chosen output_format
    else if bool_decide (name = "size") then chosen size
    else if bool_decide (name = "quality") then chosen quality
    else if bool_decide (name = "background") then chosen background
    else if bool_decide (name = "n") then Some (PInt 1)
    else if bool_decide (name = "model") then Some (PStr "gpt-image-1")
    else if bool_decide (name = "prompt") then Some (PStr prompt)
    else None.
Proof.
  unfold generate_params, chosen. rewrite unless_auto_lookup.
  case_bool_decide as Hm.
  { subst. rewrite lookup_insert_ne by done. rewrite !unless_auto_lookup.
    rewrite !bool_decide_eq_false_2 by done.
    rewrite !lookup_insert_ne by done. by destruct (String.eqb moderation "auto"). }
  destruct (decide (name = "output_compression")) as [->|Hc].
  { by rewrite lookup_insert_eq. }
  rewrite lookup_insert_ne, (bool_decide_eq_false_2 _ Hc) by done.
  rewrite !unless_auto_lookup.
  repeat (case_bool_decide;
          [subst; rewrite ?lookup_insert_eq, ?lookup_insert_ne by done;
           try done;
           by repeat match goal with
                     | |- context [String.eqb ?v "auto"] =>
                         destruct (String.eqb v "auto")
                     end|]).
  by rewrite !lookup_insert_ne, lookup_empty by done.
Qed.

(** X22.  What [generate_image] asks OpenAI for.  The call writes no file
    and sends at most one request, [images.generate]; it cannot return an
    image without having sent it.  The request always carries the prompt,
    the model [gpt-image-1], [n = 1] and [output_compression]; each of
    [background], [quality], [size], [output_format] and [moderation] is
    sent exactly when it is not ["auto"], and nothing else is sent. *)
Theorem generate_image_sends_only_chosen_options (prompt : string)
    (api_key api_base : option string)
    (background quality size output_format : string) (output_compression : Z)
    (moderation : string) (s : state) :
  ∃ r s' params,
    generate_image W V prompt api_key api_base background quality size
      output_format output_compression moderation s = (r, s')
    ∧ files s' = files s
    ∧ (trace s' = trace s ∧ (∃ e, r = Raise e)
       ∨ trace s' = trace s ++ [EvOpenAI "images.generate" params])
    ∧ params !! "prompt" = Some (PStr prompt)
    ∧ params !! "model" = Some (PStr "gpt-image-1")
    ∧ params !! "n" = Some (PInt 1)
    ∧ params !! "output_compression" = Some (PInt output_compression)
    ∧ params !! "background" = chosen background
    ∧ params !! "quality" = chosen quality
    ∧ params !! "size" = chosen size
    ∧ params !! "output_format" = chosen output_format
    ∧ params !! "moderation" = chosen moderation
    ∧ dom params ⊆ {[ "prompt"; "model"; "n"; "output_compression";
                      "background"; "quality"; "size"; "output_format";
                      "moderation" ]}.
Proof.
  set (params := generate_params prompt background quality size output_format
                   output_compression moderation).
  assert (∃ r s',
    generate_image W V prompt api_key api_base background quality size
      output_format output_compression moderation s = (r, s')
    ∧ files s' = files s
    ∧ (trace s' = trace s ∧ (∃ e, r = Raise e)
       ∨ trace s' = trace s ++ [EvOpenAI "images.generate" params]))
    as (r & s' & Hrun & Hfiles & Htrace).
  { unfold generate_image, make_client, images_generate. fold params.
    destruct (openai_client W _ _) as [e|[]]; simpl.
    { eexists _, _. split; [done|]. split; [done|]. left. eauto. }
    unfold mbind, M_bind, emit, lift, raise, mret, M_ret. simpl.
    destruct (openai_images_generate V params) as [e|data]; simpl.
    { eexists _, _. split; [done|]. split; [done|]. by right. }
    destruct data as [|d data]; simpl.
    { eexists _, _. split; [done|]. split; [done|]. by right. }
    unfold decode_image_data, image_from_bytes.
    destruct (truthy_opt (b64_json d)); simpl.
    - unfold mbind, M_bind, lift, raise, mret, M_ret.
      destruct (b64decode W _) as [e|bytes]; simpl.
      { eexists _, _. split; [done|]. split; [done|]. by right. }
      destruct (image_open_bytes W bytes) as [e|im]; simpl;
        eexists _, _; (split; [done|]); (split; [done|]); by right.
    - destruct (truthy_opt (data_url d)); simpl;
        eexists _, _; (split; [done|]); (split; [done|]); by right. }
  exists r, s', params. split; [done|]. split; [done|]. split; [done|].
  unfold params.
  repeat (split; [by rewrite generate_params_lookup|]).
  intros name [value Hname]%elem_of_dom.
  rewrite generate_params_lookup in Hname.
  repeat (case_bool_decide; [subst; set_solver|]).
  done.
Qed.

End GenerateRequest.

(** ** From the output of one command to the input of the next *)

Section RoundTrip.

Context {Raster : Type} (W : World Raster).

(** X23.  What a command has saved, the next command finds under the same
    name.  After [save_result] has written the image for the output name
    [output] and the directory [dir], [resolve_input_path] with the same
    name and directory returns the path that was written, whether the name
    is absolute or relative and whether a directory is given or not,
    provided the name does not start with [http://] or [https://]. *)
Theorem saved_output_is_found_as_input (im : image Raster)
    (output output_format : string) (dir : option string) (s s' : state)
    (Hsaved : save_result W im output output_format dir s = (Ret (), s'))
    (Hname : is_url output = false) :
  resolve_output_path W output dir ∈ files s'
  ∧ resolve_input_path W (Some output) dir s'
    = (Ret (Some (resolve_output_path W output dir)), s').
Proof.
  assert (resolve_output_path W output dir ∈ files s') as Hin.
  { unfold save_result, save_file in Hsaved.
    apply bind_ret_inv in Hsaved as ([] & s1 & Hsave & Hprint).
    apply bind_ret_inv in Hsave as ([] & s0 & Hwriter & Hsave).
    apply bind_ret_inv in Hsave as ([] & s3 & Hopen & Hsave).
    apply bind_ret_inv in Hsave as (bytes & s2 & Hencode & Hcreate).
    unfold create_path in Hcreate. injection Hcreate as <-.
    unfold print, emit in Hprint. injection Hprint as <-. simpl.
    set_solver. }
  split; [done|].
  unfold resolve_input_path, resolve_output_path in *. unfold is_url in Hname.
  rewrite Hname.
  destruct (isabs W output) eqn:Habs.
  { destruct dir as [d|]; [|done]. by rewrite andb_false_r. }
  destruct dir as [d|]; [|done].
  destruct (truthy_opt (Some d)) eqn:Hd; [|done].
  simpl in Hin |- *. unfold path_exists. run.
  by rewrite bool_decide_eq_true_2.
Qed.

End RoundTrip.

Lemma saved_output_is_found_as_input_witness :
  ∃ s',
    save_result Sample.three_polls Sample.photo "out.png" "png"
      (Some "/home/user") (Sample.start ∅) = (Ret (), s')
    ∧ resolve_input_path Sample.three_polls (Some "out.png") (Some "/home/user") s'
      = (Ret (Some "/home/user/out.png"), s').
Proof.
  eexists. split; [vm_compute; reflexivity|].
  apply (saved_output_is_found_as_input Sample.three_polls Sample.photo
           "out.png" "png" (Some "/home/user") (Sample.start ∅)).
  - vm_compute. reflexivity.
  - reflexivity.
Defined.

(** ** The [analyze] subcommand *)

Section AnalysisFacts.

Context {Raster : Type} (W : World Raster) (C : Chat).

(** A step of the image commands that returns or raises and leaves the
    files alone does the same in the studio. *)
Lemma on_machine_quiet {A} (c : M A) σ :
  never_exits c → ends c → preserves same_files c →
  ∃ r s',
    on_machine c σ = (r, Studio s' (contents σ) (requests σ))
    ∧ files s' = files (machine σ)
    ∧ ((∃ a, r = Ret a) ∨ (∃ e, r = Raise e)).
Proof.
  intros Hstay Hend Hfiles. unfold on_machine.
  specialize (Hstay (machine σ)). specialize (Hend (machine σ)).
  specialize (Hfiles (machine σ)). unfold same_files in Hfiles.
  destruct (c (machine σ)) as [[a|e|n|] s']; simpl in *.
  - exists (Ret a), s'. eauto.
  - exists (Raise e), s'. eauto.
  - by destruct (Hstay n).
  - done.
Qed.

Lemma ends_try_except {A} (c : M A) (h : error → M A) :
  ends c → (∀ e, ends (h e)) → ends (try_except c h).
Proof.
  intros Hc Hh s. specialize (Hc s). unfold try_except.
  destruct (c s) as [[a|e|n|] s1]; simpl in *; try done. apply Hh.
Qed.

Lemma ends_now : ends now.
Proof. by intros s. Qed.

Lemma process_image_ends path : ends (process_image W path).
Proof.
  unfold process_image. destruct path as [path|]; [|halts].
  destruct (_ || _).
  - apply ends_try_except; [|intros; halts].
    unfold get, raise_for_status, image_from_bytes.
    repeat first [apply ends_now | progress halts].
  - halts.
Qed.

Lemma resolve_input_path_ends path dir : ends (resolve_input_path W path dir).
Proof. unfold resolve_input_path. halts. Qed.

Lemma process_image_keeps path : preserves same_files (process_image W path).
Proof.
  unfold process_image, get, raise_for_status, image_from_bytes. grow.
Qed.

Lemma resolve_input_path_keeps path dir :
  preserves same_files (resolve_input_path W path dir).
Proof. unfold resolve_input_path. grow. Qed.

(** How [first_content] and the end of both calls go. *)
Lemma chat_run model messages σ :
  chat C model messages σ
  = (match chat_completions_create C model messages with
     | inl e => Raise e
     | inr choices => Ret choices
     end,
     Studio (machine σ) (contents σ)
       (requests σ ++ [ChatCompletion model messages])).
Proof. unfold chat. by destruct (chat_completions_create C model messages). Qed.

(** Every way in which [analyze_image] ends. *)
Lemma analyze_image_cases im prompt api_key api_base detail σ :
  ∃ r reqs,
    analyze_image W C im prompt api_key api_base detail σ
    = (r, Studio (machine σ) (contents σ) reqs)
    ∧ ((∃ e, r = Raise e ∧ reqs = requests σ)
       ∨ ∃ bytes,
           image_encode W im "PNG" None = inr bytes
           ∧ reqs = requests σ
                      ++ [ChatCompletion "gpt-4o"
                            (vision_messages prompt (b64encode W bytes) detail)]
           ∧ ((∃ e, r = Raise e)
              ∨ ∃ content rest,
                  chat_completions_create C "gpt-4o"
                    (vision_messages prompt (b64encode W bytes) detail)
                  = inr (content :: rest)
                  ∧ r = Ret (im, content))).
Proof.
  unfold analyze_image, make_client, save_to_buffer.
  unfold mbind at 1. unfold N_bind, on_machine, lift at 1.
  destruct (openai_client W _ _) as [e|[]]; simpl.
  { exists (Raise e), (requests σ). split; [by destruct σ|]. left. eauto. }
  unfold mbind at 1. unfold N_bind, on_machine, lift at 1.
  destruct (image_encode W im "PNG" None) as [e|bytes]; simpl.
  { exists (Raise e), (requests σ). split; [by destruct σ|]. left. eauto. }
  unfold mbind at 1. unfold N_bind. rewrite chat_run. simpl.
  destruct (chat_completions_create C "gpt-4o" _) as [e|choices] eqn:Hchat.
  { eexists _, _. split; [done|]. right. exists bytes.
    split; [done|]. split; [done|]. left. eauto. }
  destruct choices as [|content rest]; simpl.
  { eexists _, _. split; [done|]. right. exists bytes.
    split; [done|]. split; [done|]. left. eauto. }
  eexists _, _. split; [done|]. right. exists bytes.
  split; [done|]. split; [done|]. right. by exists content, rest.
Qed.

(** Every way in which [analyze_text] ends. *)
Lemma analyze_text_cases prompt api_key api_base σ :
  ∃ r reqs,
    analyze_text W C prompt api_key api_base σ
    = (r, Studio (machine σ) (contents σ) reqs)
    ∧ ((∃ e, r = Raise e ∧ reqs = requests σ)
       ∨ reqs = requests σ
                  ++ [ChatCompletion "gpt-4-vision-preview" (text_messages prompt)]
         ∧ ((∃ e, r = Raise e)
            ∨ ∃ content rest,
                chat_completions_create C "gpt-4-vision-preview"
                  (text_messages prompt)
                = inr (content :: rest)
                ∧ r = Ret (None, content))).
Proof.
  unfold analyze_text, make_client.
  unfold mbind at 1. unfold N_bind, on_machine, lift at 1.
  destruct (openai_client W _ _) as [e|[]]; simpl.
  { exists (Raise e), (requests σ). split; [by destruct σ|]. left. eauto. }
  unfold mbind at 1. unfold N_bind. rewrite chat_run. simpl.
  destruct (chat_completions_create C "gpt-4-vision-preview" _)
    as [e|choices] eqn:Hchat.
  { eexists _, _. split; [done|]. right. split; [done|]. left. eauto. }
  destruct choices as [|content rest]; simpl.
  { eexists _, _. split; [done|]. right. split; [done|]. left. eauto. }
  eexists _, _. split; [done|]. right. split; [done|]. right.
  by exists content, rest.
Qed.

(** X24.  What [analyze] can do at all.  From every state the command
    either returns or exits with status 1.  It creates, removes and writes
    no file.  It sends at most one chat request, to [gpt-4o] when an input
    is given and to [gpt-4-vision-preview] when the input is empty; and when
    it returns, it has sent that request and the last line it printed is
    the content of the first choice of the answer. *)
Theorem analyze_is_contained (args : analyze_args) (σ : studio) :
  let model := if negb (String.eqb (analyze_input args) EmptyString)
               then "gpt-4o" else "gpt-4-vision-preview" in
  ∃ r σ',
    analyze_command W C args σ = (r, σ')
    ∧ (r = Ret () ∨ r = Exit 1)
    ∧ files (machine σ') = files (machine σ)
    ∧ contents σ' = contents σ
    ∧ (requests σ' = requests σ
       ∨ ∃ messages, requests σ' = requests σ ++ [ChatCompletion model messages])
    ∧ (r = Ret () →
       ∃ messages content rest tr,
         requests σ' = requests σ ++ [ChatCompletion model messages]
         ∧ chat_completions_create C model messages = inr (content :: rest)
         ∧ trace (machine σ') = tr ++ [EvPrint (default "None" content)]).
Proof.
  intros model. unfold analyze_command, try_except_in_studio. subst model.
  destruct (negb (String.eqb (analyze_input args) EmptyString)).
  - destruct (on_machine_quiet
                (resolve_input_path W (Some (analyze_input args))
                   (analyze_output_dir args)) σ)
      as (r1 & s1 & Hrun1 & Hf1 & Hr1);
      [apply resolve_input_path_stays|apply resolve_input_path_ends
      |apply resolve_input_path_keeps|].
    destruct Hr1 as [[resolved ->]|[e ->]]; last first.
    { erewrite studio_bind_raise by exact Hrun1. rewrite report_in_studio.
      eexists _, _. split; [done|]. simpl.
      split; [by right|]. split; [done|]. split; [done|]. split; [by left|done]. }
    erewrite studio_bind_ret by exact Hrun1.
    destruct (on_machine_quiet (process_image W resolved)
                (Studio s1 (contents σ) (requests σ)))
      as (r2 & s2 & Hrun2 & Hf2 & Hr2);
      [apply process_image_stays|apply process_image_ends
      |apply process_image_keeps|].
    simpl in Hrun2, Hf2.
    destruct Hr2 as [[im ->]|[e ->]]; last first.
    { erewrite studio_bind_raise by exact Hrun2. rewrite report_in_studio.
      eexists _, _. split; [done|]. simpl.
      split; [by right|]. split; [congruence|]. split; [done|].
      split; [by left|done]. }
    erewrite studio_bind_ret by exact Hrun2.
    destruct (analyze_image_cases im
                (or_str (analyze_prompt args) "Describe this image in detail.")
                (analyze_api_key args) (analyze_api_base args)
                (analyze_detail args) (Studio s2 (contents σ) (requests σ)))
      as (r3 & reqs & Hrun3 & Hr3).
    simpl in Hrun3, Hr3.
    destruct Hr3 as [(e & -> & ->)|(bytes & _ & -> & [[e ->]|Hret])].
    + erewrite studio_bind_raise by exact Hrun3. rewrite report_in_studio.
      eexists _, _. split; [done|]. simpl.
      split; [by right|]. split; [congruence|]. split; [done|].
      split; [by left|done].
    + erewrite studio_bind_raise by exact Hrun3. rewrite report_in_studio.
      eexists _, _. split; [done|]. simpl.
      split; [by right|]. split; [congruence|]. split; [done|].
      split; [right; by eexists|done].
    + destruct Hret as (content & rest & Hchat & ->).
      erewrite studio_bind_ret by exact Hrun3.
      eexists _, _. split; [done|]. simpl.
      split; [by left|]. split; [congruence|]. split; [done|].
      split; [right; by eexists|]. intros _.
      eexists _, content, rest, _. split; [done|]. split; [exact Hchat|done].
  - destruct (analyze_text_cases
                (or_str (analyze_prompt args) "Please provide a prompt.")
                (analyze_api_key args) (analyze_api_base args) σ)
      as (r3 & reqs & Hrun3 & Hr3).
    destruct Hr3 as [(e & -> & ->)|(-> & [[e ->]|Hret])].
    + erewrite studio_bind_raise by exact Hrun3. rewrite report_in_studio.
      eexists _, _. split; [done|]. simpl.
      split; [by right|]. split; [done|]. split; [done|].
      split; [by left|done].
    + erewrite studio_bind_raise by exact Hrun3. rewrite report_in_studio.
      eexists _, _. split; [done|]. simpl.
      split; [by right|]. split; [done|]. split; [done|].
      split; [right; by eexists|done].
    + destruct Hret as (content & rest & Hchat & ->).
      erewrite studio_bind_ret by exact Hrun3.
      eexists _, _. split; [done|]. simpl.
      split; [by left|]. split; [done|]. split; [done|].
      split; [right; by eexists|]. intros _.
      eexists _, content, rest, _. split; [done|]. split; [exact Hchat|done].
Qed.

(** X25.  What [analyze] sends and prints for an image.  When the input is
    loaded, the client can be made and the image encodes as PNG, the command
    sends one request to [gpt-4o]: the prompt of the command line, or
    ["Describe this image in detail."] when that is empty, followed by the
    image as a PNG data URL with the chosen detail, whatever format the
    input had.  It prints the content of the first choice, ignores the other
    choices, and returns. *)
Theorem analyze_prints_the_first_choice (args : analyze_args) (σ : studio)
    (im : image Raster) (s1 : state) (bytes : list Byte.byte)
    (content : option string) (rest : list (option string))
    (Hinput : analyze_input args ≠ EmptyString)
    (Hload : (resolve_input_path W (Some (analyze_input args))
                (analyze_output_dir args) ≫= process_image W) (machine σ)
             = (Ret im, s1))
    (Hclient : openai_client W
                 (or_opt (analyze_api_key args) (env_openai_api_key W))
                 (if truthy_opt (analyze_api_base args)
                  then analyze_api_base args else None)
               = inr ())
    (Hpng : image_encode W im "PNG" None = inr bytes) :
  let messages :=
    vision_messages
      (or_str (analyze_prompt args) "Describe this image in detail.")
      (b64encode W bytes) (analyze_detail args) in
  chat_completions_create C "gpt-4o" messages = inr (content :: rest) →
  analyze_command W C args σ
  = (Ret (),
     Studio (printed (default "None" content) s1) (contents σ)
            (requests σ ++ [ChatCompletion "gpt-4o" messages])).
Proof.
  intros messages Hchat. unfold analyze_command, try_except_in_studio.
  apply String.eqb_neq in Hinput. rewrite Hinput. cbn [negb].
  apply bind_ret_inv in Hload as (resolved & s0 & Hresolve & Hprocess).
  erewrite studio_bind_ret; last first.
  { unfold on_machine. rewrite Hresolve. reflexivity. }
  erewrite studio_bind_ret; last first.
  { unfold on_machine. simpl. rewrite Hprocess. reflexivity. }
  erewrite studio_bind_ret; last first.
  { unfold analyze_image, make_client, save_to_buffer.
    unfold mbind at 1. unfold N_bind, on_machine, lift at 1.
    rewrite Hclient. simpl.
    unfold mbind at 1. unfold N_bind, on_machine, lift at 1.
    rewrite Hpng. simpl.
    unfold mbind at 1. unfold N_bind. rewrite chat_run. simpl.
    fold messages. rewrite Hchat. simpl. reflexivity. }
  done.
Qed.

End AnalysisFacts.

(** The sample endpoint is asked about the downloaded picture with the
    default prompt, and its first choice is printed. *)
Lemma analyze_prints_the_first_choice_witness :
  analyze_command Sample.web_image More.chat_service More.analysis
    (More.silence ∅)
  = (Ret (),
     Studio (printed "A lighthouse, says gpt-4o"
               (downloaded "https://example.com/cat.png" (Sample.start ∅)))
            ∅
            [ChatCompletion "gpt-4o"
               (vision_messages "Describe this image in detail."
                  (b64encode Sample.web_image [Byte.x89]) "auto")]).
Proof.
  apply (analyze_prints_the_first_choice Sample.web_image More.chat_service
           More.analysis (More.silence ∅) (Image "RGB" 2 1 ())
           (downloaded "https://example.com/cat.png" (Sample.start ∅))
           [Byte.x89] (Some "A lighthouse, says gpt-4o") [Some "A tower"]).
  - discriminate.
  - vm_compute. reflexivity.
  - reflexivity.
  - reflexivity.
  - reflexivity.
Defined.
